(** * GearUp-Sports: the indexed user store of the authentication context

    A shallow embedding of [EnhancedUserDatabase]: the primary table
    [users], the email index, the role index and the name-token index, the
    operations that mutate them, search, statistics, CSV import and the
    backup rotation on [localStorage].

    Modelling conventions.
    - A JavaScript [Map] is an insertion-ordered association list with
      unique keys ([JSMap]); a [Set] of strings is an insertion-ordered
      list without repetition ([JSSet]).
    - Strings are ASCII strings; [toLowerCase] folds the letters A-Z and
      [trim] strips the ASCII white space characters.
    - [Date.now()] and ISO time stamps are integers (milliseconds); the
      identifier produced by [generateUserId] and the clock reading are
      passed to the operation that consumes them.
    - A method that can throw returns an [Outcome] together with the store
      as it is when the method returns or throws.
    - Every mutating method ends with [saveToStorage], whose catch block
      runs [cleanupOldData] when a write to [localStorage] fails.  The
      methods are first given up to that call: these are the transitions of
      the store when the write succeeds, and a sequence of them is a
      sequence of operations ([Op]).  [cleanupOldData] changes the store
      through [deleteUser] only, so a store reached with failing writes is
      reached by such a sequence too.  The module [Persisted] then gives
      the methods with the call, the outcome of each write being an input.
    - The fields [avatar], [preferences] and [profile] take no part in any
      index or statistic and are left out of the records. *)

From Stdlib Require Import String Ascii List Bool Arith ZArith NArith QArith Lia.
From Stdlib Require Import Sorted Permutation.
Import ListNotations.

Open Scope string_scope.
Open Scope list_scope.

(* ================================================================== *)
(** ** JavaScript string primitives *)

Module JSString.

Definition lower_ascii (c : ascii) : ascii :=
  let n := nat_of_ascii c in
  if (65 <=? n)%nat && (n <=? 90)%nat then ascii_of_nat (n + 32) else c.

Fixpoint toLowerCase (s : string) : string :=
  match s with
  | EmptyString => EmptyString
  | String c r => String (lower_ascii c) (toLowerCase r)
  end.

(** tab, line feed, vertical tab, form feed, carriage return, space *)
Definition is_ws (c : ascii) : bool :=
  let n := nat_of_ascii c in
  ((9 <=? n)%nat && (n <=? 13)%nat) || (n =? 32)%nat.

Fixpoint trimStart (s : string) : string :=
  match s with
  | EmptyString => EmptyString
  | String c r => if is_ws c then trimStart r else s
  end.

Fixpoint trimEnd (s : string) : string :=
  match s with
  | EmptyString => EmptyString
  | String c r =>
      match trimEnd r with
      | EmptyString => if is_ws c then EmptyString else String c EmptyString
      | r' => String c r'
      end
  end.

Definition trim (s : string) : string := trimEnd (trimStart s).

(** [s.split(sep)] for a one-character separator; never empty. *)
Fixpoint split (sep : ascii) (s : string) : list string :=
  match s with
  | EmptyString => [EmptyString]
  | String c r =>
      if Ascii.eqb c sep then EmptyString :: split sep r
      else match split sep r with
           | [] => [String c EmptyString]
           | w :: ws => String c w :: ws
           end
  end.

Definition startsWith (s p : string) : bool := String.prefix p s.

(** [s.includes(t)] *)
Fixpoint includes (s t : string) : bool :=
  String.prefix t s ||
  match s with
  | EmptyString => false
  | String _ r => includes r t
  end.

(** [s.replace(/c/g, '')] *)
Fixpoint removeAll (c : ascii) (s : string) : string :=
  match s with
  | EmptyString => EmptyString
  | String a r => if Ascii.eqb a c then removeAll c r else String a (removeAll c r)
  end.

Definition digit (d : N) : ascii := ascii_of_N (48 + d).

(** decimal digits, least significant first *)
Fixpoint digits_rev (fuel : nat) (n : N) : list ascii :=
  match fuel with
  | O => []
  | S f => if (n <? 10)%N then [digit n]
           else digit (n mod 10) :: digits_rev f (n / 10)
  end.

Definition string_of_N (n : N) : string :=
  string_of_list_ascii (rev (digits_rev (S (N.to_nat (N.log2 n))) n)).

Definition string_of_Z (z : Z) : string :=
  if (z <? 0)%Z then ("-" ++ string_of_N (Z.abs_N z))%string
  else string_of_N (Z.to_N z).

Definition string_of_nat (n : nat) : string := string_of_N (N.of_nat n).

(** insertion sort by code-unit order: [Array.prototype.sort()] without
    a comparator *)
Fixpoint insert (x : string) (l : list string) : list string :=
  match l with
  | [] => [x]
  | y :: l' => if String.leb x y then x :: l else y :: insert x l'
  end.

Fixpoint sort (l : list string) : list string :=
  match l with
  | [] => []
  | x :: l' => insert x (sort l')
  end.

End JSString.

(* ================================================================== *)
(** ** [Set<string>] and [Map<string, V>] *)

Module JSSet.

Definition t := list string.

Definition has (x : string) (s : t) : bool := existsb (String.eqb x) s.

Definition add (x : string) (s : t) : t := if has x s then s else s ++ [x].

Definition delete (x : string) (s : t) : t :=
  filter (fun y => negb (String.eqb y x)) s.

Definition size (s : t) : nat := List.length s.

End JSSet.

Module JSMap.

Definition t (V : Type) := list (string * V).

Section Ops.
Context {V : Type}.

Fixpoint get (k : string) (m : t V) : option V :=
  match m with
  | [] => None
  | (k', v) :: m' => if String.eqb k' k then Some v else get k m'
  end.

Definition has (k : string) (m : t V) : bool :=
  match get k m with Some _ => true | None => false end.

(** an existing key keeps its position, a new key goes last *)
Fixpoint set (k : string) (v : V) (m : t V) : t V :=
  match m with
  | [] => [(k, v)]
  | (k', v') :: m' =>
      if String.eqb k' k then (k, v) :: m' else (k', v') :: set k v m'
  end.

Definition delete (k : string) (m : t V) : t V :=
  filter (fun p => negb (String.eqb (fst p) k)) m.

Definition size (m : t V) : nat := List.length m.

Definition keys (m : t V) : list string := map fst m.

Definition values (m : t V) : list V := map snd m.

End Ops.

End JSMap.

(* ================================================================== *)
(** ** Records *)

Record UserStats := {
  totalOrders : Z;
  totalSpent : Q;
  loyaltyPoints : Z
}.

(** [User & { password: string }]; a record returned to a caller has its
    password removed ([None]). *)
Record User := {
  id : string;
  email : string;
  name : string;
  password : option string;
  createdAt : Z;
  lastLogin : option Z;
  isActive : bool;
  role : string;
  stats : option UserStats
}.

(** The argument of [createUser]. *)
Record UserData := {
  d_email : string;
  d_name : string;
  d_password : string;
  d_role : option string
}.

(** [Partial<User>]: [None] is an absent property. *)
Record PartialUser := {
  p_id : option string;
  p_email : option string;
  p_name : option string;
  p_createdAt : option Z;
  p_lastLogin : option Z;
  p_isActive : option bool;
  p_role : option string;
  p_stats : option UserStats
}.

Record Store := {
  users : JSMap.t User;
  emailIndex : JSMap.t string;
  roleIndex : JSMap.t JSSet.t;
  nameIndex : JSMap.t JSSet.t
}.

Inductive Outcome (A : Type) : Type :=
| Return (a : A)
| Throw (message : string).
Arguments Return {A} a.
Arguments Throw {A} message.

Definition emptyStore : Store :=
  {| users := []; emailIndex := []; roleIndex := []; nameIndex := [] |}.

Definition noUpdates : PartialUser :=
  {| p_id := None; p_email := None; p_name := None; p_createdAt := None;
     p_lastLogin := None; p_isActive := None; p_role := None; p_stats := None |}.

(* ================================================================== *)
(** ** The store operations

    The mutating methods ([createUser], [updateUser], [updateUserRole],
    [deactivateUser], [activateUser], [updateLastLogin], [deleteUser]) are
    given here up to their final call of [saveToStorage]; the module
    [Persisted] below gives them with it. *)

Definition MAX_USERS : nat := 1000.

(** [const { password, ...userWithoutPassword } = user] *)
Definition withoutPassword (u : User) : User :=
  {| id := id u; email := email u; name := name u; password := None;
     createdAt := createdAt u; lastLogin := lastLogin u;
     isActive := isActive u; role := role u; stats := stats u |}.

(** [email.toLowerCase().trim()] *)
Definition normalizeEmail (e : string) : string :=
  JSString.trim (JSString.toLowerCase e).

(** [name.toLowerCase().split(' ')] *)
Definition nameTokens (n : string) : list string :=
  JSString.split " "%char (JSString.toLowerCase n).

(** [if (!index.has(key)) index.set(key, new Set()); index.get(key)!.add(id)] *)
Definition addToIndex (key userId : string) (index : JSMap.t JSSet.t)
  : JSMap.t JSSet.t :=
  let index1 := if JSMap.has key index then index else JSMap.set key [] index in
  match JSMap.get key index1 with
  | Some bucket => JSMap.set key (JSSet.add userId bucket) index1
  | None => index1
  end.

(** [const set = index.get(key); if (set) set.delete(id)] *)
Definition removeFromIndex (key userId : string) (index : JSMap.t JSSet.t)
  : JSMap.t JSSet.t :=
  match JSMap.get key index with
  | Some bucket => JSMap.set key (JSSet.delete userId bucket) index
  | None => index
  end.

Definition updateIndexes (userId : string) (user : User) (s : Store) : Store :=
  {| users := users s;
     emailIndex := emailIndex s;
     roleIndex := addToIndex (role user) userId (roleIndex s);
     nameIndex := fold_left (fun idx token => addToIndex token userId idx)
                            (nameTokens (name user)) (nameIndex s) |}.

Definition buildIndexes (s : Store) : Store :=
  let cleared := {| users := users s; emailIndex := emailIndex s;
                    roleIndex := []; nameIndex := [] |} in
  fold_left
    (fun st entry =>
       let '(userId, user) := entry in
       {| users := users st;
          emailIndex := emailIndex st;
          roleIndex := addToIndex (role user) userId (roleIndex st);
          nameIndex := fold_left (fun idx token => addToIndex token userId idx)
                                 (nameTokens (name user)) (nameIndex st) |})
    (users s) cleared.

(** the object literal of [createUser] *)
Definition newUser (userId : string) (now : Z) (userData : UserData) : User :=
  {| id := userId;
     email := normalizeEmail (d_email userData);
     name := JSString.trim (d_name userData);
     password := Some (d_password userData);
     createdAt := now;
     lastLogin := None;
     isActive := true;
     role := match d_role userData with
             | Some r => if String.eqb r "" then "user" else r
             | None => "user"
             end;
     stats := Some {| totalOrders := 0; totalSpent := 0; loyaltyPoints := 0 |} |}.

Definition createUser (userId : string) (now : Z) (userData : UserData)
    (s : Store) : Outcome User * Store :=
  if (MAX_USERS <=? JSMap.size (users s))%nat then
    (Throw ("Maximum user limit reached ("
             ++ JSString.string_of_nat MAX_USERS ++ ")")%string, s)
  else
    let user := newUser userId now userData in
    let s1 := {| users := JSMap.set userId user (users s);
                 emailIndex := JSMap.set (email user) userId (emailIndex s);
                 roleIndex := roleIndex s;
                 nameIndex := nameIndex s |} in
    (Return (withoutPassword user), updateIndexes userId user s1).

Definition findUserById (userId : string) (s : Store) : option User :=
  match JSMap.get userId (users s) with
  | None => None
  | Some user => Some (withoutPassword user)
  end.

Definition findUserByEmail (e : string) (s : Store) : option User :=
  match JSMap.get (normalizeEmail e) (emailIndex s) with
  | None => None
  | Some userId =>
      if String.eqb userId "" then None else JSMap.get userId (users s)
  end.

Fixpoint filterMap {A B : Type} (f : A -> option B) (l : list A) : list B :=
  match l with
  | [] => []
  | x :: l' => match f x with
               | Some y => y :: filterMap f l'
               | None => filterMap f l'
               end
  end.

(** The identifiers collected for one search term, added to [acc]. *)
Definition searchTerm (s : Store) (acc : JSSet.t) (term : string) : JSSet.t :=
  let acc1 :=
    fold_left
      (fun a entry =>
         let '(token, userIds) := entry in
         if JSString.includes token term
         then fold_left (fun a' i => JSSet.add i a') userIds a
         else a)
      (nameIndex s) acc in
  fold_left
    (fun a entry =>
       let '(e, userId) := entry in
       if JSString.includes e term then JSSet.add userId a else a)
    (emailIndex s) acc1.

Definition matchingUserIds (query : string) (s : Store) : JSSet.t :=
  fold_left (searchTerm s) (JSString.split " "%char (JSString.toLowerCase query)) [].

Definition searchUsers (query : string) (s : Store) : list User :=
  filterMap (fun i => findUserById i s) (matchingUserIds query s).

Definition getUsersByRole (r : string) (s : Store) : list User :=
  let userIds := match JSMap.get r (roleIndex s) with
                 | Some b => b
                 | None => []
                 end in
  filterMap (fun i => findUserById i s) userIds.

Definition setRole (r : string) (u : User) : User :=
  {| id := id u; email := email u; name := name u; password := password u;
     createdAt := createdAt u; lastLogin := lastLogin u;
     isActive := isActive u; role := r; stats := stats u |}.

Definition setActive (b : bool) (u : User) : User :=
  {| id := id u; email := email u; name := name u; password := password u;
     createdAt := createdAt u; lastLogin := lastLogin u;
     isActive := b; role := role u; stats := stats u |}.

Definition setLastLogin (t : Z) (u : User) : User :=
  {| id := id u; email := email u; name := name u; password := password u;
     createdAt := createdAt u; lastLogin := Some t;
     isActive := isActive u; role := role u; stats := stats u |}.

Definition withUsers (us : JSMap.t User) (s : Store) : Store :=
  {| users := us; emailIndex := emailIndex s;
     roleIndex := roleIndex s; nameIndex := nameIndex s |}.

Definition updateUserRole (userId newRole : string) (s : Store) : bool * Store :=
  match JSMap.get userId (users s) with
  | None => (false, s)
  | Some user =>
      let roleIndex1 := removeFromIndex (role user) userId (roleIndex s) in
      let user1 := setRole newRole user in
      let roleIndex2 := addToIndex newRole userId roleIndex1 in
      (true, {| users := JSMap.set userId user1 (users s);
                emailIndex := emailIndex s;
                roleIndex := roleIndex2;
                nameIndex := nameIndex s |})
  end.

Definition deactivateUser (userId : string) (s : Store) : bool * Store :=
  match JSMap.get userId (users s) with
  | None => (false, s)
  | Some user => (true, withUsers (JSMap.set userId (setActive false user) (users s)) s)
  end.

Definition activateUser (userId : string) (s : Store) : bool * Store :=
  match JSMap.get userId (users s) with
  | None => (false, s)
  | Some user => (true, withUsers (JSMap.set userId (setActive true user) (users s)) s)
  end.

Definition updateLastLogin (userId : string) (now : Z) (s : Store) : Store :=
  match JSMap.get userId (users s) with
  | None => s
  | Some user => withUsers (JSMap.set userId (setLastLogin now user) (users s)) s
  end.

Definition orElse {A : Type} (o : option A) (d : A) : A :=
  match o with Some a => a | None => d end.

(** [{ ...user, ...updates }] *)
Definition merge (user : User) (updates : PartialUser) : User :=
  {| id := orElse (p_id updates) (id user);
     email := orElse (p_email updates) (email user);
     name := orElse (p_name updates) (name user);
     password := password user;
     createdAt := orElse (p_createdAt updates) (createdAt user);
     lastLogin := match p_lastLogin updates with
                  | Some t => Some t
                  | None => lastLogin user
                  end;
     isActive := orElse (p_isActive updates) (isActive user);
     role := orElse (p_role updates) (role user);
     stats := match p_stats updates with
              | Some st => Some st
              | None => stats user
              end |}.

(** [v && v !== current] for a string property of the updates *)
Definition changes (v : option string) (current : string) : bool :=
  match v with
  | Some x => negb (String.eqb x "") && negb (String.eqb x current)
  | None => false
  end.

Definition updateUser (userId : string) (updates : PartialUser) (s : Store)
  : Outcome (option User) * Store :=
  match JSMap.get userId (users s) with
  | None => (Return None, s)
  | Some user =>
      let newEmail := normalizeEmail (orElse (p_email updates) "") in
      if changes (p_email updates) (email user)
         && JSMap.has newEmail (emailIndex s)
      then (Throw "Email already exists", s)
      else
        let emailIndex1 :=
          if changes (p_email updates) (email user)
          then JSMap.set newEmail userId (JSMap.delete (email user) (emailIndex s))
          else emailIndex s in
        let roleIndex1 :=
          if changes (p_role updates) (role user)
          then addToIndex (orElse (p_role updates) "") userId
                 (removeFromIndex (role user) userId (roleIndex s))
          else roleIndex s in
        let updatedUser := merge user updates in
        (Return (Some (withoutPassword updatedUser)),
         {| users := JSMap.set userId updatedUser (users s);
            emailIndex := emailIndex1;
            roleIndex := roleIndex1;
            nameIndex := nameIndex s |})
  end.

Definition getAllUsers (s : Store) : list User :=
  map withoutPassword (JSMap.values (users s)).

Definition getUserCount (s : Store) : nat := JSMap.size (users s).

(** the [forEach] over the name tokens in [deleteUser] *)
Definition removeToken (userId : string) (index : JSMap.t JSSet.t) (token : string)
  : JSMap.t JSSet.t :=
  match JSMap.get token index with
  | Some nameSet =>
      let nameSet1 := JSSet.delete userId nameSet in
      if (JSSet.size nameSet1 =? 0)%nat then JSMap.delete token index
      else JSMap.set token nameSet1 index
  | None => index
  end.

Definition deleteUser (userId : string) (s : Store) : bool * Store :=
  match JSMap.get userId (users s) with
  | None => (false, s)
  | Some user =>
      (true,
       {| users := JSMap.delete userId (users s);
          emailIndex := JSMap.delete (email user) (emailIndex s);
          roleIndex := removeFromIndex (role user) userId (roleIndex s);
          nameIndex := fold_left (removeToken userId) (nameTokens (name user))
                                 (nameIndex s) |})
  end.

(* ================================================================== *)
(** ** Statistics *)

Record DbStats := {
  totalUsers : nat;
  activeUsers : nat;
  inactiveUsers : nat;
  adminUsers : nat;
  moderatorUsers : nat;
  regularUsers : nat;
  newUsersThisWeek : nat;
  newUsersThisMonth : nat;
  usersWithOrders : nat;
  averageOrderValue : Q;
  totalRevenue : Q;
  maxCapacity : nat
}.

(** [u.stats?.totalOrders || 0] and [u.stats?.totalSpent || 0] *)
Definition ordersOf (u : User) : Z :=
  match stats u with Some st => totalOrders st | None => 0%Z end.

Definition spentOf (u : User) : Q :=
  match stats u with Some st => totalSpent st | None => 0 end.

Definition hasOrders (u : User) : bool := (0 <? ordersOf u)%Z.

(** [users.reduce((sum, u) => sum + (u.stats?.totalSpent || 0), 0)] *)
Definition sumSpent (l : list User) : Q :=
  fold_left (fun sum u => sum + spentOf u) l 0.

Definition WEEK_MS : Z := 7 * 24 * 60 * 60 * 1000.
Definition MONTH_MS : Z := 30 * 24 * 60 * 60 * 1000.

(** [storageUsed] (the size of a JSON text) and [capacityUsed] (a rounded
    percentage) are not part of the model. *)
Definition getStats (now : Z) (s : Store) : DbStats :=
  let us := getAllUsers s in
  let oneWeekAgo := (now - WEEK_MS)%Z in
  let oneMonthAgo := (now - MONTH_MS)%Z in
  let active := filter isActive us in
  {| totalUsers := length us;
     activeUsers := length active;
     inactiveUsers := length us - length active;
     adminUsers := length (filter (fun u => String.eqb (role u) "admin") us);
     moderatorUsers := length (filter (fun u => String.eqb (role u) "moderator") us);
     regularUsers := length (filter (fun u => String.eqb (role u) "user") us);
     newUsersThisWeek := length (filter (fun u => (oneWeekAgo <? createdAt u)%Z) us);
     newUsersThisMonth := length (filter (fun u => (oneMonthAgo <? createdAt u)%Z) us);
     usersWithOrders := length (filter hasOrders us);
     averageOrderValue :=
       sumSpent us / inject_Z (Z.max (Z.of_nat (length (filter hasOrders us))) 1);
     totalRevenue := sumSpent us;
     maxCapacity := MAX_USERS |}.

(* ================================================================== *)
(** ** CSV import *)

Record ImportResult := {
  imported : nat;
  errors : list string
}.

Definition newline : ascii := ascii_of_nat 10.
Definition quote : ascii := ascii_of_nat 34.

Definition lineLabel (i : nat) : string :=
  ("Line " ++ JSString.string_of_nat (i + 1) ++ ": ")%string.

(** The body of the loop of [importUsers] for the line of index [i];
    [genId i] and [clock i] are the identifier and the clock reading that
    [createUser] obtains while it handles that line. *)
Definition importLine (genId : nat -> string) (clock : nat -> Z)
    (i : nat) (line : string) (acc : Store * ImportResult)
  : Store * ImportResult :=
  let '(s, r) := acc in
  let values := JSString.split ","%char line in
  if (length values <? 3)%nat then acc
  else
    let e := JSString.removeAll quote (nth 2 values "") in
    let n := JSString.removeAll quote (nth 1 values "") in
    if String.eqb e "" || String.eqb n "" then
      (s, {| imported := imported r;
             errors := errors r ++ [(lineLabel i ++ "Missing required fields")%string] |})
    else if JSMap.has e (emailIndex s) then
      (s, {| imported := imported r;
             errors := errors r ++ [(lineLabel i ++ "Email " ++ e ++ " already exists")%string] |})
    else
      let r3 := match nth_error values 3 with
                | Some x => if String.eqb x "" then "user" else x
                | None => "user"
                end in
      match createUser (genId i) (clock i)
              {| d_email := e; d_name := n; d_password := "imported123";
                 d_role := Some r3 |} s with
      | (Return _, s') =>
          (s', {| imported := imported r + 1; errors := errors r |})
      | (Throw message, s') =>
          (s', {| imported := imported r;
                  errors := errors r ++ [(lineLabel i ++ message)%string] |})
      end.

Fixpoint importLines (genId : nat -> string) (clock : nat -> Z)
    (i : nat) (lines : list string) (acc : Store * ImportResult)
  : Store * ImportResult :=
  match lines with
  | [] => acc
  | line :: rest =>
      importLines genId clock (S i) rest (importLine genId clock i line acc)
  end.

Definition importUsers (genId : nat -> string) (clock : nat -> Z)
    (csvData : string) (s : Store) : ImportResult * Store :=
  let lines := JSString.split newline csvData in
  let '(s', r) := importLines genId clock 1 (tl lines)
                    (s, {| imported := 0; errors := [] |}) in
  (r, s').

(* ================================================================== *)
(** ** Backups on [localStorage] *)

Definition Storage := JSMap.t string.

Definition BACKUP_PREFIX : string := "gearupsports_backup_".

Definition backupKey (now : Z) : string :=
  (BACKUP_PREFIX ++ JSString.string_of_Z now)%string.

Definition backupKeysOf (ls : Storage) : list string :=
  filter (fun key => JSString.startsWith key BACKUP_PREFIX) (JSMap.keys ls).

Definition cleanupOldBackups (ls : Storage) : Storage :=
  let backupKeys := rev (JSString.sort (backupKeysOf ls)) in
  fold_left (fun l key => JSMap.delete key l) (skipn 3 backupKeys) ls.

(** The [try] block of [createBackup]; [stringify] stands for
    [JSON.stringify] of the backup object built from the entries of
    [users], the time stamp and the user count.  [tryCreateBackup] below
    is the method with its [catch]. *)
Definition createBackup (stringify : JSMap.t User -> Z -> nat -> string)
    (now : Z) (s : Store) (ls : Storage) : Storage :=
  let backupData := stringify (users s) now (JSMap.size (users s)) in
  cleanupOldBackups (JSMap.set (backupKey now) backupData ls).

(* ================================================================== *)
(** ** Sequences of operations *)

(** The mutating methods of the store, and the rebuild of the indexes that
    the constructor runs when a page is loaded.  [importUsers] changes the
    store through [createUser] only, so a store that it reaches is reached
    by a sequence of [OpCreate]. *)
Inductive Op : Type :=
| OpCreate (userId : string) (now : Z) (userData : UserData)
| OpUpdate (userId : string) (updates : PartialUser)
| OpUpdateRole (userId newRole : string)
| OpDeactivate (userId : string)
| OpActivate (userId : string)
| OpLastLogin (userId : string) (now : Z)
| OpDelete (userId : string)
| OpBuildIndexes.

(** The store after one operation; an operation that throws leaves the
    store as it was when it threw. *)
Definition step (s : Store) (op : Op) : Store :=
  match op with
  | OpCreate userId now userData => snd (createUser userId now userData s)
  | OpUpdate userId updates => snd (updateUser userId updates s)
  | OpUpdateRole userId newRole => snd (updateUserRole userId newRole s)
  | OpDeactivate userId => snd (deactivateUser userId s)
  | OpActivate userId => snd (activateUser userId s)
  | OpLastLogin userId now => updateLastLogin userId now s
  | OpDelete userId => snd (deleteUser userId s)
  | OpBuildIndexes => buildIndexes s
  end.

Definition run (ops : list Op) (s : Store) : Store := fold_left step ops s.

(* ================================================================== *)
(** ** Properties of stores and of sequences of operations *)

(** [userId] is a member of the bucket of [key]; a missing bucket has no
    members. *)
Definition inBucket (index : JSMap.t JSSet.t) (key userId : string) : bool :=
  match JSMap.get key index with
  | Some bucket => JSSet.has userId bucket
  | None => false
  end.

(** Every operation of the sequence satisfies [ok] in the store it is
    applied to. *)
Fixpoint follows (ok : Store -> Op -> bool) (s : Store) (ops : list Op) : bool :=
  match ops with
  | [] => true
  | op :: rest => ok s op && follows ok (step s op) rest
  end.

(** [generateUserId] returns an identifier that is not in use. *)
Definition freshId (s : Store) (op : Op) : bool :=
  match op with
  | OpCreate userId _ _ => negb (JSMap.has userId (users s))
  | _ => true
  end.

(** The email is looked up in its normalized form before [createUser] is
    called, as [register] does through [findUserByEmail]. *)
Definition emailChecked (s : Store) (op : Op) : bool :=
  match op with
  | OpCreate _ _ userData =>
      negb (JSMap.has (normalizeEmail (d_email userData)) (emailIndex s))
  | _ => true
  end.

(** An email passed to [updateUser] is non-empty and already in the form
    that [createUser] stores. *)
Definition emailNormalized (s : Store) (op : Op) : bool :=
  match op with
  | OpUpdate _ updates =>
      match p_email updates with
      | Some e => negb (String.eqb e "") && String.eqb (normalizeEmail e) e
      | None => true
      end
  | _ => true
  end.

(** A role passed to [updateUser] is one of the strings of the type
    [User['role']], none of which is empty. *)
Definition roleTyped (s : Store) (op : Op) : bool :=
  match op with
  | OpUpdate _ updates =>
      match p_role updates with
      | Some r => negb (String.eqb r "")
      | None => true
      end
  | _ => true
  end.

(** [updateUser] is not used to change a name. *)
Definition nameKept (s : Store) (op : Op) : bool :=
  match op with
  | OpUpdate userId updates =>
      match p_name updates, JSMap.get userId (users s) with
      | Some n, Some user => String.eqb n (name user)
      | _, _ => true
      end
  | _ => true
  end.

Definition emailDiscipline (s : Store) (op : Op) : bool :=
  freshId s op && emailChecked s op && emailNormalized s op.

Definition roleDiscipline (s : Store) (op : Op) : bool :=
  freshId s op && roleTyped s op.

Definition indexDiscipline (s : Store) (op : Op) : bool :=
  freshId s op && roleTyped s op && nameKept s op.

(** The email index and the primary table agree in both directions. *)
Definition EmailAgree (s : Store) : Prop :=
  (forall e userId, JSMap.get e (emailIndex s) = Some userId ->
     exists user, JSMap.get userId (users s) = Some user
                  /\ normalizeEmail (email user) = e)
  /\ (forall userId user, JSMap.get userId (users s) = Some user ->
        JSMap.get (normalizeEmail (email user)) (emailIndex s) = Some userId).

(** Every record is in the bucket of its role and in no other. *)
Definition RolePartition (s : Store) : Prop :=
  forall userId user, JSMap.get userId (users s) = Some user ->
    forall r, inBucket (roleIndex s) r userId = true <-> r = role user.

(** Two indexes with the same members under every key. *)
Definition sameMembers (a b : JSMap.t JSSet.t) : Prop :=
  forall key userId, inBucket a key userId = inBucket b key userId.

(** The store with both derived indexes cleared. *)
Definition clearedIndexes (s : Store) : Store :=
  {| users := users s; emailIndex := emailIndex s;
     roleIndex := []; nameIndex := [] |}.

(** One step of the incremental path: [updateIndexes] for one entry of the
    primary table. *)
Definition rebuildStep (st : Store) (entry : string * User) : Store :=
  let '(userId, user) := entry in updateIndexes userId user st.

(** The match of one search term against the two indexes. *)
Definition matchesTerm (s : Store) (term userId : string) : Prop :=
  (exists token userIds, In (token, userIds) (nameIndex s)
      /\ JSString.includes token term = true /\ In userId userIds)
  \/ (exists e, In (e, userId) (emailIndex s)
      /\ JSString.includes e term = true).

Definition matchesTermb (s : Store) (term userId : string) : bool :=
  existsb (fun p => JSString.includes (fst p) term && JSSet.has userId (snd p))
          (nameIndex s)
  || existsb (fun p => JSString.includes (fst p) term && String.eqb (snd p) userId)
             (emailIndex s).

(** The average spend among only the users with at least one order, the
    denominator at least 1, as the specification words it. *)
Definition averageSpendAmongOrderers (us : list User) : Q :=
  sumSpent (filter hasOrders us)
  / inject_Z (Z.max (Z.of_nat (length (filter hasOrders us))) 1).

(** One creation per entry, all at the clock reading [now]. *)
Definition createAll (now : Z) (creates : list (string * UserData)) : list Op :=
  map (fun p => OpCreate (fst p) now (snd p)) creates.

(** A line of the import with fewer than three fields. *)
Definition shortLine (line : string) : bool :=
  (length (JSString.split ","%char line) <? 3)%nat.







(** [u] is [record] with its password taken away and every other field
    as it is. *)
Definition strippedOf (record u : User) : Prop :=
  password u = None
  /\ id u = id record /\ email u = email record /\ name u = name record
  /\ createdAt u = createdAt record /\ lastLogin u = lastLogin record
  /\ isActive u = isActive record /\ role u = role record
  /\ stats u = stats record.

(** *** Invariants used in the proofs *)

Definition UniqueKeys (s : Store) : Prop := NoDup (JSMap.keys (users s)).

Definition EmailInvOn (us : JSMap.t User) (idx : JSMap.t string) : Prop :=
  (forall e userId, JSMap.get e idx = Some userId ->
     exists user, JSMap.get userId us = Some user /\ email user = e)
  /\ (forall userId user, JSMap.get userId us = Some user ->
        JSMap.get (email user) idx = Some userId
        /\ normalizeEmail (email user) = email user).

Definition EmailInv (s : Store) : Prop := EmailInvOn (users s) (emailIndex s).

(** [attr user key] tells whether [user] belongs under [key]; the index
    holds exactly the identifiers of the records that belong there. *)
Definition IndexInvOn (attr : User -> string -> bool)
    (us : JSMap.t User) (idx : JSMap.t JSSet.t) : Prop :=
  forall key userId, inBucket idx key userId = true <->
    exists user, JSMap.get userId us = Some user /\ attr user key = true.

Definition hasRole (u : User) (r : string) : bool := String.eqb (role u) r.

Definition hasToken (u : User) (token : string) : bool :=
  JSSet.has token (nameTokens (name u)).

Definition RoleInv (s : Store) : Prop := IndexInvOn hasRole (users s) (roleIndex s).

Definition NameInv (s : Store) : Prop := IndexInvOn hasToken (users s) (nameIndex s).

(** The derived indexes hold what the primary table says, and the keys of
    the primary table are unique. *)
Definition Derived (s : Store) : Prop := UniqueKeys s /\ RoleInv s /\ NameInv s.

Definition NameCover (s : Store) : Prop :=
  forall userId user, JSMap.get userId (users s) = Some user ->
    exists token, inBucket (nameIndex s) token userId = true.

Definition headNotSpace (s : string) : bool :=
  match s with
  | EmptyString => true
  | String c _ => negb (JSString.is_ws c)
  end.

(** *** Sample data for the concrete runs *)

Definition sampleData (e n : string) (r : option string) : UserData :=
  {| d_email := e; d_name := n; d_password := "secret1"; d_role := r |}.

Definition emailUpdate (e : string) : PartialUser :=
  {| p_id := None; p_email := Some e; p_name := None; p_createdAt := None;
     p_lastLogin := None; p_isActive := None; p_role := None; p_stats := None |}.

Definition nameUpdate (n : string) : PartialUser :=
  {| p_id := None; p_email := None; p_name := Some n; p_createdAt := None;
     p_lastLogin := None; p_isActive := None; p_role := None; p_stats := None |}.

Definition roleUpdate (r : string) : PartialUser :=
  {| p_id := None; p_email := None; p_name := None; p_createdAt := None;
     p_lastLogin := None; p_isActive := None; p_role := Some r; p_stats := None |}.

Definition statsUpdate (st : UserStats) : PartialUser :=
  {| p_id := None; p_email := None; p_name := None; p_createdAt := None;
     p_lastLogin := None; p_isActive := None; p_role := None; p_stats := Some st |}.

(** A session that follows every discipline: three accounts, a change of
    email and of role, a login, a deactivation, a removal and a reload. *)
Definition sampleOps : list Op :=
  [ OpCreate "u1" 100 (sampleData "Anita@Example.com " "Anita Sharma" (Some "admin"));
    OpCreate "u2" 200 (sampleData "rohan@example.com" "Rohan Sharma" None);
    OpCreate "u3" 300 (sampleData "kavya@example.com" "Kavya Nair" (Some "moderator"));
    OpUpdate "u2" (emailUpdate "rohan.sharma@example.com");
    OpUpdate "u2" (roleUpdate "moderator");
    OpUpdateRole "u3" "user";
    OpLastLogin "u1" 400;
    OpDeactivate "u3";
    OpDelete "u1";
    OpBuildIndexes;
    OpActivate "u3" ].

(** The look-up that [importUsers] and [initializeDefaultUsers] make before
    they call [createUser]: the email as it is written, not normalized. *)
Definition emailLookedUp (s : Store) (op : Op) : bool :=
  match op with
  | OpCreate _ _ userData => negb (JSMap.has (d_email userData) (emailIndex s))
  | _ => true
  end.

(** Two creations with one email, the second written with capitals. *)
Definition duplicateOps : list Op :=
  [ OpCreate "u1" 100 (sampleData "anita@example.com" "Anita Sharma" None);
    OpCreate "u2" 200 (sampleData "Anita@Example.com" "Anita S" None) ].

(** After the duplicate, the first record is removed and a third account is
    created: the email of "u2" is no longer a key of the email index. *)
Definition unindexedOps : list Op :=
  duplicateOps
  ++ [ OpDelete "u1";
       OpCreate "u3" 300 (sampleData "rohan@example.com" "Rohan Sharma" None) ].

(** A creation followed by a change of role. *)
Definition roleChangeOps : list Op :=
  [ OpCreate "u1" 100 (sampleData "anita@example.com" "Anita Sharma" None);
    OpUpdateRole "u1" "admin" ].

(** An update that passes an email with capitals, then the removal of the
    record. *)
Definition capitalsOps : list Op :=
  [ OpCreate "u1" 100 (sampleData "anita@example.com" "Anita Sharma" None);
    OpUpdate "u1" (emailUpdate "Anita.Sharma@Example.com");
    OpDelete "u1" ].

(** A record with a blank email, and a second record. *)
Definition blankEmailOps : list Op :=
  [ OpCreate "u1" 100 (sampleData " " "Anita Sharma" None);
    OpCreate "u2" 200 (sampleData "rohan@example.com" "Rohan Sharma" None) ].

(** A creation followed by a change of name through [updateUser]. *)
Definition renameOps : list Op :=
  [ OpCreate "u1" 100 (sampleData "anita@example.com" "Anita Sharma" None);
    OpUpdate "u1" (nameUpdate "Anita Nair") ].

(** One user with a recorded spend and no order. *)
Definition spendOps : list Op :=
  [ OpCreate "u1" 100 (sampleData "anita@example.com" "Anita Sharma" None);
    OpUpdate "u1" (statsUpdate {| totalOrders := 0; totalSpent := 100;
                                  loyaltyPoints := 0 |}) ].

(** The identifier, email and name of the [n]-th generated account. *)
Definition sampleCreate (n : nat) : string * UserData :=
  (("user_" ++ JSString.string_of_nat n)%string,
   sampleData ("user" ++ JSString.string_of_nat n ++ "@example.com")%string
              ("User " ++ JSString.string_of_nat n)%string None).

(** A store filled to capacity by a thousand creations. *)
Definition fullStore : Store :=
  run (createAll 0 (map sampleCreate (seq 0 MAX_USERS))) emptyStore.

Definition tenCreates : list (string * UserData) := map sampleCreate (seq 0 10).

(** CSV texts: a header and three rows. *)
Definition csvLines (rows : list string) : string :=
  String.concat (String newline EmptyString) ("ID,Name,Email,Role" :: rows).

Definition quoted (s : string) : string :=
  String quote (s ++ String quote EmptyString).

(** The second row has an empty email field. *)
Definition csvEmptyEmail : string :=
  csvLines [ ("1," ++ quoted "Anita Sharma" ++ ",anita@example.com,admin")%string;
             ("2," ++ quoted "Rohan Sharma" ++ ",,user")%string;
             ("3," ++ quoted "Kavya Nair" ++ ",kavya@example.com,user")%string ].

(** The second row stops after the name: it has no email field at all. *)
Definition csvTruncated : string :=
  csvLines [ ("1," ++ quoted "Anita Sharma" ++ ",anita@example.com,admin")%string;
             ("2," ++ quoted "Rohan Sharma")%string;
             ("3," ++ quoted "Kavya Nair" ++ ",kavya@example.com,user")%string ].

(** Two rows with one email, the second written with capitals. *)
Definition csvCapitals : string :=
  csvLines [ "1,Anita Sharma,anita@example.com,user";
             "2,Anita S,Anita@Example.com,user" ].

Definition sampleGenId (i : nat) : string := ("user_" ++ JSString.string_of_nat i)%string.
Definition sampleClock (i : nat) : Z := 1000 + Z.of_nat i.

Definition sampleStringify (us : JSMap.t User) (now : Z) (count : nat) : string :=
  ("backup of " ++ JSString.string_of_nat count ++ " at " ++ JSString.string_of_Z now)%string.

Definition sampleStorage : Storage :=
  [("gearupsports_users_db_v2", "users"); ("gearupsports_db_indexes_v2", "indexes")].

(* ================================================================== *)
(** ** Further methods of the store *)

Definition getUsersCreatedInRange (startDate endDate : Z) (s : Store) : list User :=
  map withoutPassword
      (filter (fun u => (startDate <=? createdAt u)%Z && (createdAt u <=? endDate)%Z)
              (JSMap.values (users s))).

(** [user.lastLogin ? new Date(user.lastLogin) : new Date(user.createdAt)] *)
Definition lastActivity (u : User) : Z :=
  match lastLogin u with
  | Some t => t
  | None => createdAt u
  end.

Definition isStale (twoYearsAgo : Z) (u : User) : bool :=
  negb (isActive u) && (lastActivity u <? twoYearsAgo)%Z.

(** [twoYearsAgo] is the clock reading of the date two calendar years
    before now; the loop visits the entries that the table holds when it
    starts, and [deleteUser] removes the one it is called for only. *)
Definition cleanupOldData (twoYearsAgo : Z) (s : Store) : Store :=
  fold_left
    (fun st entry =>
       let '(userId, user) := entry in
       if isStale twoYearsAgo user then snd (deleteUser userId st) else st)
    (users s) s.

(** *** CSV export *)

Definition exportHeader : string :=
  "ID,Name,Email,Role,Created At,Last Login,Active,Total Orders,Total Spent".

(** [toISOString] gives the text of a time stamp and [numberToString] the
    text of an amount, as the records of the source hold and print them. *)
Definition exportLine (toISOString : Z -> string) (numberToString : Q -> string)
    (user : User) : string :=
  String.concat ","
    [ id user;
      quoted (name user);
      email user;
      role user;
      toISOString (createdAt user);
      match lastLogin user with Some t => toISOString t | None => "" end;
      if isActive user then "true" else "false";
      JSString.string_of_Z (ordersOf user);
      numberToString (spentOf user) ].

Definition exportUsers (toISOString : Z -> string) (numberToString : Q -> string)
    (s : Store) : string :=
  String.concat (String newline EmptyString)
    (exportHeader :: map (exportLine toISOString numberToString) (getAllUsers s)).

(** *** The accounts created by the constructor *)

Definition defaultUsers : list UserData :=
  [ {| d_email := "demo@gearupsports.com"; d_name := "Demo User";
       d_password := "demo123"; d_role := Some "user" |};
    {| d_email := "admin@gearupsports.com"; d_name := "Admin User";
       d_password := "admin123"; d_role := Some "admin" |};
    {| d_email := "moderator@gearupsports.com"; d_name := "Moderator User";
       d_password := "mod123"; d_role := Some "moderator" |} ].

(** [if (!this.emailIndex.has(userData.email)) this.createUser(userData)]
    for each entry; the [n]-th call of [createUser] obtains [genId n] and
    [clock n], and an error thrown by it ends the loop. *)
Fixpoint createMissing (genId : nat -> string) (clock : nat -> Z) (n : nat)
    (datas : list UserData) (s : Store) : Outcome unit * Store :=
  match datas with
  | [] => (Return tt, s)
  | userData :: rest =>
      if JSMap.has (d_email userData) (emailIndex s)
      then createMissing genId clock (S n) rest s
      else match createUser (genId n) (clock n) userData s with
           | (Return _, s') => createMissing genId clock (S n) rest s'
           | (Throw message, s') => (Throw message, s')
           end
  end.

Definition firstNames : list string :=
  ["Arjun"; "Priya"; "Rahul"; "Sneha"; "Vikram"; "Anita"; "Karan"; "Meera";
   "Rohan"; "Kavya"].

Definition lastNames : list string :=
  ["Sharma"; "Patel"; "Kumar"; "Singh"; "Gupta"; "Joshi"; "Reddy"; "Nair";
   "Agarwal"; "Mehta"].

Definition domains : list string :=
  ["gmail.com"; "yahoo.com"; "hotmail.com"; "outlook.com"].

(** [list[Math.floor(Math.random() * list.length)]], [r] standing for the
    random draw *)
Definition pick (l : list string) (r : nat) : string :=
  nth (r mod length l) l "".

(** The data of the [i]-th sample user; [random] gives the three draws of
    the iteration. *)
Definition sampleUser (random : nat -> nat) (i : nat) : UserData :=
  let firstName := pick firstNames (random (3 * i)%nat) in
  let lastName := pick lastNames (random (3 * i + 1)%nat) in
  {| d_email := (JSString.toLowerCase firstName ++ "."
                 ++ JSString.toLowerCase lastName ++ JSString.string_of_nat i
                 ++ "@" ++ pick domains (random (3 * i + 2)%nat))%string;
     d_name := (firstName ++ " " ++ lastName)%string;
     d_password := "user123";
     d_role := Some "user" |}.

Definition generateSampleUsers (random : nat -> nat)
    (genId : nat -> string) (clock : nat -> Z) (n count : nat) (s : Store)
  : Outcome unit * Store :=
  createMissing genId clock n (map (sampleUser random) (seq 0 count)) s.

(** The three default accounts, then 47 sample users. *)
Definition initializeDefaultUsers (random : nat -> nat)
    (genId : nat -> string) (clock : nat -> Z) (s : Store)
  : Outcome unit * Store :=
  match createMissing genId clock 0 defaultUsers s with
  | (Return _, s') => generateSampleUsers random genId clock 3 47 s'
  | (Throw message, s') => (Throw message, s')
  end.

(* ================================================================== *)
(** ** The session blob and the authentication provider *)

Definition CURRENT_USER_KEY : string := "gearupsports_current_user_v2".

(** The state of the provider: the store, the React state [user] and
    [localStorage]. *)
Record Auth := {
  db : Store;
  currentUser : option User;
  storage : Storage
}.

Record AuthResult := {
  success : bool;
  error : option string
}.

Definition succeeded : AuthResult := {| success := true; error := None |}.
Definition failed (message : string) : AuthResult :=
  {| success := false; error := Some message |}.

(** [/^[^\s@]+@[^\s@]+\.[^\s@]+$/.test(email)]: one [@], no white space, a
    non-empty part before the [@], and after it a dot that is neither the
    first nor the last character. *)
Definition noSpace (s : string) : bool :=
  forallb (fun c => negb (JSString.is_ws c)) (list_ascii_of_string s).

Fixpoint dropLast (s : string) : string :=
  match s with
  | EmptyString => EmptyString
  | String c EmptyString => EmptyString
  | String c r => String c (dropLast r)
  end.

Definition hasInnerDot (s : string) : bool :=
  match s with
  | EmptyString => false
  | String _ r => JSString.includes (dropLast r) "."
  end.

Definition validEmail (e : string) : bool :=
  match JSString.split "@" e with
  | [a; d] => negb (String.eqb a "") && noSpace a && noSpace d && hasInnerDot d
  | _ => false
  end.

Section Provider.

(** [JSON.stringify] of a user and [JSON.parse] of a blob; [Throw] is a
    blob that does not parse, [Return None] the blob of [null]. *)
Variable stringify : User -> string.
Variable parse : string -> Outcome (option User).

Definition saveCurrentUser (user : User) (ls : Storage) : Storage :=
  JSMap.set CURRENT_USER_KEY (stringify user) ls.

Definition getCurrentUser (ls : Storage) : option User * Storage :=
  match JSMap.get CURRENT_USER_KEY ls with
  | None => (None, ls)
  | Some stored =>
      if String.eqb stored "" then (None, ls)
      else match parse stored with
           | Return u => (u, ls)
           | Throw _ => (None, JSMap.delete CURRENT_USER_KEY ls)
           end
  end.

Definition clearCurrentUser (ls : Storage) : Storage :=
  JSMap.delete CURRENT_USER_KEY ls.

(** The effect of [checkSession], run when the provider is mounted. *)
Definition checkSession (a : Auth) : Auth :=
  match getCurrentUser (storage a) with
  | (Some savedUser, ls) =>
      match findUserById (id savedUser) (db a) with
      | Some user =>
          if isActive user
          then {| db := db a; currentUser := Some user; storage := ls |}
          else {| db := db a; currentUser := currentUser a;
                  storage := clearCurrentUser ls |}
      | None => {| db := db a; currentUser := currentUser a;
                   storage := clearCurrentUser ls |}
      end
  | (None, ls) => {| db := db a; currentUser := currentUser a; storage := ls |}
  end.

(** [foundUser] is the object of the table: after [updateLastLogin] it is
    read again under the key that the email index gave. *)
Definition login (now : Z) (e pw : string) (a : Auth) : AuthResult * Auth :=
  match findUserByEmail e (db a) with
  | None => (failed "Invalid email or password", a)
  | Some foundUser =>
      if negb (match password foundUser with
               | Some p => String.eqb p pw
               | None => false
               end)
      then (failed "Invalid email or password", a)
      else if negb (isActive foundUser)
      then (failed "Account is deactivated. Please contact support.", a)
      else
        let db1 := updateLastLogin (id foundUser) now (db a) in
        let foundUser1 := orElse (findUserByEmail e db1) foundUser in
        let userWithoutPassword := withoutPassword foundUser1 in
        (succeeded,
         {| db := db1;
            currentUser := Some userWithoutPassword;
            storage := saveCurrentUser userWithoutPassword (storage a) |})
  end.

(** [userId] and [now] are what [createUser] obtains if it is reached. *)
Definition register (userId : string) (now : Z) (n e pw : string) (a : Auth)
  : AuthResult * Auth :=
  match findUserByEmail e (db a) with
  | Some _ => (failed "An account with this email already exists", a)
  | None =>
      if String.eqb (JSString.trim n) "" then (failed "Name is required", a)
      else if String.eqb (JSString.trim e) "" || negb (validEmail e)
      then (failed "Please enter a valid email address", a)
      else if (String.length pw <? 6)%nat
      then (failed "Password must be at least 6 characters", a)
      else
        match createUser userId now
                {| d_email := e; d_name := n; d_password := pw;
                   d_role := Some "user" |} (db a) with
        | (Return newUser, db1) =>
            (succeeded,
             {| db := db1;
                currentUser := Some newUser;
                storage := saveCurrentUser newUser (storage a) |})
        | (Throw message, db1) =>
            (failed message,
             {| db := db1; currentUser := currentUser a; storage := storage a |})
        end
  end.


Definition updateProfile (updates : PartialUser) (a : Auth) : AuthResult * Auth :=
  match currentUser a with
  | None => (failed "Not authenticated", a)
  | Some user =>
      match updateUser (id user) updates (db a) with
      | (Return None, db1) =>
          (failed "User not found",
           {| db := db1; currentUser := currentUser a; storage := storage a |})
      | (Return (Some updatedUser), db1) =>
          (succeeded,
           {| db := db1;
              currentUser := Some updatedUser;
              storage := saveCurrentUser updatedUser (storage a) |})
      | (Throw message, db1) =>
          (failed message,
           {| db := db1; currentUser := currentUser a; storage := storage a |})
      end
  end.

End Provider.

(** *** Predicates used in the statements *)

(** [s] does not contain the character [c]. *)
Definition lacks (c : ascii) (s : string) : bool :=
  forallb (fun x => negb (Ascii.eqb x c)) (list_ascii_of_string s).


(** *** Sample data for the provider *)

(** A codec for the session blob: the blob names the user, and reading
    looks the name up among the users in [known]; other blobs do not
    parse. *)
Definition sampleBlob (u : User) : string := ("user:" ++ id u)%string.

Definition sampleParse (known : list User) (blob : string) : Outcome (option User) :=
  match find (fun u => String.eqb (sampleBlob u) blob) known with
  | Some u => Return (Some u)
  | None => Throw "Unexpected token"
  end.

(** The provider over the store of [sampleOps], with nobody logged in. *)
Definition sampleAuth : Auth :=
  {| db := run sampleOps emptyStore; currentUser := None; storage := sampleStorage |}.

(** The record under ["u2"] in that store. *)
Definition rohan : User :=
  merge (merge (newUser "u2" 200 (sampleData "rohan@example.com" "Rohan Sharma" None))
               (emailUpdate "rohan.sharma@example.com"))
        (roleUpdate "moderator").

(** The record under ["u3"] as it was created. *)
Definition kavya : User :=
  newUser "u3" 300 (sampleData "kavya@example.com" "Kavya Nair" (Some "moderator")).

(** A string of characters that are neither white space nor capitals. *)
Definition plainChar (c : ascii) : bool :=
  negb (JSString.is_ws c) && Ascii.eqb (JSString.lower_ascii c) c.

Definition plain (s : string) : bool :=
  forallb plainChar (list_ascii_of_string s).

(** The entries that [initializeDefaultUsers] goes through. *)
Definition initialData (random : nat -> nat) : list UserData :=
  (defaultUsers ++ map (sampleUser random) (seq 0 47))%list.

Definition allIndexed (datas : list UserData) (s : Store) : bool :=
  forallb (fun d => JSMap.has (d_email d) (emailIndex s)) datas.

(** Sample draws, identifiers and clock for the initialisation. *)
Definition sampleRandom (k : nat) : nat := (7 * k + 3)%nat.

(** *** Containment and the terms of a query *)

(** [t] is contained in [s]: [s] is some characters, then [t], then some
    characters. *)
Definition Contains (s t : string) : Prop :=
  exists p q, s = (p ++ t ++ q)%string.

(** [terms] are the terms that single spaces delimit in [q]: joined with
    one space between neighbours they give [q], and none of them holds a
    space.  Two spaces in a row, or a space at either end, delimit an
    empty term. *)
Definition TermsOf (q : string) (terms : list string) : Prop :=
  terms <> []
  /\ Forall (fun t => ~ Contains t " ") terms
  /\ String.concat " " terms = q.

(** A term reaches an identifier through an entry of the name-token index
    whose key contains the term and whose bucket holds the identifier, or
    through an entry of the email index whose key contains the term and
    whose value is the identifier. *)
Definition reaches (s : Store) (term userId : string) : Prop :=
  (exists token userIds, In (token, userIds) (nameIndex s)
      /\ Contains token term /\ In userId userIds)
  \/ (exists e, In (e, userId) (emailIndex s) /\ Contains e term).

(** The reading of the search with terms delimited by white space: the
    terms are the maximal runs of characters that are not white space, and
    a record is returned when a token of its name or its email contains one
    of them. *)
Fixpoint whitespaceTermsFrom (current : string) (s : string) : list string :=
  match s with
  | EmptyString => if String.eqb current "" then [] else [current]
  | String c r =>
      if JSString.is_ws c
      then (if String.eqb current "" then whitespaceTermsFrom "" r
            else current :: whitespaceTermsFrom "" r)
      else whitespaceTermsFrom (current ++ String c "") r
  end.

Definition whitespaceTerms (s : string) : list string := whitespaceTermsFrom "" s.

Definition searchByWhitespace (query : string) (s : Store) : list User :=
  filter
    (fun u =>
       existsb
         (fun term =>
            existsb (fun token => JSString.includes token term) (nameTokens (name u))
            || JSString.includes (email u) term)
         (whitespaceTerms (JSString.toLowerCase query)))
    (getAllUsers s).

(** Three accounts for the search. *)
Definition searchOps : list Op :=
  [ OpCreate "u1" 100 (sampleData "anita@example.com" "Anita Sharma" None);
    OpCreate "u2" 200 (sampleData "rohan@example.com" "Rohan Sharma" None);
    OpCreate "u3" 300 (sampleData "kavya@example.com" "Kavya Nair" None) ].

(** *** The backup with its [try], and the most recent readings *)







(* ================================================================== *)
(** ** The methods with their write to [localStorage]

    Every mutating method ends with [saveToStorage].  When one of its two
    calls of [setItem] throws, its catch block runs [cleanupOldData], which
    removes records through [deleteUser], itself ending with
    [saveToStorage].  The definitions above are the methods up to that
    call; the module [Persisted] gives them with it. *)

(** The store together with the number of attempts made so far to write
    it. *)
Record Db := {
  store : Store;
  writes : nat
}.

Definition withStore (s : Store) (d : Db) : Db :=
  {| store := s; writes := writes d |}.

(** One more attempt has been made. *)
Definition attempted (d : Db) : Db :=
  {| store := store d; writes := S (writes d) |}.

(** What a clean-up can do: [d'] holds no record that [d] does not hold,
    it holds every active record of [d], its email index maps no email
    that the one of [d] does not map to the same identifier, and no attempt
    to write is forgotten. *)
Definition Shrinks (d d' : Db) : Prop :=
  (forall userId user,
     JSMap.get userId (users (store d')) = Some user ->
     JSMap.get userId (users (store d)) = Some user)
  /\ (forall userId user,
        JSMap.get userId (users (store d)) = Some user -> isActive user = true ->
        JSMap.get userId (users (store d')) = Some user)
  /\ (JSMap.size (users (store d')) <= JSMap.size (users (store d)))%nat
  /\ (writes d <= writes d')%nat
  /\ (forall e userId,
        JSMap.get e (emailIndex (store d')) = Some userId ->
        JSMap.get e (emailIndex (store d)) = Some userId).

Module Persisted.
Section Quota.

(** [quota n] is the outcome of the attempt number [n] to write the two
    blobs: [None] when both calls of [setItem] return, [Some twoYearsAgo]
    when one of them throws, [twoYearsAgo] being the date that the
    [cleanupOldData] of the catch block then computes from the clock. *)
Variable quota : nat -> option Z.

(** [deleteUser], ending with the method [save]; in its body, as in the
    bodies of the methods below, the name of a method stands for its part
    up to the write, defined above. *)
Definition deleteUserWith (save : Db -> Db) (userId : string) (d : Db) : bool * Db :=
  match JSMap.get userId (users (store d)) with
  | None => (false, d)
  | Some _ => (true, save (withStore (snd (deleteUser userId (store d))) d))
  end.

(** [cleanupOldData], calling the method [delete]: the loop goes through
    the keys of the table and reads each entry as it is when the loop
    reaches it; an entry that a removal took away in between is not
    visited. *)
Definition cleanupOldDataWith (delete : string -> Db -> Db) (twoYearsAgo : Z)
    (d : Db) : Db :=
  fold_left
    (fun d' userId =>
       match JSMap.get userId (users (store d')) with
       | Some user => if isStale twoYearsAgo user then delete userId d' else d'
       | None => d'
       end)
    (JSMap.keys (users (store d))) d.

(** [saveToStorage] with at most [fuel] nested clean-ups.  A table with
    more than [MAX_USERS] records is not written at all. *)
Fixpoint saveToStorageWithin (fuel : nat) (d : Db) : Db :=
  if (MAX_USERS <? JSMap.size (users (store d)))%nat then d
  else
    match quota (writes d) with
    | None => attempted d
    | Some twoYearsAgo =>
        match fuel with
        | O => attempted d
        | S fuel' =>
            cleanupOldDataWith
              (fun userId d' =>
                 snd (deleteUserWith (saveToStorageWithin fuel') userId d'))
              twoYearsAgo (attempted d)
        end
    end.

(** Each nested clean-up follows the removal of a record, so that there
    are no more of them than records. *)
Definition saveToStorage (d : Db) : Db :=
  saveToStorageWithin (S (JSMap.size (users (store d)))) d.

Definition deleteUser (userId : string) (d : Db) : bool * Db :=
  deleteUserWith saveToStorage userId d.

Definition cleanupOldData (twoYearsAgo : Z) (d : Db) : Db :=
  cleanupOldDataWith (fun userId d' => snd (deleteUser userId d')) twoYearsAgo d.

Definition createUser (userId : string) (now : Z) (userData : UserData) (d : Db)
  : Outcome User * Db :=
  match createUser userId now userData (store d) with
  | (Return user, s') => (Return user, saveToStorage (withStore s' d))
  | (Throw message, _) => (Throw message, d)
  end.

Definition updateUser (userId : string) (updates : PartialUser) (d : Db)
  : Outcome (option User) * Db :=
  match updateUser userId updates (store d) with
  | (Return (Some updatedUser), s') =>
      (Return (Some updatedUser), saveToStorage (withStore s' d))
  | (Return None, _) => (Return None, d)
  | (Throw message, _) => (Throw message, d)
  end.

Definition updateUserRole (userId newRole : string) (d : Db) : bool * Db :=
  match updateUserRole userId newRole (store d) with
  | (true, s') => (true, saveToStorage (withStore s' d))
  | (false, _) => (false, d)
  end.

Definition deactivateUser (userId : string) (d : Db) : bool * Db :=
  match deactivateUser userId (store d) with
  | (true, s') => (true, saveToStorage (withStore s' d))
  | (false, _) => (false, d)
  end.

Definition activateUser (userId : string) (d : Db) : bool * Db :=
  match activateUser userId (store d) with
  | (true, s') => (true, saveToStorage (withStore s' d))
  | (false, _) => (false, d)
  end.

Definition updateLastLogin (userId : string) (now : Z) (d : Db) : Db :=
  match JSMap.get userId (users (store d)) with
  | Some _ => saveToStorage (withStore (updateLastLogin userId now (store d)) d)
  | None => d
  end.

(** *** Import and initialisation *)

Definition importLine (genId : nat -> string) (clock : nat -> Z)
    (i : nat) (line : string) (acc : Db * ImportResult) : Db * ImportResult :=
  let '(d, r) := acc in
  let values := JSString.split ","%char line in
  if (length values <? 3)%nat then acc
  else
    let e := JSString.removeAll quote (nth 2 values "") in
    let n := JSString.removeAll quote (nth 1 values "") in
    if String.eqb e "" || String.eqb n "" then
      (d, {| imported := imported r;
             errors := errors r ++ [(lineLabel i ++ "Missing required fields")%string] |})
    else if JSMap.has e (emailIndex (store d)) then
      (d, {| imported := imported r;
             errors := errors r ++ [(lineLabel i ++ "Email " ++ e ++ " already exists")%string] |})
    else
      let r3 := match nth_error values 3 with
                | Some x => if String.eqb x "" then "user" else x
                | None => "user"
                end in
      match createUser (genId i) (clock i)
              {| d_email := e; d_name := n; d_password := "imported123";
                 d_role := Some r3 |} d with
      | (Return _, d') =>
          (d', {| imported := imported r + 1; errors := errors r |})
      | (Throw message, d') =>
          (d', {| imported := imported r;
                  errors := errors r ++ [(lineLabel i ++ message)%string] |})
      end.

Fixpoint importLines (genId : nat -> string) (clock : nat -> Z)
    (i : nat) (lines : list string) (acc : Db * ImportResult) : Db * ImportResult :=
  match lines with
  | [] => acc
  | line :: rest =>
      importLines genId clock (S i) rest (importLine genId clock i line acc)
  end.

Definition importUsers (genId : nat -> string) (clock : nat -> Z)
    (csvData : string) (d : Db) : ImportResult * Db :=
  let lines := JSString.split newline csvData in
  let '(d', r) := importLines genId clock 1 (tl lines)
                    (d, {| imported := 0; errors := [] |}) in
  (r, d').

Fixpoint createMissing (genId : nat -> string) (clock : nat -> Z) (n : nat)
    (datas : list UserData) (d : Db) : Outcome unit * Db :=
  match datas with
  | [] => (Return tt, d)
  | userData :: rest =>
      if JSMap.has (d_email userData) (emailIndex (store d))
      then createMissing genId clock (S n) rest d
      else match createUser (genId n) (clock n) userData d with
           | (Return _, d') => createMissing genId clock (S n) rest d'
           | (Throw message, d') => (Throw message, d')
           end
  end.

Definition generateSampleUsers (random : nat -> nat)
    (genId : nat -> string) (clock : nat -> Z) (n count : nat) (d : Db)
  : Outcome unit * Db :=
  createMissing genId clock n (map (sampleUser random) (seq 0 count)) d.

Definition initializeDefaultUsers (random : nat -> nat)
    (genId : nat -> string) (clock : nat -> Z) (d : Db) : Outcome unit * Db :=
  match createMissing genId clock 0 defaultUsers d with
  | (Return _, d') => generateSampleUsers random genId clock 3 47 d'
  | (Throw message, d') => (Throw message, d')
  end.

(** *** The provider *)

Record Auth := {
  db : Db;
  currentUser : option User;
  storage : Storage
}.

Variable stringify : User -> string.

(** [saveCurrentUser] with its [try]: [stored] tells whether [setItem]
    returns.  When it throws, the catch block logs the error and the
    storage is as it was. *)
Definition trySaveCurrentUser (stored : bool) (user : User) (ls : Storage) : Storage :=
  if stored then saveCurrentUser stringify user ls else ls.

(** [foundUser] is the object that the table holds under the key that the
    email index gave; [updateLastLogin] writes the time of the login into
    the object under [foundUser.id], which is the same object exactly when
    the two keys are the same. *)
Definition login (stored : bool) (now : Z) (e pw : string) (a : Auth)
  : AuthResult * Auth :=
  match findUserByEmail e (store (db a)) with
  | None => (failed "Invalid email or password", a)
  | Some foundUser =>
      if negb (match password foundUser with
               | Some p => String.eqb p pw
               | None => false
               end)
      then (failed "Invalid email or password", a)
      else if negb (isActive foundUser)
      then (failed "Account is deactivated. Please contact support.", a)
      else
        let db1 := updateLastLogin (id foundUser) now (db a) in
        let sameObject :=
          match JSMap.get (normalizeEmail e) (emailIndex (store (db a))) with
          | Some key => String.eqb key (id foundUser)
          | None => false
          end in
        let foundUser1 := if sameObject then setLastLogin now foundUser
                          else foundUser in
        let userWithoutPassword := withoutPassword foundUser1 in
        (succeeded,
         {| db := db1;
            currentUser := Some userWithoutPassword;
            storage := trySaveCurrentUser stored userWithoutPassword (storage a) |})
  end.

Definition register (stored : bool) (userId : string) (now : Z) (n e pw : string)
    (a : Auth) : AuthResult * Auth :=
  match findUserByEmail e (store (db a)) with
  | Some _ => (failed "An account with this email already exists", a)
  | None =>
      if String.eqb (JSString.trim n) "" then (failed "Name is required", a)
      else if String.eqb (JSString.trim e) "" || negb (validEmail e)
      then (failed "Please enter a valid email address", a)
      else if (String.length pw <? 6)%nat
      then (failed "Password must be at least 6 characters", a)
      else
        match createUser userId now
                {| d_email := e; d_name := n; d_password := pw;
                   d_role := Some "user" |} (db a) with
        | (Return newUser, db1) =>
            (succeeded,
             {| db := db1;
                currentUser := Some newUser;
                storage := trySaveCurrentUser stored newUser (storage a) |})
        | (Throw message, db1) =>
            (failed message,
             {| db := db1; currentUser := currentUser a; storage := storage a |})
        end
  end.

Definition updateProfile (stored : bool) (updates : PartialUser) (a : Auth)
  : AuthResult * Auth :=
  match currentUser a with
  | None => (failed "Not authenticated", a)
  | Some user =>
      match updateUser (id user) updates (db a) with
      | (Return None, db1) =>
          (failed "User not found",
           {| db := db1; currentUser := currentUser a; storage := storage a |})
      | (Return (Some updatedUser), db1) =>
          (succeeded,
           {| db := db1;
              currentUser := Some updatedUser;
              storage := trySaveCurrentUser stored updatedUser (storage a) |})
      | (Throw message, db1) =>
          (failed message,
           {| db := db1; currentUser := currentUser a; storage := storage a |})
      end
  end.

(** *** Sequences of operations *)

(** The store after one operation with its write; the rebuild of the
    indexes writes nothing. *)
Definition step (d : Db) (op : Op) : Db :=
  match op with
  | OpCreate userId now userData => snd (createUser userId now userData d)
  | OpUpdate userId updates => snd (updateUser userId updates d)
  | OpUpdateRole userId newRole => snd (updateUserRole userId newRole d)
  | OpDeactivate userId => snd (deactivateUser userId d)
  | OpActivate userId => snd (activateUser userId d)
  | OpLastLogin userId now => updateLastLogin userId now d
  | OpDelete userId => snd (deleteUser userId d)
  | OpBuildIndexes => withStore (buildIndexes (store d)) d
  end.

Definition run (ops : list Op) (d : Db) : Db := fold_left step ops d.

(** Every operation of the sequence satisfies [ok] in the store it is
    applied to. *)
Fixpoint follows (ok : Store -> Op -> bool) (d : Db) (ops : list Op) : bool :=
  match ops with
  | [] => true
  | op :: rest => ok (store d) op && follows ok (step d op) rest
  end.

End Quota.
End Persisted.

(** *** Sample data for the writes *)

(** Every write succeeds. *)
Definition roomy : nat -> option Z := fun _ => None.

(** The first attempt to write fails, at a time whose date two years
    before is [1000]; the later ones succeed. *)
Definition fullOnce : nat -> option Z :=
  fun n => if (n =? 0)%nat then Some 1000%Z else None.

(** An identifier per index, of a length that tells the index. *)
Definition tallyId (i : nat) : string :=
  string_of_list_ascii (repeat "i"%char (S i)).

(** *** The export read back *)

(** What the import reads from the line of a record: the email, the name
    and the role; the password is that of imported users. *)
Definition reimportData (u : User) : UserData :=
  {| d_email := email u; d_name := name u; d_password := "imported123";
     d_role := Some (if String.eqb (role u) "" then "user" else role u) |}.

(** One creation per exported record, the first for the line of index
    [i]. *)
Fixpoint reimportOps (genId : nat -> string) (clock : nat -> Z) (i : nat)
    (us : list User) : list Op :=
  match us with
  | [] => []
  | u :: rest =>
      OpCreate (genId i) (clock i) (reimportData u)
      :: reimportOps genId clock (S i) rest
  end.

(** A record whose line can be read back: no field of the line holds a
    line feed, the first four hold no comma, the name and the email hold
    no double quote and are not empty. *)
Definition exportable (toISOString : Z -> string) (numberToString : Q -> string)
    (u : User) : bool :=
  lacks newline (id u) && lacks newline (name u) && lacks newline (email u)
  && lacks newline (role u)
  && lacks newline (toISOString (createdAt u))
  && lacks newline (match lastLogin u with Some t => toISOString t | None => "" end)
  && lacks newline (numberToString (spentOf u))
  && lacks "," (id u) && lacks "," (name u) && lacks "," (email u)
  && lacks "," (role u)
  && lacks quote (name u) && lacks quote (email u)
  && negb (String.eqb (name u) "") && negb (String.eqb (email u) "").

(* ================================================================== *)
(** ** Facts about sets and maps *)

Ltac eqb_cases x y :=
  let E := fresh "E" in
  destruct (String.eqb_spec x y) as [E | E]; [try subst | idtac].

Module JSSetFacts.

Lemma has_In x s : JSSet.has x s = true <-> In x s.
Proof.
  unfold JSSet.has. rewrite existsb_exists. split.
  - intros [y [Hy E]]. apply String.eqb_eq in E. now subst.
  - intros H. exists x. split; [assumption | apply String.eqb_refl].
Qed.

Lemma has_app x s1 s2 : JSSet.has x (s1 ++ s2) = JSSet.has x s1 || JSSet.has x s2.
Proof. unfold JSSet.has. apply existsb_app. Qed.

Lemma has_add x y s : JSSet.has x (JSSet.add y s) = JSSet.has x s || String.eqb y x.
Proof.
  unfold JSSet.add. destruct (JSSet.has y s) eqn:Hy.
  - eqb_cases y x; [now rewrite Hy | now rewrite orb_false_r].
  - rewrite has_app. simpl. now rewrite orb_false_r, (String.eqb_sym x y).
Qed.

Lemma has_after_delete x y s :
  JSSet.has x (JSSet.delete y s) = JSSet.has x s && negb (String.eqb y x).
Proof.
  unfold JSSet.delete, JSSet.has. induction s as [| z s IH]; simpl.
  - reflexivity.
  - eqb_cases z y; simpl.
    + rewrite IH. eqb_cases x y; simpl.
      * now rewrite String.eqb_refl, andb_false_r.
      * rewrite (proj2 (String.eqb_neq y x)) by congruence. reflexivity.
    + rewrite IH. eqb_cases x z; simpl.
      * rewrite (proj2 (String.eqb_neq y z)) by congruence. reflexivity.
      * reflexivity.
Qed.

Lemma add_NoDup y s : NoDup s -> NoDup (JSSet.add y s).
Proof.
  intros H. unfold JSSet.add. destruct (JSSet.has y s) eqn:Hy; [assumption |].
  apply NoDup_app; [assumption | repeat constructor; intros [] | ].
  intros a Ha [<- | []]. apply has_In in Ha. congruence.
Qed.

End JSSetFacts.

Module JSMapFacts.

Section Facts.
Context {V : Type}.
Implicit Types (m : JSMap.t V) (k : string) (v : V).

Lemma get_set k k' v m :
  JSMap.get k' (JSMap.set k v m) =
  if String.eqb k k' then Some v else JSMap.get k' m.
Proof.
  induction m as [| [k0 v0] m IH]; simpl.
  - reflexivity.
  - eqb_cases k0 k; simpl.
    + destruct (String.eqb k k'); reflexivity.
    + rewrite IH. eqb_cases k0 k'; [| reflexivity].
      rewrite (proj2 (String.eqb_neq k k')) by congruence. reflexivity.
Qed.

Lemma get_delete k k' m :
  JSMap.get k' (JSMap.delete k m) =
  if String.eqb k k' then None else JSMap.get k' m.
Proof.
  unfold JSMap.delete. induction m as [| [k0 v0] m IH]; simpl.
  - now destruct (String.eqb k k').
  - eqb_cases k0 k; simpl.
    + rewrite IH. eqb_cases k k'; [reflexivity |].
      reflexivity.
    + rewrite IH. eqb_cases k0 k'; [| reflexivity].
      rewrite (proj2 (String.eqb_neq k k')) by congruence. reflexivity.
Qed.

Lemma has_set k k' v m :
  JSMap.has k' (JSMap.set k v m) = String.eqb k k' || JSMap.has k' m.
Proof. unfold JSMap.has. rewrite get_set. now destruct (String.eqb k k'). Qed.

Lemma has_delete k k' m :
  JSMap.has k' (JSMap.delete k m) = negb (String.eqb k k') && JSMap.has k' m.
Proof. unfold JSMap.has. rewrite get_delete. now destruct (String.eqb k k'). Qed.

Lemma get_In k v m : JSMap.get k m = Some v -> In (k, v) m.
Proof.
  induction m as [| [k0 v0] m IH]; simpl; [discriminate |].
  eqb_cases k0 k.
  - intros [= ->]. now left.
  - intros H. right. auto.
Qed.

Lemma get_None_keys k m : JSMap.get k m = None <-> ~ In k (JSMap.keys m).
Proof.
  induction m as [| [k0 v0] m IH]; simpl.
  - tauto.
  - eqb_cases k0 k.
    + split; [discriminate | intros H; exfalso; apply H; now left].
    + rewrite IH. tauto.
Qed.

Lemma In_get k v m : NoDup (JSMap.keys m) -> In (k, v) m -> JSMap.get k m = Some v.
Proof.
  induction m as [| [k0 v0] m IH]; simpl; [tauto |].
  intros Hnd. inversion Hnd as [| ? ? Hnot Hnd']; subst.
  intros [[= -> ->] | Hin].
  - now rewrite String.eqb_refl.
  - eqb_cases k0 k.
    + exfalso. apply Hnot. change k with (fst (k, v)). now apply in_map.
    + auto.
Qed.

Lemma keys_set k v m :
  JSMap.keys (JSMap.set k v m) =
  if JSMap.has k m then JSMap.keys m else JSMap.keys m ++ [k].
Proof.
  unfold JSMap.has. induction m as [| [k0 v0] m IH]; simpl.
  - reflexivity.
  - eqb_cases k0 k; simpl; [reflexivity |].
    rewrite IH. now destruct (JSMap.get k m).
Qed.

Lemma keys_delete k m :
  JSMap.keys (JSMap.delete k m) =
  filter (fun x => negb (String.eqb x k)) (JSMap.keys m).
Proof.
  unfold JSMap.delete, JSMap.keys. induction m as [| [k0 v0] m IH]; simpl.
  - reflexivity.
  - destruct (String.eqb k0 k); simpl; now rewrite IH.
Qed.

Lemma set_NoDup k v m : NoDup (JSMap.keys m) -> NoDup (JSMap.keys (JSMap.set k v m)).
Proof.
  intros H. rewrite keys_set. destruct (JSMap.has k m) eqn:Hk; [assumption |].
  apply NoDup_app; [assumption | repeat constructor; intros [] |].
  intros a Ha [<- | []]. unfold JSMap.has in Hk.
  destruct (JSMap.get k m) eqn:G; [discriminate |].
  now apply get_None_keys in G.
Qed.

Lemma delete_NoDup k m : NoDup (JSMap.keys m) -> NoDup (JSMap.keys (JSMap.delete k m)).
Proof. intros H. rewrite keys_delete. now apply NoDup_filter. Qed.

Lemma size_set_new k v m :
  JSMap.has k m = false -> JSMap.size (JSMap.set k v m) = S (JSMap.size m).
Proof.
  unfold JSMap.has, JSMap.size. induction m as [| [k0 v0] m IH]; simpl.
  - reflexivity.
  - eqb_cases k0 k; [discriminate |]. intros H. simpl. now rewrite IH.
Qed.

Lemma set_new k v m : JSMap.has k m = false -> JSMap.set k v m = m ++ [(k, v)].
Proof.
  unfold JSMap.has. induction m as [| [k0 v0] m IH]; simpl.
  - reflexivity.
  - eqb_cases k0 k; [discriminate |]. intros H. now rewrite IH.
Qed.

End Facts.

End JSMapFacts.

(** *** Membership in the buckets of an index *)

Module IndexFacts.
Import JSMapFacts JSSetFacts.

Lemma inBucket_add idx k i k' i' :
  inBucket (addToIndex k i idx) k' i' =
  inBucket idx k' i' || (String.eqb k k' && String.eqb i i').
Proof.
  unfold addToIndex, inBucket.
  destruct (JSMap.has k idx) eqn:Hk; unfold JSMap.has in Hk.
  - destruct (JSMap.get k idx) as [b |] eqn:G; [| discriminate].
    rewrite get_set. eqb_cases k k'.
    + rewrite G, has_add. reflexivity.
    + now rewrite orb_false_r.
  - destruct (JSMap.get k idx) eqn:G; [discriminate |].
    rewrite get_set, String.eqb_refl, get_set.
    eqb_cases k k'.
    + rewrite G, has_add. reflexivity.
    + rewrite get_set. rewrite (proj2 (String.eqb_neq k k')) by assumption.
      now rewrite orb_false_r.
Qed.

Lemma inBucket_remove idx k i k' i' :
  inBucket (removeFromIndex k i idx) k' i' =
  inBucket idx k' i' && negb (String.eqb k k' && String.eqb i i').
Proof.
  unfold removeFromIndex, inBucket.
  destruct (JSMap.get k idx) as [b |] eqn:G.
  - rewrite get_set. eqb_cases k k'.
    + rewrite G, has_after_delete. reflexivity.
    + now rewrite andb_true_r.
  - eqb_cases k k'; [now rewrite G | now rewrite andb_true_r].
Qed.

Lemma inBucket_removeToken idx k i k' i' :
  inBucket (removeToken i idx k) k' i' =
  inBucket idx k' i' && negb (String.eqb k k' && String.eqb i i').
Proof.
  unfold removeToken, inBucket.
  destruct (JSMap.get k idx) as [b |] eqn:G.
  - destruct (Nat.eqb_spec (JSSet.size (JSSet.delete i b)) 0) as [Z | Z].
    + rewrite get_delete. eqb_cases k k'.
      * rewrite G. simpl.
        destruct (JSSet.has i' b) eqn:Hb; [| reflexivity].
        eqb_cases i i'; [reflexivity |].
        assert (H : JSSet.has i' (JSSet.delete i b) = true).
        { rewrite has_after_delete, Hb.
          now rewrite (proj2 (String.eqb_neq i i')) by assumption. }
        apply length_zero_iff_nil in Z. rewrite Z in H. discriminate.
      * now rewrite andb_true_r.
    + rewrite get_set. eqb_cases k k'.
      * rewrite G, has_after_delete. reflexivity.
      * now rewrite andb_true_r.
  - eqb_cases k k'; [now rewrite G | now rewrite andb_true_r].
Qed.

Lemma inBucket_add_tokens tokens i idx k' i' :
  inBucket (fold_left (fun x token => addToIndex token i x) tokens idx) k' i' =
  inBucket idx k' i' || (JSSet.has k' tokens && String.eqb i i').
Proof.
  revert idx. induction tokens as [| t tokens IH]; intros idx; simpl.
  - now rewrite orb_false_r.
  - rewrite IH, inBucket_add. rewrite (String.eqb_sym k' t).
    destruct (inBucket idx k' i'), (String.eqb t k'), (String.eqb i i'),
      (JSSet.has k' tokens); reflexivity.
Qed.

Lemma inBucket_remove_tokens tokens i idx k' i' :
  inBucket (fold_left (removeToken i) tokens idx) k' i' =
  inBucket idx k' i' && negb (JSSet.has k' tokens && String.eqb i i').
Proof.
  revert idx. induction tokens as [| t tokens IH]; intros idx; simpl.
  - now rewrite andb_true_r.
  - rewrite IH, inBucket_removeToken. rewrite (String.eqb_sym k' t).
    destruct (inBucket idx k' i'), (String.eqb t k'), (String.eqb i i'),
      (JSSet.has k' tokens); reflexivity.
Qed.

Lemma inBucket_nil k i : inBucket [] k i = false.
Proof. reflexivity. Qed.

End IndexFacts.

(* ================================================================== *)
(** ** Facts about the string primitives *)

Module JSStringFacts.
Import JSString.

Lemma lower_ascii_idem c : lower_ascii (lower_ascii c) = lower_ascii c.
Proof. destruct c as [[] [] [] [] [] [] [] []]; reflexivity. Qed.

Lemma is_ws_lower c : is_ws (lower_ascii c) = is_ws c.
Proof. destruct c as [[] [] [] [] [] [] [] []]; reflexivity. Qed.

Lemma toLowerCase_idem s : toLowerCase (toLowerCase s) = toLowerCase s.
Proof. induction s; simpl; [reflexivity | now rewrite lower_ascii_idem, IHs]. Qed.

Lemma toLowerCase_trimStart s : toLowerCase (trimStart s) = trimStart (toLowerCase s).
Proof.
  induction s as [| c r IH]; simpl; [reflexivity |].
  rewrite is_ws_lower. now destruct (is_ws c).
Qed.

Lemma toLowerCase_trimEnd s : toLowerCase (trimEnd s) = trimEnd (toLowerCase s).
Proof.
  induction s as [| c r IH]; simpl; [reflexivity |].
  rewrite <- IH, is_ws_lower.
  destruct (trimEnd r); simpl; [now destruct (is_ws c) | reflexivity].
Qed.

Lemma toLowerCase_trim s : toLowerCase (trim s) = trim (toLowerCase s).
Proof. unfold trim. now rewrite toLowerCase_trimEnd, toLowerCase_trimStart. Qed.

Lemma trimStart_head s : headNotSpace (trimStart s) = true.
Proof.
  induction s as [| c r IH]; simpl; [reflexivity |].
  destruct (is_ws c) eqn:E; [assumption | simpl; now rewrite E].
Qed.

Lemma trimEnd_head s : headNotSpace s = true -> headNotSpace (trimEnd s) = true.
Proof.
  destruct s as [| c r]; simpl; [reflexivity |].
  intros H. destruct (trimEnd r); simpl.
  - destruct (is_ws c) eqn:W; [discriminate | simpl; now rewrite W].
  - assumption.
Qed.

Lemma trimStart_fix s : headNotSpace s = true -> trimStart s = s.
Proof.
  destruct s as [| c r]; simpl; [reflexivity |].
  now destruct (is_ws c).
Qed.

Lemma trimEnd_idem s : trimEnd (trimEnd s) = trimEnd s.
Proof.
  induction s as [| c r IH]; simpl; [reflexivity |].
  destruct (trimEnd r) as [| c' r'] eqn:E.
  - destruct (is_ws c) eqn:W; simpl; [reflexivity | now rewrite W].
  - simpl in *. now rewrite IH.
Qed.

Lemma trim_idem s : trim (trim s) = trim s.
Proof.
  unfold trim.
  rewrite (trimStart_fix (trimEnd (trimStart s))).
  - apply trimEnd_idem.
  - apply trimEnd_head, trimStart_head.
Qed.

Lemma split_not_nil sep s : split sep s <> [].
Proof.
  destruct s as [| c r]; simpl; [discriminate |].
  destruct (Ascii.eqb c sep); [discriminate |].
  destruct (split sep r); discriminate.
Qed.

Lemma prefix_empty s : String.prefix EmptyString s = true.
Proof. now destruct s. Qed.

Lemma includes_empty s : includes s EmptyString = true.
Proof. destruct s; simpl; [reflexivity | reflexivity]. Qed.

End JSStringFacts.

Lemma normalizeEmail_idem e : normalizeEmail (normalizeEmail e) = normalizeEmail e.
Proof.
  unfold normalizeEmail.
  now rewrite JSStringFacts.toLowerCase_trim, JSStringFacts.toLowerCase_idem,
    JSStringFacts.trim_idem.
Qed.

Lemma nameTokens_inhabited n : exists token, JSSet.has token (nameTokens n) = true.
Proof.
  unfold nameTokens.
  destruct (JSString.split " " (JSString.toLowerCase n)) as [| t l] eqn:E.
  - now apply JSStringFacts.split_not_nil in E.
  - exists t. simpl. now rewrite String.eqb_refl.
Qed.

(* ================================================================== *)
(** ** Splitting, joining and containment of strings *)

Module CsvFacts.
Import JSString.

Lemma split_lacks sep a b :
  lacks sep a = true -> split sep (a ++ String sep b) = a :: split sep b.
Proof.
  unfold lacks. induction a as [| c a IH]; simpl.
  - intros _. now rewrite Ascii.eqb_refl.
  - intros H. apply andb_prop in H as [Hc Ha]. apply negb_true_iff in Hc.
    rewrite Hc, (IH Ha). reflexivity.
Qed.

Lemma removeAll_lacks c s : lacks c s = true -> removeAll c s = s.
Proof.
  unfold lacks. induction s as [| a s IH]; simpl; [reflexivity |].
  intros H. apply andb_prop in H as [Ha Hs]. apply negb_true_iff in Ha.
  now rewrite Ha, (IH Hs).
Qed.

Lemma removeAll_app c s t : removeAll c (s ++ t) = (removeAll c s ++ removeAll c t)%string.
Proof.
  induction s as [| a s IH]; simpl; [reflexivity |].
  destruct (Ascii.eqb a c); simpl; now rewrite IH.
Qed.

Lemma removeAll_quoted n : lacks quote n = true -> removeAll quote (quoted n) = n.
Proof.
  intros H. unfold quoted. cbn [removeAll]. rewrite Ascii.eqb_refl.
  rewrite removeAll_app, (removeAll_lacks _ _ H). cbn [removeAll].
  rewrite Ascii.eqb_refl. clear H. induction n; simpl; [reflexivity | now rewrite IHn].
Qed.

Lemma lacks_app c s t : lacks c (s ++ t) = lacks c s && lacks c t.
Proof.
  unfold lacks. induction s as [| a s IH]; simpl; [reflexivity |].
  now rewrite IH, andb_assoc.
Qed.

Lemma lacks_comma_quoted n : lacks "," n = true -> lacks "," (quoted n) = true.
Proof.
  intros H. unfold quoted.
  change (String quote (n ++ String quote ""))
    with (String quote "" ++ (n ++ String quote ""))%string.
  rewrite !lacks_app, H. reflexivity.
Qed.

End CsvFacts.

Module SplitFacts.
Import JSString.

Lemma prefix_iff t s : String.prefix t s = true <-> exists q, s = (t ++ q)%string.
Proof.
  revert s. induction t as [| c t IH]; intros s; simpl.
  - rewrite JSStringFacts.prefix_empty. split; [intros _; now exists s | reflexivity].
  - destruct s as [| d s].
    + split; [discriminate | intros [q [=]]].
    + simpl. destruct (Ascii.ascii_dec c d) as [<- | Hne].
      * rewrite IH. split; intros [q Hq]; exists q; [now rewrite Hq | now injection Hq].
      * split; [discriminate | intros [q [= E _]]; congruence].
Qed.

Lemma includes_iff s t : includes s t = true <-> Contains s t.
Proof.
  unfold Contains. induction s as [| c s IH]; cbn [includes]; rewrite orb_true_iff, prefix_iff.
  - split.
    + intros [[q Hq] | [=]]. now exists "", q.
    + intros (p & q & H). left. destruct p; [now exists q | discriminate].
  - rewrite IH. split.
    + intros [[q Hq] | (p & q & Hs)].
      * now exists "", q.
      * exists (String c p), q. simpl. now rewrite Hs.
    + intros (p & q & H). destruct p as [| d p]; simpl in H.
      * left. now exists q.
      * right. injection H as _ H. now exists p, q.
Qed.

Lemma lacks_iff c t : lacks c t = true <-> ~ Contains t (String c "").
Proof.
  unfold lacks, Contains. induction t as [| d t IH]; simpl.
  - split; [| reflexivity]. intros _ (p & q & H). destruct p; discriminate.
  - rewrite andb_true_iff, IH, negb_true_iff. split.
    + intros [Hd Ht] (p & q & H). destruct p as [| e p]; simpl in H.
      * injection H as -> _. now rewrite Ascii.eqb_refl in Hd.
      * injection H as _ H. apply Ht. now exists p, q.
    + intros H. split.
      * apply Ascii.eqb_neq. intros ->. apply H. now exists "", t.
      * intros (p & q & E). apply H. exists (String d p), q. simpl. now rewrite E.
Qed.

Lemma split_whole sep a : lacks sep a = true -> split sep a = [a].
Proof.
  unfold lacks. induction a as [| c a IH]; simpl; [reflexivity |].
  intros H. apply andb_prop in H as [Hc Ha]. apply negb_true_iff in Hc.
  now rewrite Hc, (IH Ha).
Qed.

Lemma concat_split sep s : String.concat (String sep "") (split sep s) = s.
Proof.
  induction s as [| c s IH]; cbn [split]; [reflexivity |].
  pose proof (JSStringFacts.split_not_nil sep s) as Hn.
  destruct (split sep s) as [| w ws] eqn:E; [congruence |].
  destruct (Ascii.eqb_spec c sep) as [-> | Hne].
  - change (String.concat (String sep "") ("" :: w :: ws))
      with (String sep (String.concat (String sep "") (w :: ws))).
    now rewrite IH.
  - rewrite <- IH. destruct ws; reflexivity.
Qed.

Lemma split_pieces sep s : Forall (fun t => lacks sep t = true) (split sep s).
Proof.
  induction s as [| c s IH]; simpl.
  - repeat constructor.
  - destruct (Ascii.eqb c sep) eqn:E.
    + constructor; [reflexivity | assumption].
    + destruct (split sep s) as [| w ws].
      * constructor; [| constructor]. unfold lacks. simpl. now rewrite E.
      * inversion IH as [| ? ? Hw Hws]; subst. constructor; [| assumption].
        unfold lacks in *. simpl. now rewrite E, Hw.
Qed.

Lemma split_concat sep l :
  l <> [] -> Forall (fun t => lacks sep t = true) l ->
  split sep (String.concat (String sep "") l) = l.
Proof.
  induction l as [| x l IH]; [congruence |]. intros _ H.
  inversion H as [| ? ? Hx Hl]; subst.
  destruct l as [| y l].
  - simpl. now apply split_whole.
  - cbn [String.concat]. cbn [append].
    rewrite (CsvFacts.split_lacks sep x _ Hx). f_equal.
    apply IH; [discriminate | assumption].
Qed.

End SplitFacts.

(* ================================================================== *)
(** ** Invariants of the store *)

Section Runs.
Variable ok : Store -> Op -> bool.
Variable P : Store -> Prop.
Hypothesis P_step : forall s op, P s -> ok s op = true -> P (step s op).

Lemma run_follows ops : forall s, P s -> follows ok s ops = true -> P (run ops s).
Proof.
  induction ops as [| op ops IH]; intros s Hs Hf; simpl in *.
  - assumption.
  - apply andb_prop in Hf as [Hop Hrest]. apply IH; auto.
Qed.
End Runs.

Lemma follows_weaken (ok ok' : Store -> Op -> bool) :
  (forall s op, ok s op = true -> ok' s op = true) ->
  forall ops s, follows ok s ops = true -> follows ok' s ops = true.
Proof.
  intros H. induction ops as [| op ops IH]; intros s Hf; simpl in *.
  - reflexivity.
  - apply andb_prop in Hf as [Hop Hrest]. rewrite (H _ _ Hop). simpl. auto.
Qed.

Lemma follows_always ops : forall s, follows (fun _ _ => true) s ops = true.
Proof. induction ops; intros s; simpl; auto. Qed.

(** *** What [buildIndexes] computes *)

Lemma buildIndexes_incremental s :
  buildIndexes s = fold_left rebuildStep (users s) (clearedIndexes s).
Proof.
  unfold buildIndexes, clearedIndexes.
  generalize {| users := users s; emailIndex := emailIndex s;
                roleIndex := []; nameIndex := [] |}.
  induction (users s) as [| [i u] l IH]; intros st; simpl.
  - reflexivity.
  - rewrite IH. reflexivity.
Qed.

Lemma rebuild_fold l : forall st,
  let st' := fold_left rebuildStep l st in
  users st' = users st /\ emailIndex st' = emailIndex st
  /\ (forall k i, inBucket (roleIndex st') k i =
        inBucket (roleIndex st) k i
        || existsb (fun p => String.eqb (role (snd p)) k && String.eqb (fst p) i) l)
  /\ (forall k i, inBucket (nameIndex st') k i =
        inBucket (nameIndex st) k i
        || existsb (fun p => JSSet.has k (nameTokens (name (snd p)))
                             && String.eqb (fst p) i) l).
Proof.
  induction l as [| [i0 u0] l IH]; intros st; simpl.
  - repeat split; intros; now rewrite orb_false_r.
  - destruct (IH (updateIndexes i0 u0 st)) as (Hu & He & Hr & Hn).
    repeat split.
    + now rewrite Hu.
    + now rewrite He.
    + intros k i. rewrite Hr. simpl. rewrite IndexFacts.inBucket_add.
      now rewrite orb_assoc.
    + intros k i. rewrite Hn. simpl. rewrite IndexFacts.inBucket_add_tokens.
      now rewrite orb_assoc.
Qed.

Lemma buildIndexes_users s : users (buildIndexes s) = users s.
Proof.
  rewrite buildIndexes_incremental.
  now destruct (rebuild_fold (users s) (clearedIndexes s)) as (H & _).
Qed.

Lemma buildIndexes_emailIndex s : emailIndex (buildIndexes s) = emailIndex s.
Proof.
  rewrite buildIndexes_incremental.
  now destruct (rebuild_fold (users s) (clearedIndexes s)) as (_ & H & _).
Qed.

Lemma existsb_entries (f : User -> bool) (m : JSMap.t User) i :
  NoDup (JSMap.keys m) ->
  existsb (fun p => f (snd p) && String.eqb (fst p) i) m = true <->
  exists u, JSMap.get i m = Some u /\ f u = true.
Proof.
  intros Hnd. rewrite existsb_exists. split.
  - intros [[i' u] [Hin H]]. simpl in H. apply andb_prop in H as [Hf E].
    apply String.eqb_eq in E. subst i'. exists u. split; [| assumption].
    now apply JSMapFacts.In_get.
  - intros [u [G Hf]]. exists (i, u). split.
    + now apply JSMapFacts.get_In.
    + simpl. now rewrite Hf, String.eqb_refl.
Qed.

Lemma buildIndexes_RoleInv s : UniqueKeys s -> RoleInv (buildIndexes s).
Proof.
  intros Hnd r i. rewrite buildIndexes_users, buildIndexes_incremental.
  destruct (rebuild_fold (users s) (clearedIndexes s)) as (_ & _ & Hr & _).
  rewrite Hr. simpl.
  now rewrite (existsb_entries (fun u => hasRole u r)).
Qed.

Lemma buildIndexes_NameInv s : UniqueKeys s -> NameInv (buildIndexes s).
Proof.
  intros Hnd t i. rewrite buildIndexes_users, buildIndexes_incremental.
  destruct (rebuild_fold (users s) (clearedIndexes s)) as (_ & _ & _ & Hn).
  rewrite Hn. simpl.
  now rewrite (existsb_entries (fun u => hasToken u t)).
Qed.

(** *** The users table after each operation *)

Lemma UniqueKeys_step s op : UniqueKeys s -> UniqueKeys (step s op).
Proof.
  unfold UniqueKeys. intros H.
  destruct op as [i now d | i upd | i r | i | i | i now | i |]; simpl.
  - unfold createUser. destruct (MAX_USERS <=? JSMap.size (users s))%nat; simpl;
      [assumption | now apply JSMapFacts.set_NoDup].
  - unfold updateUser. destruct (JSMap.get i (users s)); simpl; [| assumption].
    destruct (_ && _); simpl; [assumption | now apply JSMapFacts.set_NoDup].
  - unfold updateUserRole. destruct (JSMap.get i (users s)); simpl;
      [now apply JSMapFacts.set_NoDup | assumption].
  - unfold deactivateUser. destruct (JSMap.get i (users s)); simpl;
      [now apply JSMapFacts.set_NoDup | assumption].
  - unfold activateUser. destruct (JSMap.get i (users s)); simpl;
      [now apply JSMapFacts.set_NoDup | assumption].
  - unfold updateLastLogin. destruct (JSMap.get i (users s)); simpl;
      [now apply JSMapFacts.set_NoDup | assumption].
  - unfold deleteUser. destruct (JSMap.get i (users s)); simpl;
      [now apply JSMapFacts.delete_NoDup | assumption].
  - now rewrite buildIndexes_users.
Qed.

Lemma UniqueKeys_run ops : forall s, UniqueKeys s -> UniqueKeys (run ops s).
Proof.
  intros s Hs.
  apply (run_follows (fun _ _ => true) UniqueKeys); auto using follows_always.
  intros; now apply UniqueKeys_step.
Qed.

Lemma UniqueKeys_empty : UniqueKeys emptyStore.
Proof. constructor. Qed.

(** *** Moving identifiers between buckets *)

Section IndexInvariant.
Import JSMapFacts IndexFacts.
Variable attr : User -> string -> bool.

Lemma IndexInv_keep us idx i A A' :
  IndexInvOn attr us idx ->
  JSMap.get i us = Some A ->
  (forall key, attr A' key = attr A key) ->
  IndexInvOn attr (JSMap.set i A' us) idx.
Proof.
  intros Hinv HA Hattr key j. rewrite (Hinv key j), get_set.
  eqb_cases i j.
  - split; intros [u [G E]].
    + exists A'. split; [reflexivity |]. rewrite Hattr. congruence.
    + exists A. split; [assumption |]. rewrite <- Hattr. congruence.
  - reflexivity.
Qed.

(** a new record under a fresh identifier, added where it belongs *)
Lemma IndexInv_insert us idx idx' i A :
  IndexInvOn attr us idx ->
  JSMap.has i us = false ->
  (forall key j, inBucket idx' key j =
                 inBucket idx key j || (attr A key && String.eqb i j)) ->
  IndexInvOn attr (JSMap.set i A us) idx'.
Proof.
  intros Hinv Hfresh Hidx key j. rewrite Hidx, get_set, orb_true_iff, (Hinv key j).
  unfold JSMap.has in Hfresh.
  eqb_cases i j.
  - destruct (JSMap.get j us) eqn:G; [discriminate |].
    rewrite andb_true_r. split.
    + intros [[u [G' _]] | H]; [discriminate | now exists A].
    + intros [u [[= <-] H]]. now right.
  - rewrite andb_false_r. split.
    + intros [H | H]; [assumption | discriminate].
    + now left.
Qed.

(** the record under [i] replaced, and [i] moved accordingly *)
Lemma IndexInv_move us idx idx' i A A' :
  IndexInvOn attr us idx ->
  JSMap.get i us = Some A ->
  (forall key j, inBucket idx' key j =
                 (inBucket idx key j && negb (attr A key && String.eqb i j))
                 || (attr A' key && String.eqb i j)) ->
  IndexInvOn attr (JSMap.set i A' us) idx'.
Proof.
  intros Hinv HA Hidx key j. rewrite Hidx, get_set.
  eqb_cases i j.
  - rewrite !andb_true_r. split.
    + intros H. exists A'. split; [reflexivity |].
      apply orb_prop in H as [H | H]; [| assumption].
      apply andb_prop in H as [H1 H2]. apply Hinv in H1 as [u [G E]].
      rewrite HA in G. injection G as <-. rewrite E in H2. discriminate.
    + intros [u [[= <-] H]]. rewrite H. apply orb_true_r.
  - rewrite !andb_false_r, orb_false_r, andb_true_r. apply Hinv.
Qed.

Lemma IndexInv_remove us idx idx' i A :
  IndexInvOn attr us idx ->
  JSMap.get i us = Some A ->
  (forall key j, inBucket idx' key j =
                 inBucket idx key j && negb (attr A key && String.eqb i j)) ->
  IndexInvOn attr (JSMap.delete i us) idx'.
Proof.
  intros Hinv HA Hidx key j. rewrite Hidx, get_delete.
  eqb_cases i j.
  - rewrite andb_true_r. split.
    + intros H. apply andb_prop in H as [H1 H2]. apply Hinv in H1 as [u [G E]].
      rewrite HA in G. injection G as <-. rewrite E in H2. discriminate.
    + intros [u [[=] _]].
  - rewrite andb_false_r, andb_true_r. apply Hinv.
Qed.

End IndexInvariant.

(** *** The role index and the name index under the operations *)

Lemma changes_true v current :
  changes v current = true ->
  exists x, v = Some x /\ x <> "" /\ x <> current.
Proof.
  destruct v as [x |]; simpl; [| discriminate].
  intros H. apply andb_prop in H as [H1 H2].
  exists x. repeat split.
  - intros ->. discriminate.
  - intros ->. now rewrite String.eqb_refl in H2.
Qed.

Lemma changes_false v current :
  changes v current = false ->
  match v with Some x => x = "" \/ x = current | None => True end.
Proof.
  destruct v as [x |]; simpl; [| trivial].
  eqb_cases x ""; [now left |]. eqb_cases x current; [now right | discriminate].
Qed.

Lemma RoleInv_step s op :
  UniqueKeys s -> RoleInv s -> roleDiscipline s op = true -> RoleInv (step s op).
Proof.
  intros Hnd Hinv Hok. unfold roleDiscipline in Hok.
  apply andb_prop in Hok as [Hfresh Htyped]. unfold RoleInv in *.
  destruct op as [i now d | i upd | i r | i | i | i now | i |]; simpl in *.
  - unfold createUser. destruct (MAX_USERS <=? JSMap.size (users s))%nat; simpl;
      [assumption |].
    apply negb_true_iff in Hfresh.
    eapply IndexInv_insert; eauto.
    intros key j. rewrite IndexFacts.inBucket_add. reflexivity.
  - unfold updateUser. destruct (JSMap.get i (users s)) as [A |] eqn:HA; simpl;
      [| assumption].
    destruct (_ && _); simpl; [assumption |].
    destruct (changes (p_role upd) (role A)) eqn:Hc.
    + apply changes_true in Hc as (r0 & Hr0 & _ & _).
      eapply IndexInv_move; eauto.
      intros key j. rewrite IndexFacts.inBucket_add, IndexFacts.inBucket_remove.
      unfold hasRole, merge. simpl. rewrite Hr0. reflexivity.
    + apply changes_false in Hc.
      eapply IndexInv_keep; eauto.
      intros key. unfold hasRole, merge. simpl.
      destruct (p_role upd) as [r0 |]; simpl; [| reflexivity].
      destruct Hc as [-> | ->]; [discriminate | reflexivity].
  - unfold updateUserRole. destruct (JSMap.get i (users s)) as [A |] eqn:HA; simpl;
      [| assumption].
    eapply IndexInv_move; eauto.
    intros key j. rewrite IndexFacts.inBucket_add, IndexFacts.inBucket_remove.
    reflexivity.
  - unfold deactivateUser. destruct (JSMap.get i (users s)) as [A |] eqn:HA; simpl;
      [| assumption].
    eapply IndexInv_keep; eauto.
  - unfold activateUser. destruct (JSMap.get i (users s)) as [A |] eqn:HA; simpl;
      [| assumption].
    eapply IndexInv_keep; eauto.
  - unfold updateLastLogin. destruct (JSMap.get i (users s)) as [A |] eqn:HA; simpl;
      [| assumption].
    eapply IndexInv_keep; eauto.
  - unfold deleteUser. destruct (JSMap.get i (users s)) as [A |] eqn:HA; simpl;
      [| assumption].
    eapply IndexInv_remove; eauto.
    intros key j. rewrite IndexFacts.inBucket_remove. reflexivity.
  - now apply buildIndexes_RoleInv.
Qed.

Lemma NameInv_step s op :
  UniqueKeys s -> NameInv s ->
  freshId s op && nameKept s op = true -> NameInv (step s op).
Proof.
  intros Hnd Hinv Hok.
  apply andb_prop in Hok as [Hfresh Hkept]. unfold NameInv in *.
  destruct op as [i now d | i upd | i r | i | i | i now | i |]; simpl in *.
  - unfold createUser. destruct (MAX_USERS <=? JSMap.size (users s))%nat; simpl;
      [assumption |].
    apply negb_true_iff in Hfresh.
    eapply IndexInv_insert; eauto.
    intros key j. rewrite IndexFacts.inBucket_add_tokens. reflexivity.
  - unfold updateUser. destruct (JSMap.get i (users s)) as [A |] eqn:HA; simpl;
      [| assumption].
    destruct (_ && _); simpl; [assumption |].
    eapply IndexInv_keep; eauto.
    intros key. unfold hasToken, merge. simpl.
    destruct (p_name upd) as [n |]; simpl; [| reflexivity].
    apply String.eqb_eq in Hkept. now subst n.
  - unfold updateUserRole. destruct (JSMap.get i (users s)) as [A |] eqn:HA; simpl;
      [| assumption].
    eapply IndexInv_keep; eauto.
  - unfold deactivateUser. destruct (JSMap.get i (users s)) as [A |] eqn:HA; simpl;
      [| assumption].
    eapply IndexInv_keep; eauto.
  - unfold activateUser. destruct (JSMap.get i (users s)) as [A |] eqn:HA; simpl;
      [| assumption].
    eapply IndexInv_keep; eauto.
  - unfold updateLastLogin. destruct (JSMap.get i (users s)) as [A |] eqn:HA; simpl;
      [| assumption].
    eapply IndexInv_keep; eauto.
  - unfold deleteUser. destruct (JSMap.get i (users s)) as [A |] eqn:HA; simpl;
      [| assumption].
    eapply IndexInv_remove; eauto.
    intros key j. rewrite IndexFacts.inBucket_remove_tokens. reflexivity.
  - now apply buildIndexes_NameInv.
Qed.

Lemma IndexInv_empty attr : IndexInvOn attr [] [].
Proof.
  intros key i. simpl. split; [discriminate | intros [u [[=] _]]].
Qed.

Lemma RoleInv_run ops :
  follows roleDiscipline emptyStore ops = true ->
  UniqueKeys (run ops emptyStore) /\ RoleInv (run ops emptyStore).
Proof.
  apply (run_follows roleDiscipline (fun s => UniqueKeys s /\ RoleInv s)).
  - intros s op [Hu Hr] Hok. split.
    + now apply UniqueKeys_step.
    + now apply RoleInv_step.
  - split; [apply UniqueKeys_empty | apply IndexInv_empty].
Qed.

Lemma Derived_run ops :
  follows indexDiscipline emptyStore ops = true -> Derived (run ops emptyStore).
Proof.
  apply (run_follows indexDiscipline Derived).
  - intros s op (Hu & Hr & Hn) Hok. unfold indexDiscipline in Hok.
    apply andb_prop in Hok as [Hok Hkept]. apply andb_prop in Hok as [Hfresh Htyped].
    split; [| split].
    + now apply UniqueKeys_step.
    + apply RoleInv_step; auto. unfold roleDiscipline. now rewrite Hfresh, Htyped.
    + apply NameInv_step; auto. now rewrite Hfresh, Hkept.
  - split; [apply UniqueKeys_empty | split; apply IndexInv_empty].
Qed.

(** *** The email index under the operations *)

Section EmailInvariant.
Import JSMapFacts.

Lemma EmailInv_keep us idx i A A' :
  EmailInvOn us idx ->
  JSMap.get i us = Some A ->
  email A' = email A ->
  EmailInvOn (JSMap.set i A' us) idx.
Proof.
  intros [H1 H2] HA He. split.
  - intros e j G. destruct (H1 e j G) as [u [Gu Eu]]. rewrite get_set.
    eqb_cases i j.
    + exists A'. split; [reflexivity | congruence].
    + now exists u.
  - intros j u. rewrite get_set. eqb_cases i j.
    + intros [= <-]. rewrite He. now apply H2.
    + apply H2.
Qed.

Lemma EmailInv_insert us idx i A :
  EmailInvOn us idx ->
  JSMap.has i us = false ->
  JSMap.has (email A) idx = false ->
  normalizeEmail (email A) = email A ->
  EmailInvOn (JSMap.set i A us) (JSMap.set (email A) i idx).
Proof.
  intros [H1 H2] Hi He Hn. unfold JSMap.has in Hi, He.
  destruct (JSMap.get i us) eqn:Gi; [discriminate |].
  destruct (JSMap.get (email A) idx) eqn:Ge; [discriminate |].
  split.
  - intros e j. rewrite !get_set. eqb_cases (email A) e.
    + intros [= <-]. rewrite String.eqb_refl. now exists A.
    + intros G. destruct (H1 e j G) as [u [Gu Eu]].
      eqb_cases i j; [congruence | now exists u].
  - intros j u. rewrite !get_set. eqb_cases i j.
    + intros [= <-]. now rewrite String.eqb_refl.
    + intros G. destruct (H2 j u G) as [G' N]. split; [| assumption].
      eqb_cases (email A) (email u); [congruence | assumption].
Qed.

Lemma EmailInv_move us idx i A A' :
  EmailInvOn us idx ->
  JSMap.get i us = Some A ->
  JSMap.has (email A') idx = false ->
  normalizeEmail (email A') = email A' ->
  EmailInvOn (JSMap.set i A' us)
             (JSMap.set (email A') i (JSMap.delete (email A) idx)).
Proof.
  intros [H1 H2] HA He Hn. unfold JSMap.has in He.
  destruct (JSMap.get (email A') idx) eqn:Ge; [discriminate |].
  destruct (H2 i A HA) as [GA _].
  split.
  - intros e j. rewrite !get_set, get_delete. eqb_cases (email A') e.
    + intros [= <-]. rewrite String.eqb_refl. now exists A'.
    + eqb_cases (email A) e; [discriminate |].
      intros G. destruct (H1 e j G) as [u [Gu Eu]].
      eqb_cases i j; [congruence | now exists u].
  - intros j u. rewrite !get_set, get_delete. eqb_cases i j.
    + intros [= <-]. now rewrite String.eqb_refl.
    + intros G. destruct (H2 j u G) as [G' N]. split; [| assumption].
      eqb_cases (email A') (email u); [congruence |].
      eqb_cases (email A) (email u); [congruence | assumption].
Qed.

Lemma EmailInv_remove us idx i A :
  EmailInvOn us idx ->
  JSMap.get i us = Some A ->
  EmailInvOn (JSMap.delete i us) (JSMap.delete (email A) idx).
Proof.
  intros [H1 H2] HA. destruct (H2 i A HA) as [GA _]. split.
  - intros e j. rewrite !get_delete. eqb_cases (email A) e; [discriminate |].
    intros G. destruct (H1 e j G) as [u [Gu Eu]].
    eqb_cases i j; [congruence | now exists u].
  - intros j u. rewrite !get_delete. eqb_cases i j; [discriminate |].
    intros G. destruct (H2 j u G) as [G' N]. split; [| assumption].
    eqb_cases (email A) (email u); [congruence | assumption].
Qed.

End EmailInvariant.

Lemma EmailInv_step s op :
  EmailInv s -> emailDiscipline s op = true -> EmailInv (step s op).
Proof.
  intros Hinv Hok. unfold emailDiscipline in Hok.
  apply andb_prop in Hok as [Hok Hnorm]. apply andb_prop in Hok as [Hfresh Hchk].
  unfold EmailInv in *.
  destruct op as [i now d | i upd | i r | i | i | i now | i |]; simpl in *.
  - unfold createUser. destruct (MAX_USERS <=? JSMap.size (users s))%nat; simpl;
      [assumption |].
    apply negb_true_iff in Hfresh, Hchk.
    match goal with
    | |- EmailInvOn (JSMap.set i ?A _) _ => apply (EmailInv_insert _ _ i A)
    end; auto.
    simpl. apply normalizeEmail_idem.
  - unfold updateUser. destruct (JSMap.get i (users s)) as [A |] eqn:HA; simpl;
      [| assumption].
    destruct (changes (p_email upd) (email A)) eqn:Hc; simpl.
    + apply changes_true in Hc as (e & He & Hne & _). rewrite He in *. simpl in *.
      apply andb_prop in Hnorm as [_ Hn]. apply String.eqb_eq in Hn.
      destruct (JSMap.has (normalizeEmail e) (emailIndex s)) eqn:Hh; simpl;
        [assumption |].
      rewrite Hn in *.
      assert (Em : email (merge A upd) = e) by (unfold merge; simpl; now rewrite He).
      rewrite <- Em at 1. apply EmailInv_move; auto; now rewrite Em.
    + apply changes_false in Hc.
      eapply EmailInv_keep; eauto.
      unfold merge. simpl. destruct (p_email upd) as [e |]; simpl; [| reflexivity].
      destruct Hc as [-> | ->]; [discriminate | reflexivity].
  - unfold updateUserRole. destruct (JSMap.get i (users s)) as [A |] eqn:HA; simpl;
      [| assumption].
    eapply EmailInv_keep; eauto.
  - unfold deactivateUser. destruct (JSMap.get i (users s)) as [A |] eqn:HA; simpl;
      [| assumption].
    eapply EmailInv_keep; eauto.
  - unfold activateUser. destruct (JSMap.get i (users s)) as [A |] eqn:HA; simpl;
      [| assumption].
    eapply EmailInv_keep; eauto.
  - unfold updateLastLogin. destruct (JSMap.get i (users s)) as [A |] eqn:HA; simpl;
      [| assumption].
    eapply EmailInv_keep; eauto.
  - unfold deleteUser. destruct (JSMap.get i (users s)) as [A |] eqn:HA; simpl;
      [| assumption].
    now apply EmailInv_remove.
  - now rewrite buildIndexes_users, buildIndexes_emailIndex.
Qed.

Lemma EmailInv_empty : EmailInv emptyStore.
Proof. split; simpl; intros; discriminate. Qed.

Lemma EmailInv_agree s : EmailInv s -> EmailAgree s.
Proof.
  intros [H1 H2]. split.
  - intros e i G. destruct (H1 e i G) as [u [Gu Eu]]. exists u. split; [assumption |].
    destruct (H2 i u Gu) as [_ N]. congruence.
  - intros i u G. destruct (H2 i u G) as [G' N]. now rewrite N.
Qed.

(** *** Every record keeps a name bucket *)

Lemma NameCover_keep s us' i A A' :
  NameCover s -> JSMap.get i (users s) = Some A ->
  us' = JSMap.set i A' (users s) ->
  forall j u, JSMap.get j us' = Some u ->
    exists token, inBucket (nameIndex s) token j = true.
Proof.
  intros Hc HA -> j u. rewrite JSMapFacts.get_set. eqb_cases i j.
  - intros _. eapply Hc; eauto.
  - apply Hc.
Qed.

Lemma NameCover_step s op : NameCover s -> NameCover (step s op).
Proof.
  intros Hc. unfold NameCover.
  destruct op as [i now d | i upd | i r | i | i | i now | i |]; simpl.
  - unfold createUser. destruct (MAX_USERS <=? JSMap.size (users s))%nat; simpl;
      [assumption |].
    intros j u. rewrite JSMapFacts.get_set. eqb_cases i j.
    + intros _. destruct (nameTokens_inhabited (JSString.trim (d_name d))) as [t Ht].
      exists t. rewrite IndexFacts.inBucket_add_tokens, Ht, String.eqb_refl.
      apply orb_true_r.
    + intros G. destruct (Hc j u G) as [t Ht]. exists t.
      rewrite IndexFacts.inBucket_add_tokens, Ht. reflexivity.
  - unfold updateUser. destruct (JSMap.get i (users s)) as [A |] eqn:HA; simpl;
      [| assumption].
    destruct (_ && _); simpl; [assumption |].
    eapply NameCover_keep; eauto.
  - unfold updateUserRole. destruct (JSMap.get i (users s)) as [A |] eqn:HA; simpl;
      [| assumption].
    eapply NameCover_keep; eauto.
  - unfold deactivateUser. destruct (JSMap.get i (users s)) as [A |] eqn:HA; simpl;
      [| assumption].
    eapply NameCover_keep; eauto.
  - unfold activateUser. destruct (JSMap.get i (users s)) as [A |] eqn:HA; simpl;
      [| assumption].
    eapply NameCover_keep; eauto.
  - unfold updateLastLogin. destruct (JSMap.get i (users s)) as [A |] eqn:HA; simpl;
      [| assumption].
    eapply NameCover_keep; eauto.
  - unfold deleteUser. destruct (JSMap.get i (users s)) as [A |] eqn:HA; simpl;
      [| assumption].
    intros j u. rewrite JSMapFacts.get_delete. eqb_cases i j; [discriminate |].
    intros G. destruct (Hc j u G) as [t Ht]. exists t.
    rewrite IndexFacts.inBucket_remove_tokens, Ht.
    rewrite (proj2 (String.eqb_neq i j)) by assumption.
    now rewrite andb_false_r.
  - intros j u. rewrite buildIndexes_users, buildIndexes_incremental.
    destruct (rebuild_fold (users s) (clearedIndexes s)) as (_ & _ & _ & Hn).
    intros G. destruct (nameTokens_inhabited (name u)) as [t Ht].
    exists t. rewrite Hn. simpl. apply existsb_exists. exists (j, u). split.
    + now apply JSMapFacts.get_In.
    + simpl. now rewrite Ht, String.eqb_refl.
Qed.

Lemma NameCover_run ops : NameCover (run ops emptyStore).
Proof.
  apply (run_follows (fun _ _ => true) NameCover); auto using follows_always.
  - intros; now apply NameCover_step.
  - intros i u; discriminate.
Qed.

(* ================================================================== *)
(** ** Search *)

Lemma In_filterMap {A B : Type} (f : A -> option B) l y :
  In y (filterMap f l) <-> exists x, In x l /\ f x = Some y.
Proof.
  induction l as [| a l IH]; simpl.
  - split; [tauto | intros [x [[] _]]].
  - destruct (f a) as [b |] eqn:E; simpl; rewrite IH; split.
    + intros [<- | [x [Hx Hf]]]; [exists a; auto | exists x; auto].
    + intros [x [[<- | Hx] Hf]]; [left; congruence | right; exists x; auto].
    + intros [x [Hx Hf]]. exists x; auto.
    + intros [x [[<- | Hx] Hf]]; [congruence | exists x; auto].
Qed.

Lemma has_fold_add ids : forall acc i,
  JSSet.has i (fold_left (fun a' x => JSSet.add x a') ids acc) =
  JSSet.has i acc || JSSet.has i ids.
Proof.
  induction ids as [| x ids IH]; intros acc i; simpl.
  - now rewrite orb_false_r.
  - rewrite IH, JSSetFacts.has_add, (String.eqb_sym i x). now rewrite orb_assoc.
Qed.

Lemma has_searchTerm s term acc i :
  JSSet.has i (searchTerm s acc term) = JSSet.has i acc || matchesTermb s term i.
Proof.
  unfold searchTerm, matchesTermb.
  generalize (nameIndex s) as names, (emailIndex s) as emails.
  intros names emails. revert acc.
  assert (Hemails : forall acc,
    JSSet.has i (fold_left (fun a entry =>
        let '(e, userId) := entry in
        if JSString.includes e term then JSSet.add userId a else a) emails acc) =
    JSSet.has i acc
    || existsb (fun p => JSString.includes (fst p) term && String.eqb (snd p) i) emails).
  { induction emails as [| [e u] emails IH]; intros acc; simpl.
    - now rewrite orb_false_r.
    - rewrite IH. destruct (JSString.includes e term); simpl; [| reflexivity].
      now rewrite JSSetFacts.has_add, orb_assoc. }
  intros acc. rewrite Hemails. clear Hemails. rewrite orb_assoc. f_equal.
  revert acc. induction names as [| [t ids] names IH]; intros acc; simpl.
  - now rewrite orb_false_r.
  - rewrite IH. destruct (JSString.includes t term); simpl; [| reflexivity].
    now rewrite has_fold_add, orb_assoc.
Qed.

Lemma has_matchingUserIds query s i :
  JSSet.has i (matchingUserIds query s) =
  existsb (fun term => matchesTermb s term i)
          (JSString.split " " (JSString.toLowerCase query)).
Proof.
  unfold matchingUserIds.
  generalize (JSString.split " " (JSString.toLowerCase query)) as terms.
  intros terms.
  assert (H : forall acc,
    JSSet.has i (fold_left (searchTerm s) terms acc) =
    JSSet.has i acc || existsb (fun term => matchesTermb s term i) terms).
  { induction terms as [| t terms IH]; intros acc; simpl.
    - now rewrite orb_false_r.
    - now rewrite IH, has_searchTerm, orb_assoc. }
  now rewrite H.
Qed.

Lemma matchesTermb_spec s term i :
  matchesTermb s term i = true <-> matchesTerm s term i.
Proof.
  unfold matchesTermb, matchesTerm. rewrite orb_true_iff, !existsb_exists. split.
  - intros [[[t ids] [Hin H]] | [[e u] [Hin H]]]; simpl in H;
      apply andb_prop in H as [H1 H2].
    + left. exists t, ids. repeat split; auto. now apply JSSetFacts.has_In.
    + right. apply String.eqb_eq in H2. subst u. now exists e.
  - intros [(t & ids & Hin & H1 & H2) | (e & Hin & H1)].
    + left. exists (t, ids). split; [assumption |]. simpl.
      rewrite H1. now apply JSSetFacts.has_In.
    + right. exists (e, i). split; [assumption |]. simpl.
      now rewrite H1, String.eqb_refl.
Qed.

Lemma In_searchUsers query s u :
  In u (searchUsers query s) <->
  exists term userId,
    In term (JSString.split " " (JSString.toLowerCase query))
    /\ matchesTerm s term userId
    /\ findUserById userId s = Some u.
Proof.
  unfold searchUsers. rewrite In_filterMap. split.
  - intros [i [Hin Hf]]. apply JSSetFacts.has_In in Hin.
    rewrite has_matchingUserIds in Hin. apply existsb_exists in Hin as [t [Ht Hm]].
    exists t, i. repeat split; auto. now apply matchesTermb_spec.
  - intros (t & i & Ht & Hm & Hf). exists i. split; [| assumption].
    apply JSSetFacts.has_In. rewrite has_matchingUserIds.
    apply existsb_exists. exists t. split; [assumption |].
    now apply matchesTermb_spec.
Qed.

Lemma createUser_below s i t d :
  (JSMap.size (users s) < MAX_USERS)%nat ->
  createUser i t d s =
  (Return (withoutPassword (newUser i t d)),
   updateIndexes i (newUser i t d)
     {| users := JSMap.set i (newUser i t d) (users s);
        emailIndex := JSMap.set (email (newUser i t d)) i (emailIndex s);
        roleIndex := roleIndex s; nameIndex := nameIndex s |}).
Proof.
  intros H. unfold createUser.
  destruct (Nat.leb_spec MAX_USERS (JSMap.size (users s))); [lia | reflexivity].
Qed.

Lemma add_present x acc : JSSet.has x acc = true -> JSSet.add x acc = acc.
Proof. unfold JSSet.add. now intros ->. Qed.

Lemma In_set {V : Type} k (v : V) m p :
  In p (JSMap.set k v m) -> p = (k, v) \/ In p m.
Proof.
  induction m as [| [k0 v0] m IH]; simpl.
  - intros [<- | []]. now left.
  - destruct (String.eqb k0 k); simpl.
    + intros [<- | H]; auto.
    + intros [<- | H]; auto. destruct (IH H); auto.
Qed.

(** The pass over the email index adds nothing when every matching entry
    points to an identifier that is already collected. *)
Lemma email_pass_fix term emails : forall acc,
  (forall e u, In (e, u) emails -> JSString.includes e term = true ->
               JSSet.has u acc = true) ->
  fold_left (fun (a : JSSet.t) (entry : string * string) =>
               let '(e, userId) := entry in
               if JSString.includes e term then JSSet.add userId a else a)
            emails acc = acc.
Proof.
  induction emails as [| [e u] emails IH]; intros acc H; simpl.
  - reflexivity.
  - destruct (JSString.includes e term) eqn:E.
    + rewrite add_present by (apply (H e u); simpl; auto).
      apply IH. intros e' u' Hin. apply H. now right.
    + apply IH. intros e' u' Hin. apply H. now right.
Qed.

Section TwoSharmas.
Variables (i1 i2 : string) (t1 t2 : Z) (e1 e2 p1 p2 : string) (r1 r2 : option string).
Hypothesis distinct : i1 <> i2.

Let d1 := {| d_email := e1; d_name := "Anita Sharma"; d_password := p1; d_role := r1 |}.
Let d2 := {| d_email := e2; d_name := "Rohan Sharma"; d_password := p2; d_role := r2 |}.
Let s := run [OpCreate i1 t1 d1; OpCreate i2 t2 d2] emptyStore.
Let u1 := newUser i1 t1 d1.
Let u2 := newUser i2 t2 d2.

Local Ltac two_creates :=
  subst s; cbn [run fold_left step];
  rewrite (createUser_below emptyStore) by (simpl; unfold MAX_USERS; lia);
  cbn [snd]; rewrite createUser_below by (simpl; unfold MAX_USERS; lia);
  cbn [snd].

Lemma sharmas_users : users s = [(i1, u1); (i2, u2)].
Proof.
  two_creates. cbn [users updateIndexes emptyStore JSMap.set].
  fold u1 u2. now rewrite (proj2 (String.eqb_neq i1 i2)).
Qed.

Lemma sharmas_nameIndex :
  nameIndex s = [("anita", [i1]); ("sharma", [i1; i2]); ("rohan", [i2])].
Proof.
  two_creates. cbn [nameIndex updateIndexes emptyStore].
  change (nameTokens (name (newUser i1 t1 d1)))
    with (nameTokens (JSString.trim "Anita Sharma")).
  change (nameTokens (name (newUser i2 t2 d2)))
    with (nameTokens (JSString.trim "Rohan Sharma")).
  replace (nameTokens (JSString.trim "Anita Sharma")) with ["anita"; "sharma"]
    by (vm_compute; reflexivity).
  replace (nameTokens (JSString.trim "Rohan Sharma")) with ["rohan"; "sharma"]
    by (vm_compute; reflexivity).
  cbn. unfold JSSet.add, JSSet.has. simpl.
  rewrite (proj2 (String.eqb_neq i2 i1)) by congruence. reflexivity.
Qed.

Lemma sharmas_emailIndex :
  emailIndex s = JSMap.set (normalizeEmail e2) i2 [(normalizeEmail e1, i1)].
Proof. two_creates. reflexivity. Qed.

Lemma sharmas_find1 : findUserById i1 s = Some (withoutPassword u1).
Proof.
  unfold findUserById. rewrite sharmas_users. simpl. now rewrite String.eqb_refl.
Qed.

Lemma sharmas_find2 : findUserById i2 s = Some (withoutPassword u2).
Proof.
  unfold findUserById. rewrite sharmas_users. simpl.
  now rewrite (proj2 (String.eqb_neq i1 i2)), String.eqb_refl.
Qed.

Lemma sharmas_search_sharma :
  searchUsers "sharma" s = [withoutPassword u1; withoutPassword u2].
Proof.
  unfold searchUsers, matchingUserIds.
  replace (JSString.split " " (JSString.toLowerCase "sharma")) with ["sharma"]
    by (vm_compute; reflexivity).
  cbn [fold_left]. unfold searchTerm.
  rewrite sharmas_nameIndex, sharmas_emailIndex. cbn [fold_left].
  replace (JSString.includes "anita" "sharma") with false by (vm_compute; reflexivity).
  replace (JSString.includes "sharma" "sharma") with true by (vm_compute; reflexivity).
  replace (JSString.includes "rohan" "sharma") with false by (vm_compute; reflexivity).
  cbn [fold_left].
  replace (JSSet.add i2 (JSSet.add i1 [])) with [i1; i2].
  2:{ unfold JSSet.add, JSSet.has; simpl.
      now rewrite (proj2 (String.eqb_neq i2 i1)) by congruence. }
  rewrite email_pass_fix.
  - simpl. now rewrite sharmas_find1, sharmas_find2.
  - intros e u Hin _. apply In_set in Hin as [H | [H | []]];
      injection H as ? ?; subst; unfold JSSet.has; simpl;
      rewrite ?String.eqb_refl, ?orb_true_r; reflexivity.
Qed.

Lemma sharmas_search_anita :
  JSString.includes (normalizeEmail e2) "anita" = false ->
  searchUsers "anita" s = [withoutPassword u1].
Proof.
  intros Hinc. unfold searchUsers, matchingUserIds.
  replace (JSString.split " " (JSString.toLowerCase "anita")) with ["anita"]
    by (vm_compute; reflexivity).
  cbn [fold_left]. unfold searchTerm.
  rewrite sharmas_nameIndex, sharmas_emailIndex. cbn [fold_left].
  replace (JSString.includes "anita" "anita") with true by (vm_compute; reflexivity).
  replace (JSString.includes "sharma" "anita") with false by (vm_compute; reflexivity).
  replace (JSString.includes "rohan" "anita") with false by (vm_compute; reflexivity).
  cbn [fold_left].
  replace (JSSet.add i1 []) with [i1] by reflexivity.
  rewrite email_pass_fix.
  - simpl. now rewrite sharmas_find1.
  - intros e u Hin Hi. apply In_set in Hin as [H | [H | []]];
      injection H as ? ?; subst.
    + congruence.
    + unfold JSSet.has; simpl. now rewrite String.eqb_refl.
Qed.

End TwoSharmas.

(** *** The collected identifiers are distinct, and what they resolve to *)

Lemma NoDup_fold_add ids : forall acc,
  NoDup acc -> NoDup (fold_left (fun a' x => JSSet.add x a') ids acc).
Proof.
  induction ids as [| x ids IH]; intros acc H; simpl; [assumption |].
  apply IH. now apply JSSetFacts.add_NoDup.
Qed.

Lemma NoDup_searchTerm s term acc : NoDup acc -> NoDup (searchTerm s acc term).
Proof.
  unfold searchTerm. intros H.
  assert (H1 : NoDup (fold_left
      (fun a entry => let '(token, userIds) := entry in
         if JSString.includes token term
         then fold_left (fun a' i => JSSet.add i a') userIds a else a)
      (nameIndex s) acc)).
  { revert acc H. induction (nameIndex s) as [| [t ids] names IH]; intros acc H;
      simpl; [assumption |].
    apply IH. destruct (JSString.includes t term); [| assumption].
    now apply NoDup_fold_add. }
  revert H1. generalize (fold_left
      (fun a entry => let '(token, userIds) := entry in
         if JSString.includes token term
         then fold_left (fun a' i => JSSet.add i a') userIds a else a)
      (nameIndex s) acc).
  induction (emailIndex s) as [| [e u] emails IH]; intros acc1 H1; simpl;
    [assumption |].
  apply IH. destruct (JSString.includes e term); [| assumption].
  now apply JSSetFacts.add_NoDup.
Qed.

Lemma NoDup_matchingUserIds query s : NoDup (matchingUserIds query s).
Proof.
  unfold matchingUserIds.
  generalize (JSString.split " " (JSString.toLowerCase query)) as terms.
  intros terms. assert (H : NoDup (@nil string)) by constructor.
  revert H. generalize (@nil string) as acc.
  induction terms as [| t terms IH]; intros acc H; simpl; [assumption |].
  apply IH. now apply NoDup_searchTerm.
Qed.

Lemma filterMap_filter {A B : Type} (f : A -> option B) l :
  filterMap f l =
  filterMap f (filter (fun x => match f x with Some _ => true | None => false end) l).
Proof.
  induction l as [| a l IH]; simpl; [reflexivity |].
  destruct (f a) eqn:E; simpl; [rewrite E |]; now rewrite IH.
Qed.

Lemma filterMap_perm {A B : Type} (f : A -> option B) l l' :
  Permutation l l' -> Permutation (filterMap f l) (filterMap f l').
Proof.
  induction 1 as [| x l l' H IH | x y l | l l' l'' H1 IH1 H2 IH2]; simpl.
  - constructor.
  - destruct (f x); [now constructor | assumption].
  - destruct (f y), (f x); try reflexivity. apply perm_swap.
  - now transitivity (filterMap f l').
Qed.

Lemma filterMap_ext_in {A B : Type} (f g : A -> option B) l :
  (forall x, In x l -> f x = g x) -> filterMap f l = filterMap g l.
Proof.
  induction l as [| a l IH]; intros H; simpl; [reflexivity |].
  rewrite (H a) by now left. rewrite IH; [reflexivity |].
  intros x Hx. apply H. now right.
Qed.

Lemma filterMap_keys {V W : Type} (g : V -> W) (m : JSMap.t V) :
  NoDup (JSMap.keys m) ->
  filterMap (fun i => match JSMap.get i m with
                      | Some v => Some (g v)
                      | None => None
                      end) (JSMap.keys m)
  = map g (JSMap.values m).
Proof.
  induction m as [| [k v] m IH]; intros Hnd; simpl; [reflexivity |].
  inversion Hnd as [| ? ? Hnot Hnd']; subst.
  rewrite String.eqb_refl. f_equal. rewrite <- IH by assumption.
  apply filterMap_ext_in. intros i Hi.
  eqb_cases k i; [contradiction | reflexivity].
Qed.

Lemma getAllUsers_by_keys s :
  UniqueKeys s ->
  getAllUsers s = filterMap (fun i => findUserById i s) (JSMap.keys (users s)).
Proof.
  intros H. unfold getAllUsers, findUserById.
  now rewrite <- (filterMap_keys withoutPassword).
Qed.

(** When every stored identifier has a name bucket, the empty query
    resolves to the primary table, each record once. *)
Lemma searchUsers_empty_perm s :
  UniqueKeys s -> NameCover s ->
  Permutation (searchUsers "" s) (getAllUsers s).
Proof.
  intros Hu Hc. rewrite (getAllUsers_by_keys s Hu). unfold searchUsers.
  rewrite filterMap_filter. apply filterMap_perm.
  apply NoDup_Permutation.
  - apply NoDup_filter, NoDup_matchingUserIds.
  - exact Hu.
  - intros i. rewrite filter_In. unfold findUserById. split.
    + intros [_ H]. destruct (JSMap.get i (users s)) eqn:G; [| discriminate].
      apply JSMapFacts.get_In in G. change i with (fst (i, u)). now apply in_map.
    + intros Hin.
      destruct (JSMap.get i (users s)) as [u |] eqn:G.
      2:{ apply JSMapFacts.get_None_keys in G. contradiction. }
      split; [| reflexivity].
      apply JSSetFacts.has_In. rewrite has_matchingUserIds.
      replace (JSString.split " " (JSString.toLowerCase "")) with [""] by reflexivity.
      simpl. rewrite orb_false_r. apply matchesTermb_spec. left.
      destruct (Hc i u G) as [token Ht]. unfold inBucket in Ht.
      destruct (JSMap.get token (nameIndex s)) as [bucket |] eqn:Gt; [| discriminate].
      exists token, bucket. split; [now apply JSMapFacts.get_In |].
      split; [apply JSStringFacts.includes_empty | now apply JSSetFacts.has_In].
Qed.

Lemma findUserById_record i s u :
  findUserById i s = Some u ->
  exists record, JSMap.get i (users s) = Some record /\ u = withoutPassword record.
Proof.
  unfold findUserById. destruct (JSMap.get i (users s)) as [record |]; [| discriminate].
  intros [= <-]. now exists record.
Qed.

(* ================================================================== *)
(** ** Statistics *)

Lemma spent_fold_compat l : forall a b,
  a == b ->
  fold_left (fun sum u => sum + spentOf u) l a ==
  fold_left (fun sum u => sum + spentOf u) l b.
Proof.
  induction l as [| u l IH]; intros a b H; simpl.
  - assumption.
  - apply IH. now rewrite H.
Qed.

Lemma spent_fold_orderers l : forall acc,
  (forall u, In u l -> hasOrders u = false -> spentOf u == 0) ->
  fold_left (fun sum u => sum + spentOf u) l acc ==
  fold_left (fun sum u => sum + spentOf u) (filter hasOrders l) acc.
Proof.
  induction l as [| u l IH]; intros acc H; simpl.
  - reflexivity.
  - destruct (hasOrders u) eqn:E; simpl.
    + apply IH. intros v Hv. apply H. now right.
    + rewrite (spent_fold_compat l (acc + spentOf u) acc).
      * apply IH. intros v Hv. apply H. now right.
      * rewrite (H u); [ring | now left | assumption].
  Qed.

Lemma sumSpent_orderers l :
  (forall u, In u l -> hasOrders u = false -> spentOf u == 0) ->
  sumSpent l == sumSpent (filter hasOrders l).
Proof. apply spent_fold_orderers. Qed.

Lemma spent_fold_zero l : forall acc,
  (forall u, In u l -> spentOf u == 0) ->
  fold_left (fun sum u => sum + spentOf u) l acc == acc.
Proof.
  induction l as [| u l IH]; intros acc H; simpl.
  - reflexivity.
  - rewrite (spent_fold_compat l (acc + spentOf u) acc).
    + apply IH. intros v Hv. apply H. now right.
    + rewrite (H u); [ring | now left].
Qed.

Lemma sumSpent_zero l :
  (forall u, In u l -> spentOf u == 0) -> sumSpent l == 0.
Proof. apply spent_fold_zero. Qed.

Lemma filter_all {A : Type} (f : A -> bool) l :
  (forall x, In x l -> f x = true) -> filter f l = l.
Proof.
  induction l as [| a l IH]; intros H; simpl.
  - reflexivity.
  - rewrite (H a) by now left. f_equal. apply IH. intros x Hx. apply H. now right.
Qed.

Lemma filter_none {A : Type} (f : A -> bool) l :
  (forall x, In x l -> f x = false) -> filter f l = [].
Proof.
  induction l as [| a l IH]; intros H; simpl.
  - reflexivity.
  - rewrite (H a) by now left. apply IH. intros x Hx. apply H. now right.
Qed.

(** *** A run of creations *)

Lemma users_createAll now creates : forall s,
  NoDup (map fst creates) ->
  (forall i, In i (map fst creates) -> JSMap.has i (users s) = false) ->
  (JSMap.size (users s) + length creates <= MAX_USERS)%nat ->
  users (run (createAll now creates) s) =
  users s ++ map (fun p => (fst p, newUser (fst p) now (snd p))) creates.
Proof.
  induction creates as [| [i d] creates IH]; intros s Hnd Hfresh Hsize; simpl in *.
  - now rewrite app_nil_r.
  - inversion Hnd as [| ? ? Hnot Hnd']; subst.
    rewrite createUser_below by lia. cbn [snd].
    rewrite IH.
    + cbn [users updateIndexes]. rewrite JSMapFacts.set_new by auto.
      now rewrite <- app_assoc.
    + assumption.
    + intros j Hj. cbn [users updateIndexes]. rewrite JSMapFacts.has_set.
      rewrite Hfresh by auto. eqb_cases i j; [contradiction | reflexivity].
    + cbn [users updateIndexes]. rewrite JSMapFacts.size_set_new by auto. lia.
Qed.

Lemma getAllUsers_createAll now creates :
  NoDup (map fst creates) ->
  (length creates <= MAX_USERS)%nat ->
  getAllUsers (run (createAll now creates) emptyStore) =
  map (fun p => withoutPassword (newUser (fst p) now (snd p))) creates.
Proof.
  intros Hnd Hlen. unfold getAllUsers, JSMap.values.
  rewrite users_createAll; auto.
  simpl. rewrite !map_map. reflexivity.
Qed.

(* ================================================================== *)
(** ** CSV import *)

Section ImportFacts.
Variable genId : nat -> string.
Variable clock : nat -> Z.

(** A line is either short, or counted once: as imported or with one
    message. *)
Lemma importLine_account i line s r :
  let '(s', r') := importLine genId clock i line (s, r) in
  if shortLine line then (s', r') = (s, r)
  else (imported r' + length (errors r') = S (imported r + length (errors r)))%nat.
Proof.
  unfold importLine, shortLine.
  destruct (length (JSString.split "," line) <? 3)%nat; [reflexivity |].
  destruct (_ || _); [simpl; rewrite length_app; simpl; lia |].
  destruct (JSMap.has _ _); [simpl; rewrite length_app; simpl; lia |].
  destruct (createUser _ _ _ _) as [[u | msg] s']; simpl.
  - lia.
  - rewrite length_app. simpl. lia.
Qed.

Lemma importLines_account lines : forall i s r,
  let '(s', r') := importLines genId clock i lines (s, r) in
  (imported r' + length (errors r') + length (filter shortLine lines)
   = imported r + length (errors r) + length lines)%nat.
Proof.
  induction lines as [| line lines IH]; intros i s r;
    cbn [importLines filter length].
  - lia.
  - pose proof (importLine_account i line s r) as H1.
    destruct (importLine genId clock i line (s, r)) as [s1 r1].
    pose proof (IH (S i) s1 r1) as H2.
    destruct (importLines genId clock (S i) lines (s1, r1)) as [s2 r2].
    revert H1. destruct (shortLine line); simpl; intros H1.
    + injection H1 as -> ->. lia.
    + lia.
Qed.

Lemma importLine_short i line acc :
  shortLine line = true -> importLine genId clock i line acc = acc.
Proof.
  unfold importLine, shortLine. destruct acc as [s r]. now intros ->.
Qed.

Lemma importLine_missing i line s r :
  shortLine line = false ->
  JSString.removeAll quote (nth 2 (JSString.split "," line) "") = ""
  \/ JSString.removeAll quote (nth 1 (JSString.split "," line) "") = "" ->
  importLine genId clock i line (s, r) =
  (s, {| imported := imported r;
         errors := errors r ++ [(lineLabel i ++ "Missing required fields")%string] |}).
Proof.
  unfold importLine, shortLine. intros -> H.
  destruct H as [-> | ->]; simpl; [reflexivity |].
  now rewrite orb_true_r.
Qed.

Lemma importLine_duplicate i line s r :
  shortLine line = false ->
  JSMap.has (JSString.removeAll quote (nth 2 (JSString.split "," line) ""))
            (emailIndex s) = true ->
  exists message,
    importLine genId clock i line (s, r) =
    (s, {| imported := imported r;
           errors := errors r ++ [(lineLabel i ++ message)%string] |}).
Proof.
  unfold importLine, shortLine. intros -> H.
  destruct (_ || _); [now eexists |].
  rewrite H. now eexists.
Qed.

End ImportFacts.

(* ================================================================== *)
(** ** Backup rotation *)

Module OrderFacts.

Lemma ascii_compare_refl a : Ascii.compare a a = Eq.
Proof. unfold Ascii.compare. apply N.compare_refl. Qed.

Lemma compare_refl s : String.compare s s = Eq.
Proof. induction s; simpl; [reflexivity | now rewrite ascii_compare_refl]. Qed.





Lemma prefix_app p s : String.prefix p (p ++ s) = true.
Proof.
  induction p as [| a p IH]; simpl.
  - now destruct s.
  - destruct (ascii_dec a a); [assumption | contradiction].
Qed.












Lemma backupKey_prefix t : JSString.startsWith (backupKey t) BACKUP_PREFIX = true.
Proof. apply prefix_app. Qed.

End OrderFacts.

Module RotationFacts.
Import OrderFacts.

(** *** Sorting *)


Lemma insert_perm x l : Permutation (JSString.insert x l) (x :: l).
Proof.
  induction l as [| y l IH]; simpl.
  - reflexivity.
  - destruct (String.leb x y); [reflexivity |].
    rewrite IH. apply perm_swap.
Qed.

Lemma sort_perm l : Permutation (JSString.sort l) l.
Proof.
  induction l as [| x l IH]; simpl; [constructor |].
  rewrite insert_perm. now constructor.
Qed.










(** *** Filtering *)




(** *** The backup keys of the storage *)






(** *** One clean-up and one snapshot *)





(** *** Several snapshots *)



End RotationFacts.

(* ================================================================== *)
(** ** The keys that a clean-up keeps, by clock reading *)

Module RecencyFacts.
Import OrderFacts RotationFacts.














End RecencyFacts.

(* ================================================================== *)
(** ** The properties of the specification *)

(** *** C1: email index and primary table *)

(** C1, as stated, fails: [createUser] does not look the email up, so two
    creations with one email, the second written with capitals, leave the
    first record with an email that the index maps to the second record. *)
Lemma duplicate_create_breaks_agreement :
  ~ EmailAgree (run duplicateOps emptyStore).
Proof.
  intros [_ H].
  assert (G : JSMap.get "u1" (users (run duplicateOps emptyStore)) =
              Some (newUser "u1" 100
                      (sampleData "anita@example.com" "Anita Sharma" None)))
    by (vm_compute; reflexivity).
  apply H in G. vm_compute in G. discriminate.
Qed.

(** The look-up of the email as written does not prevent it. *)
Lemma duplicate_passes_raw_lookup :
  follows (fun s op => freshId s op && emailLookedUp s op) emptyStore duplicateOps
  = true.
Proof. reflexivity. Qed.

(** [importUsers] itself reaches such a store: it looks the email up as it
    is written in the row, and [createUser] normalizes it afterwards. *)
Lemma import_duplicates_email_in_capitals :
  let result := importUsers sampleGenId sampleClock csvCapitals emptyStore in
  fst result = {| imported := 2%nat; errors := [] |}
  /\ emailIndex (snd result) = [("anita@example.com", "user_2")]
  /\ map (fun p => email (snd p)) (users (snd result))
     = ["anita@example.com"; "anita@example.com"]
  /\ ~ EmailAgree (snd result).
Proof.
  cbv zeta. repeat split; try (vm_compute; reflexivity).
  intros [_ H].
  assert (G : exists u, JSMap.get "user_1"
                (users (snd (importUsers sampleGenId sampleClock csvCapitals
                               emptyStore))) = Some u
              /\ email u = "anita@example.com").
  { eexists. split; [vm_compute; reflexivity | reflexivity]. }
  destruct G as [u [G E]]. apply H in G. rewrite E in G.
  vm_compute in G. discriminate.
Qed.

(** C1, amended: after any sequence of operations from the empty store in
    which every creation uses an unused identifier and an email that is not
    yet a key of the email index, and every email passed to an update is
    non-empty and in normalized form, every entry of the email index
    resolves to a record whose normalized email is the key, and the email
    of every record is mapped to the identifier of that record. *)
Theorem email_index_agrees (ops : list Op) :
  follows emailDiscipline emptyStore ops = true ->
  EmailAgree (run ops emptyStore).
Proof.
  intros H. apply EmailInv_agree.
  apply (run_follows emailDiscipline EmailInv); auto using EmailInv_empty.
  apply EmailInv_step.
Qed.

Lemma email_index_agrees_witness :
  follows emailDiscipline emptyStore sampleOps = true
  /\ EmailAgree (run sampleOps emptyStore).
Proof.
  split; [reflexivity | apply (email_index_agrees sampleOps); reflexivity].
Defined.

(** The discipline on the emails of updates is needed: [updateUser]
    indexes the normalized email and stores the email as it was passed,
    and [deleteUser] removes the stored email from the index, so the entry
    of a record updated with capitals outlives the record. *)
Lemma capitals_leave_dangling_entry :
  let s := run capitalsOps emptyStore in
  users s = []
  /\ emailIndex s = [("anita.sharma@example.com", "u1")].
Proof. cbv zeta. split; vm_compute; reflexivity. Qed.

(** *** C2: creation at capacity *)

(** C2: in a store of exactly [MAX_USERS] records, [createUser] throws the
    capacity error and the store, all four maps of it, is the one it was
    given. *)
Theorem createUser_at_capacity (s : Store) (userId : string) (now : Z)
    (userData : UserData) :
  getUserCount s = MAX_USERS ->
  createUser userId now userData s =
  (Throw "Maximum user limit reached (1000)", s).
Proof.
  unfold createUser, getUserCount. intros ->.
  rewrite Nat.leb_refl. reflexivity.
Qed.

Lemma createUser_at_capacity_witness :
  getUserCount fullStore = MAX_USERS
  /\ createUser "user_new" 5000 (sampleData "new@example.com" "New User" None)
       fullStore
     = (Throw "Maximum user limit reached (1000)", fullStore).
Proof.
  assert (H : getUserCount fullStore = MAX_USERS) by (vm_compute; reflexivity).
  split; [exact H | exact (createUser_at_capacity fullStore _ _ _ H)].
Defined.

(** *** C3: email conflict on update *)

(** C3, as stated, fails: the conflict test reads the email index, not the
    primary table.  Here "u2" and "u3" are two records, the email of "u2" is
    not a key of the index, and the update of "u3" to that email returns
    normally and changes the email of "u3". *)
Lemma update_to_unindexed_email_succeeds :
  let s := run unindexedOps emptyStore in
  let e := "anita@example.com" in
  (exists A B, JSMap.get "u3" (users s) = Some A
               /\ JSMap.get "u2" (users s) = Some B
               /\ email B = e /\ email A <> e)
  /\ updateUser "u3" (emailUpdate e) s <> (Throw "Email already exists", s)
  /\ (exists A', JSMap.get "u3" (users (snd (updateUser "u3" (emailUpdate e) s)))
                 = Some A' /\ email A' = e).
Proof.
  cbv zeta. split; [| split].
  - eexists. eexists. split; [vm_compute; reflexivity |].
    split; [vm_compute; reflexivity |].
    split; [reflexivity | vm_compute; discriminate].
  - vm_compute. discriminate.
  - eexists. split; [vm_compute; reflexivity | reflexivity].
Qed.

(** C3, amended: for two distinct records A and B such that the email of B
    is non-empty, differs from the stored email of A, and has its
    normalized form among the keys of the email index, updating the email
    of A to the email of B throws the conflict error and leaves the whole
    store, hence both records and all indexes, as it was. *)
Theorem updateUser_email_conflict (s : Store) (a b : string) (A B : User)
    (updates : PartialUser) :
  JSMap.get a (users s) = Some A ->
  JSMap.get b (users s) = Some B ->
  a <> b ->
  p_email updates = Some (email B) ->
  email B <> "" ->
  email B <> email A ->
  JSMap.has (normalizeEmail (email B)) (emailIndex s) = true ->
  updateUser a updates s = (Throw "Email already exists", s).
Proof.
  intros HA HB Hab Hupd Hne Hdiff Hidx. unfold updateUser.
  rewrite HA, Hupd. simpl.
  rewrite (proj2 (String.eqb_neq (email B) "")) by assumption.
  rewrite (proj2 (String.eqb_neq (email B) (email A))) by assumption.
  simpl. now rewrite Hidx.
Qed.

Lemma updateUser_email_conflict_witness :
  let s := run sampleOps emptyStore in
  updateUser "u3" (emailUpdate "rohan.sharma@example.com") s
  = (Throw "Email already exists", s).
Proof.
  cbv zeta.
  eapply (updateUser_email_conflict (run sampleOps emptyStore) "u3" "u2").
  - vm_compute. reflexivity.
  - vm_compute. reflexivity.
  - discriminate.
  - reflexivity.
  - discriminate.
  - discriminate.
  - vm_compute. reflexivity.
Defined.

(** The email must be non-empty: an empty string fails the test
    [updates.email && ...], so no conflict is looked for and both records
    end with the empty email. *)
Lemma update_to_empty_email_succeeds :
  let s := run blankEmailOps emptyStore in
  (exists B, JSMap.get "u1" (users s) = Some B /\ email B = "")
  /\ exists A', fst (updateUser "u2" (emailUpdate "") s) = Return (Some A')
                /\ email A' = "".
Proof.
  cbv zeta. split.
  - eexists. split; [vm_compute; reflexivity | reflexivity].
  - eexists. split; [vm_compute; reflexivity | reflexivity].
Qed.

(** *** C4: the role index *)

(** C4: after any sequence of operations in which [generateUserId] yields
    unused identifiers and the roles passed to [updateUser] are strings of
    the role type, every record of the primary table is in the bucket of
    its current role and in no other bucket. *)
Theorem role_index_partition (ops : list Op) :
  follows roleDiscipline emptyStore ops = true ->
  RolePartition (run ops emptyStore).
Proof.
  intros H. destruct (RoleInv_run ops H) as [_ Hr].
  intros i u G r. rewrite (Hr r i). split.
  - intros [u' [G' E]]. rewrite G in G'. injection G' as <-.
    symmetry. now apply String.eqb_eq.
  - intros ->. exists u. split; [assumption | apply String.eqb_refl].
Qed.

Lemma role_index_partition_witness :
  follows roleDiscipline emptyStore sampleOps = true
  /\ RolePartition (run sampleOps emptyStore).
Proof.
  split; [reflexivity | apply (role_index_partition sampleOps); reflexivity].
Defined.

(** *** C5: the statistics *)

(** C5, as stated, fails: the numerator of [averageOrderValue] is the spend
    of all users, not only of those with an order.  One user with a spend
    of 100 and no order gives 100, where the average among the users with
    at least one order is 0. *)
Lemma average_counts_spend_without_orders :
  let s := run spendOps emptyStore in
  averageOrderValue (getStats 500%Z s) == 100
  /\ averageSpendAmongOrderers (getAllUsers s) == 0
  /\ ~ averageOrderValue (getStats 500%Z s) == averageSpendAmongOrderers (getAllUsers s).
Proof.
  cbv zeta. split; [| split].
  - vm_compute. reflexivity.
  - vm_compute. reflexivity.
  - vm_compute. discriminate.
Qed.

(** C5, amended: [averageOrderValue] is the total spend of all users
    divided by the number of users with at least one order, that number
    taken as at least 1; it is the average spend among the users with an
    order whenever no user without an order has a spend.  Ten users created
    at the clock reading at which the statistics are taken give
    [newUsersThisWeek = 10] and [averageOrderValue == 0]. *)
Theorem getStats_average :
  (forall now s,
     averageOrderValue (getStats now s) ==
     totalRevenue (getStats now s)
     / inject_Z (Z.max (Z.of_nat (usersWithOrders (getStats now s))) 1))
  /\ (forall now s,
        (forall u, In u (getAllUsers s) -> hasOrders u = false -> spentOf u == 0) ->
        averageOrderValue (getStats now s) ==
        averageSpendAmongOrderers (getAllUsers s))
  /\ (forall now creates,
        length creates = 10%nat ->
        NoDup (map fst creates) ->
        let s := run (createAll now creates) emptyStore in
        newUsersThisWeek (getStats now s) = 10%nat
        /\ averageOrderValue (getStats now s) == 0).
Proof.
  split; [| split].
  - intros now s. reflexivity.
  - intros now s H. unfold getStats, averageSpendAmongOrderers. cbn [averageOrderValue].
    now rewrite (sumSpent_orderers _ H).
  - intros now creates Hlen Hnd s.
    assert (Hall : getAllUsers s =
                   map (fun p => withoutPassword (newUser (fst p) now (snd p))) creates).
    { apply getAllUsers_createAll; [assumption |]. rewrite Hlen. unfold MAX_USERS. lia. }
    unfold getStats. cbn [newUsersThisWeek averageOrderValue]. rewrite Hall. split.
    + rewrite filter_all.
      * now rewrite length_map.
      * intros u Hu. apply in_map_iff in Hu as [p [<- _]]. simpl.
        apply Z.ltb_lt. unfold WEEK_MS. lia.
    + rewrite sumSpent_zero.
      * reflexivity.
      * intros u Hu. apply in_map_iff in Hu as [p [<- _]]. reflexivity.
Qed.

Lemma getStats_average_witness :
  averageOrderValue (getStats 500%Z (run sampleOps emptyStore)) ==
  averageSpendAmongOrderers (getAllUsers (run sampleOps emptyStore))
  /\ newUsersThisWeek (getStats 700%Z (run (createAll 700%Z tenCreates) emptyStore)) = 10%nat
  /\ averageOrderValue (getStats 700%Z (run (createAll 700%Z tenCreates) emptyStore)) == 0.
Proof.
  split.
  - apply (proj1 (proj2 getStats_average) 500%Z (run sampleOps emptyStore)).
    intros u Hu _. vm_compute in Hu.
    destruct Hu as [<- | [<- | []]]; reflexivity.
  - apply (proj2 (proj2 getStats_average) 700%Z tenCreates).
    + reflexivity.
    + vm_compute. repeat constructor; simpl; intuition discriminate.
Defined.

(** *** C6: the CSV import *)

(** C6, as stated, fails: a row with fewer than three fields is skipped
    without a message.  A header and three rows, the second of which stops
    before the email field, import two records and report no error. *)
Lemma truncated_row_reports_nothing :
  let r := fst (importUsers sampleGenId sampleClock csvTruncated emptyStore) in
  imported r = 2%nat /\ errors r = [] /\ length (errors r) <> 1%nat.
Proof.
  cbv zeta. repeat split; try (vm_compute; reflexivity).
  vm_compute. discriminate.
Qed.

(** C6, amended: every line after the header is handled on its own and the
    import always returns a count and a list of messages.  A line with
    fewer than three fields is skipped without a message; a line with
    three fields or more whose email or name is empty once the quotes are
    removed, or whose email is a key of the email index, leaves the store
    as it is and adds one message that starts with its line number; every
    other line is counted as imported or adds one message.  A header and
    three rows, one of them with an empty email field, give two imported
    records and the single message of line 3. *)
Theorem importUsers_accounts (genId : nat -> string) (clock : nat -> Z) :
  (forall csvData s,
     let r := fst (importUsers genId clock csvData s) in
     let rows := tl (JSString.split newline csvData) in
     (imported r + length (errors r) + length (filter shortLine rows)
      = length rows)%nat)
  /\ (forall i line acc,
        shortLine line = true -> importLine genId clock i line acc = acc)
  /\ (forall i line s r,
        shortLine line = false ->
        JSString.removeAll quote (nth 2 (JSString.split "," line) "") = ""
        \/ JSString.removeAll quote (nth 1 (JSString.split "," line) "") = ""
        \/ JSMap.has (JSString.removeAll quote (nth 2 (JSString.split "," line) ""))
                     (emailIndex s) = true ->
        exists message,
          importLine genId clock i line (s, r) =
          (s, {| imported := imported r;
                 errors := errors r ++ [(lineLabel i ++ message)%string] |}))
  /\ fst (importUsers sampleGenId sampleClock csvEmptyEmail emptyStore)
     = {| imported := 2%nat; errors := ["Line 3: Missing required fields"] |}.
Proof.
  split; [| split; [| split]].
  - intros csvData s. unfold importUsers. cbv zeta.
    pose proof (importLines_account genId clock
                  (tl (JSString.split newline csvData)) 1 s
                  {| imported := 0; errors := [] |}) as H.
    destruct (importLines genId clock 1 (tl (JSString.split newline csvData))
                (s, {| imported := 0; errors := [] |})) as [s' r'].
    simpl in *. lia.
  - intros i line acc. apply importLine_short.
  - intros i line s r Hlong [H | [H | H]].
    + eexists. apply importLine_missing; auto.
    + eexists. apply importLine_missing; auto.
    + now apply importLine_duplicate.
  - vm_compute. reflexivity.
Qed.

Lemma importUsers_accounts_witness :
  exists message,
    importLine sampleGenId sampleClock 2%nat "2,Rohan Sharma,,user"
      (emptyStore, {| imported := 1%nat; errors := [] |})
    = (emptyStore,
       {| imported := 1%nat; errors := [] ++ [(lineLabel 2%nat ++ message)%string] |}).
Proof.
  apply (proj1 (proj2 (proj2 (importUsers_accounts sampleGenId sampleClock)))
           2%nat "2,Rohan Sharma,,user" emptyStore {| imported := 1%nat; errors := [] |}).
  - reflexivity.
  - left. reflexivity.
Defined.

(** *** C7: the derived indexes and their rebuild *)

(** C7, as stated, fails: a change of role leaves the emptied bucket of the
    old role in the role index, and the rebuild has no such bucket. *)
Lemma emptied_bucket_survives :
  let s := run roleChangeOps emptyStore in
  follows indexDiscipline emptyStore roleChangeOps = true
  /\ JSMap.get "user" (roleIndex s) = Some []
  /\ JSMap.get "user" (roleIndex (buildIndexes s)) = None
  /\ roleIndex s <> roleIndex (buildIndexes s).
Proof.
  cbv zeta. repeat split; try (vm_compute; reflexivity).
  vm_compute. discriminate.
Qed.

(** The names must be left alone: [updateUser] stores a new name without
    touching the name-token index, so the tokens of the old name stay and
    those of the new name are missing until the next rebuild. *)
Lemma rename_not_reindexed :
  let s := run renameOps emptyStore in
  inBucket (nameIndex s) "sharma" "u1" = true
  /\ inBucket (nameIndex (buildIndexes s)) "sharma" "u1" = false
  /\ inBucket (nameIndex s) "nair" "u1" = false
  /\ inBucket (nameIndex (buildIndexes s)) "nair" "u1" = true.
Proof. cbv zeta. repeat split; vm_compute; reflexivity. Qed.

(** C7, amended: the rebuild is the incremental step [updateIndexes]
    applied to every record from empty indexes; and in every store reached
    by operations that create under unused identifiers, pass typed roles
    and leave the names to [createUser], the role index and the name-token
    index have the same members under every key as the rebuilt ones (a
    bucket that has become empty counts as a missing bucket). *)
Theorem derived_indexes_match_rebuild (ops : list Op) :
  follows indexDiscipline emptyStore ops = true ->
  let s := run ops emptyStore in
  buildIndexes s = fold_left rebuildStep (users s) (clearedIndexes s)
  /\ sameMembers (roleIndex s) (roleIndex (buildIndexes s))
  /\ sameMembers (nameIndex s) (nameIndex (buildIndexes s)).
Proof.
  intros H s. destruct (Derived_run ops H) as (Hu & Hr & Hn). fold s in Hu, Hr, Hn.
  pose proof (buildIndexes_RoleInv s Hu) as Hr'.
  pose proof (buildIndexes_NameInv s Hu) as Hn'.
  unfold RoleInv, NameInv in *. rewrite buildIndexes_users in Hr', Hn'.
  split; [apply buildIndexes_incremental |].
  split; intros key i.
  - apply eq_true_iff_eq. now rewrite (Hr key i), (Hr' key i).
  - apply eq_true_iff_eq. now rewrite (Hn key i), (Hn' key i).
Qed.

Lemma derived_indexes_match_rebuild_witness :
  let s := run sampleOps emptyStore in
  buildIndexes s = fold_left rebuildStep (users s) (clearedIndexes s)
  /\ sameMembers (roleIndex s) (roleIndex (buildIndexes s))
  /\ sameMembers (nameIndex s) (nameIndex (buildIndexes s)).
Proof. apply (derived_indexes_match_rebuild sampleOps). reflexivity. Defined.

(** *** C8: rotation of the backups *)





(** *** C9: search *)

Lemma TermsOf_split q : TermsOf q (JSString.split " " q).
Proof.
  split; [apply JSStringFacts.split_not_nil |]. split.
  - eapply Forall_impl; [| apply (SplitFacts.split_pieces " " q)].
    intros t. apply SplitFacts.lacks_iff.
  - apply SplitFacts.concat_split.
Qed.

Lemma TermsOf_unique q terms : TermsOf q terms -> terms = JSString.split " " q.
Proof.
  intros (Hn & Hf & <-). symmetry. apply SplitFacts.split_concat; [assumption |].
  eapply Forall_impl; [| exact Hf]. intros t. apply SplitFacts.lacks_iff.
Qed.

Lemma matchesTerm_reaches s term userId :
  matchesTerm s term userId <-> reaches s term userId.
Proof.
  unfold matchesTerm, reaches. split.
  - intros [(t & ids & Hin & H1 & H2) | (e & Hin & H1)].
    + left. exists t, ids. repeat split; auto. now apply SplitFacts.includes_iff.
    + right. exists e. split; [assumption |]. now apply SplitFacts.includes_iff.
  - intros [(t & ids & Hin & H1 & H2) | (e & Hin & H1)].
    + left. exists t, ids. repeat split; auto. now apply SplitFacts.includes_iff.
    + right. exists e. split; [assumption |]. now apply SplitFacts.includes_iff.
Qed.

Lemma strippedOf_iff record u : strippedOf record u <-> u = withoutPassword record.
Proof.
  unfold strippedOf. split.
  - destruct u, record; cbn. intros (-> & -> & -> & -> & -> & -> & -> & -> & ->).
    reflexivity.
  - intros ->. cbn. repeat split; reflexivity.
Qed.

(** The claim as it is worded fails: with three accounts, the query
    "Nair  zzz", written with two spaces, has the terms "nair" and "zzz"
    when white space delimits them, and one record has a name token or an
    email that contains one of them; [searchUsers] splits at each space,
    finds the empty term between the two and returns all three records.  A
    tab, in turn, separates nothing: "anita", a tab and "zzz" are one term
    for [searchUsers], which no key contains. *)
Lemma search_splits_at_single_spaces :
  let s := run searchOps emptyStore in
  let anita := withoutPassword
                 (newUser "u1" 100 (sampleData "anita@example.com" "Anita Sharma" None)) in
  let rohan := withoutPassword
                 (newUser "u2" 200 (sampleData "rohan@example.com" "Rohan Sharma" None)) in
  let kavya := withoutPassword
                 (newUser "u3" 300 (sampleData "kavya@example.com" "Kavya Nair" None)) in
  let tabbed := ("anita" ++ String (ascii_of_nat 9) "zzz")%string in
  whitespaceTerms (JSString.toLowerCase "Nair  zzz") = ["nair"; "zzz"]
  /\ searchByWhitespace "Nair  zzz" s = [kavya]
  /\ searchUsers "Nair  zzz" s = [kavya; anita; rohan]
  /\ searchByWhitespace tabbed s = [anita]
  /\ searchUsers tabbed s = [].
Proof. vm_compute. repeat split; reflexivity. Qed.

(** C9: the terms of a query are the pieces that single spaces delimit in
    the lower-cased query: there is exactly one list of strings without a
    space that gives it back when joined with one space between
    neighbours.  [searchUsers] returns exactly the records, without their
    passwords, that are stored under an identifier that one of the terms
    reaches: through a key of the name-token index that contains the term
    and holds the identifier, or through a key of the email index that
    contains the term and maps to the identifier.  With "Anita Sharma" and
    "Rohan Sharma" created in this order, the email of the second without
    "anita" in it, "sharma" returns both records and "anita" the first
    only. *)
Theorem searchUsers_union :
  (forall query, exists terms,
     TermsOf (JSString.toLowerCase query) terms
     /\ forall terms', TermsOf (JSString.toLowerCase query) terms' -> terms' = terms)
  /\ (forall query terms s u,
        TermsOf (JSString.toLowerCase query) terms ->
        (In u (searchUsers query s) <->
         exists term userId record,
           In term terms
           /\ reaches s term userId
           /\ JSMap.get userId (users s) = Some record
           /\ strippedOf record u))
  /\ (forall (i1 i2 : string) (t1 t2 : Z) (e1 e2 p1 p2 : string)
             (r1 r2 : option string),
        i1 <> i2 ->
        JSString.includes (normalizeEmail e2) "anita" = false ->
        let d1 := {| d_email := e1; d_name := "Anita Sharma";
                     d_password := p1; d_role := r1 |} in
        let d2 := {| d_email := e2; d_name := "Rohan Sharma";
                     d_password := p2; d_role := r2 |} in
        let s := run [OpCreate i1 t1 d1; OpCreate i2 t2 d2] emptyStore in
        let anita := withoutPassword (newUser i1 t1 d1) in
        let rohan := withoutPassword (newUser i2 t2 d2) in
        getAllUsers s = [anita; rohan]
        /\ searchUsers "sharma" s = [anita; rohan]
        /\ searchUsers "anita" s = [anita]).
Proof.
  split; [| split].
  - intros query. exists (JSString.split " " (JSString.toLowerCase query)).
    split; [apply TermsOf_split | apply TermsOf_unique].
  - intros query terms s u Ht. apply TermsOf_unique in Ht. subst terms.
    rewrite In_searchUsers. split.
    + intros (term & userId & Hin & Hm & Hf).
      apply findUserById_record in Hf as (record & G & ->).
      exists term, userId, record. split; [assumption |].
      split; [now apply matchesTerm_reaches |].
      split; [assumption | now apply strippedOf_iff].
    + intros (term & userId & record & Hin & Hr & G & Hs).
      exists term, userId. split; [assumption |].
      split; [now apply matchesTerm_reaches |].
      apply strippedOf_iff in Hs. subst u. unfold findUserById. now rewrite G.
  - intros i1 i2 t1 t2 e1 e2 p1 p2 r1 r2 Hne Hinc d1 d2 s anita rohan.
    split; [| split].
    + unfold getAllUsers. subst s d1 d2.
      rewrite (sharmas_users i1 i2 t1 t2 e1 e2 p1 p2 r1 r2 Hne). reflexivity.
    + apply (sharmas_search_sharma i1 i2 t1 t2 e1 e2 p1 p2 r1 r2 Hne).
    + apply (sharmas_search_anita i1 i2 t1 t2 e1 e2 p1 p2 r1 r2 Hne Hinc).
Qed.

Lemma searchUsers_union_witness :
  let d1 := sampleData "anita@example.com" "Anita Sharma" None in
  let d2 := sampleData "rohan@example.com" "Rohan Sharma" (Some "admin") in
  let s := run [OpCreate "u1" 100 d1; OpCreate "u2" 200 d2] emptyStore in
  (getAllUsers s = [withoutPassword (newUser "u1" 100 d1);
                    withoutPassword (newUser "u2" 200 d2)]
   /\ searchUsers "sharma" s = [withoutPassword (newUser "u1" 100 d1);
                                withoutPassword (newUser "u2" 200 d2)]
   /\ searchUsers "anita" s = [withoutPassword (newUser "u1" 100 d1)])
  /\ (In (withoutPassword (newUser "u2" 200 d2)) (searchUsers "zzz  Han@" s) <->
      exists term userId record,
        In term ["zzz"; ""; "han@"]
        /\ reaches s term userId
        /\ JSMap.get userId (users s) = Some record
        /\ strippedOf record (withoutPassword (newUser "u2" 200 d2))).
Proof.
  split.
  - apply (proj2 (proj2 searchUsers_union) "u1" "u2" 100%Z 200%Z
             "anita@example.com" "rohan@example.com" "secret1" "secret1"
             None (Some "admin")).
    + discriminate.
    + reflexivity.
  - apply (proj1 (proj2 searchUsers_union) "zzz  Han@" ["zzz"; ""; "han@"]).
    split; [discriminate |]. split; [| reflexivity].
    repeat constructor; apply SplitFacts.lacks_iff; reflexivity.
Defined.

(** *** C10: the empty query *)

(** C10: in every store reached from the empty store, the search for the
    empty string returns the records of the primary table, each once and
    each without its password: there are as many results as records, every
    record of the table has a result that carries no password and agrees
    with it in every other field, every result is such a copy of a record
    of the table, and the result is a permutation of [getAllUsers]. *)
Theorem search_empty_query_returns_all (ops : list Op) :
  let s := run ops emptyStore in
  length (searchUsers "" s) = JSMap.size (users s)
  /\ (forall userId record, JSMap.get userId (users s) = Some record ->
        exists u, In u (searchUsers "" s) /\ strippedOf record u)
  /\ (forall u, In u (searchUsers "" s) ->
        exists userId record, JSMap.get userId (users s) = Some record
                              /\ strippedOf record u)
  /\ Permutation (searchUsers "" s) (getAllUsers s)
  /\ forall u, In u (getAllUsers s) <-> In u (searchUsers "" s).
Proof.
  intros s.
  assert (Hu : UniqueKeys s) by apply UniqueKeys_run, UniqueKeys_empty.
  pose proof (NameCover_run ops) as Hc. fold s in Hc.
  pose proof (searchUsers_empty_perm s Hu Hc) as Hp.
  assert (Hs : forall record, strippedOf record (withoutPassword record)).
  { intros record. unfold strippedOf. cbn. repeat split; reflexivity. }
  split; [| split; [| split; [| split]]].
  - rewrite (Permutation_length Hp). unfold getAllUsers, JSMap.values, JSMap.size.
    now rewrite !length_map.
  - intros userId record G. exists (withoutPassword record). split; [| apply Hs].
    apply (Permutation_in _ (Permutation_sym Hp)). unfold getAllUsers, JSMap.values.
    apply in_map, (in_map snd _ (userId, record)). now apply JSMapFacts.get_In.
  - intros u Hin. apply (Permutation_in _ Hp) in Hin.
    unfold getAllUsers, JSMap.values in Hin.
    apply in_map_iff in Hin as (record & <- & Hin).
    apply in_map_iff in Hin as ([userId record'] & E & Hin). cbn in E. subst record'.
    exists userId, record. split; [| apply Hs].
    now apply JSMapFacts.In_get.
  - assumption.
  - intros u. split; apply Permutation_in; [symmetry |]; assumption.
Qed.

Lemma search_empty_query_returns_all_witness :
  length (searchUsers "" (run sampleOps emptyStore)) = 2%nat
  /\ exists u, In u (searchUsers "" (run sampleOps emptyStore)) /\ strippedOf rohan u.
Proof.
  split.
  - exact (proj1 (search_empty_query_returns_all sampleOps)).
  - apply (proj1 (proj2 (search_empty_query_returns_all sampleOps)) "u2").
    vm_compute. reflexivity.
Defined.

(* ================================================================== *)
(** ** Further facts about maps *)

Module JSMapMore.
Import JSMapFacts.

Section More.
Context {V : Type}.
Implicit Types (m : JSMap.t V) (k : string) (v : V).

Lemma size_set k v m :
  JSMap.size (JSMap.set k v m) =
  if JSMap.has k m then JSMap.size m else S (JSMap.size m).
Proof.
  unfold JSMap.has, JSMap.size. induction m as [| [k0 v0] m IH]; simpl.
  - reflexivity.
  - eqb_cases k0 k; simpl; [reflexivity |].
    rewrite IH. now destruct (JSMap.get k m).
Qed.

Lemma delete_absent k m : JSMap.has k m = false -> JSMap.delete k m = m.
Proof.
  unfold JSMap.has, JSMap.delete. induction m as [| [k0 v0] m IH]; simpl.
  - reflexivity.
  - eqb_cases k0 k; simpl; [discriminate |]. intros H. now rewrite IH.
Qed.

Lemma delete_set_new k v m :
  JSMap.has k m = false -> JSMap.delete k (JSMap.set k v m) = m.
Proof.
  intros H. rewrite set_new by assumption. unfold JSMap.delete.
  rewrite filter_app. simpl. rewrite String.eqb_refl. simpl.
  rewrite app_nil_r. now apply delete_absent.
Qed.

Lemma set_same k v m : JSMap.get k m = Some v -> JSMap.set k v m = m.
Proof.
  induction m as [| [k0 v0] m IH]; simpl; [discriminate |].
  eqb_cases k0 k.
  - now intros [= ->].
  - intros H. now rewrite IH.
Qed.

Lemma set_set k v w m : JSMap.set k v (JSMap.set k w m) = JSMap.set k v m.
Proof.
  induction m as [| [k0 v0] m IH]; simpl.
  - now rewrite String.eqb_refl.
  - eqb_cases k0 k; simpl.
    + now rewrite String.eqb_refl.
    + rewrite (proj2 (String.eqb_neq k0 k)) by assumption. now rewrite IH.
Qed.

Lemma size_delete k m :
  NoDup (JSMap.keys m) ->
  JSMap.size (JSMap.delete k m) =
  if JSMap.has k m then pred (JSMap.size m) else JSMap.size m.
Proof.
  unfold JSMap.has, JSMap.size, JSMap.delete.
  induction m as [| [k0 v0] m IH]; simpl; intros Hnd.
  - reflexivity.
  - inversion Hnd as [| ? ? Hnot Hnd']; subst.
    eqb_cases k0 k; simpl.
    + apply get_None_keys in Hnot.
      pose proof (delete_absent k m) as H. unfold JSMap.has, JSMap.delete in H.
      rewrite H; [reflexivity | now rewrite Hnot].
    + rewrite IH by assumption.
      destruct (JSMap.get k m) eqn:G; [| reflexivity].
      destruct m; [discriminate | reflexivity].
Qed.

Lemma keys_set_existing k v m :
  JSMap.has k m = true -> JSMap.keys (JSMap.set k v m) = JSMap.keys m.
Proof. intros H. now rewrite keys_set, H. Qed.

Lemma has_get k m : JSMap.has k m = true <-> exists v, JSMap.get k m = Some v.
Proof.
  unfold JSMap.has. destruct (JSMap.get k m); split; try discriminate; eauto.
  intros [v [=]].
Qed.

Lemma size_delete_le k m : (JSMap.size (JSMap.delete k m) <= JSMap.size m)%nat.
Proof. unfold JSMap.size, JSMap.delete. apply filter_length_le. Qed.

Lemma size_delete_lt k m :
  JSMap.has k m = true -> (JSMap.size (JSMap.delete k m) < JSMap.size m)%nat.
Proof.
  unfold JSMap.has, JSMap.size, JSMap.delete.
  induction m as [| [k0 v0] m IH]; simpl; [discriminate |].
  eqb_cases k0 k; simpl.
  - intros _. pose proof (filter_length_le (fun p => negb (String.eqb (fst p) k)) m).
    lia.
  - intros H. specialize (IH H). lia.
Qed.

End More.

End JSMapMore.

(* ================================================================== *)
(** ** The write and the clean-up *)

Lemma Shrinks_refl d : Shrinks d d.
Proof. unfold Shrinks. repeat split; auto. Qed.

Lemma Shrinks_trans d1 d2 d3 : Shrinks d1 d2 -> Shrinks d2 d3 -> Shrinks d1 d3.
Proof.
  intros (A1 & B1 & C1 & D1 & E1) (A2 & B2 & C2 & D2 & E2). unfold Shrinks.
  repeat split; auto; lia.
Qed.

Lemma Shrinks_attempted d : Shrinks d (attempted d).
Proof. unfold Shrinks, attempted. cbn. repeat split; auto. Qed.

Lemma deleteUser_found userId s user :
  JSMap.get userId (users s) = Some user ->
  users (snd (deleteUser userId s)) = JSMap.delete userId (users s).
Proof. intros G. unfold deleteUser. now rewrite G. Qed.

Lemma deleteUser_found_email userId s user :
  JSMap.get userId (users s) = Some user ->
  emailIndex (snd (deleteUser userId s)) = JSMap.delete (email user) (emailIndex s).
Proof. intros G. unfold deleteUser. now rewrite G. Qed.

Lemma Shrinks_delete d userId user :
  JSMap.get userId (users (store d)) = Some user -> isActive user = false ->
  Shrinks d (withStore (snd (deleteUser userId (store d))) d).
Proof.
  intros G Hin. unfold Shrinks, withStore. cbn [store writes].
  rewrite (deleteUser_found _ _ _ G). repeat split.
  - intros k u. rewrite JSMapFacts.get_delete.
    destruct (String.eqb userId k); [discriminate | auto].
  - intros k u Gk Ha. rewrite JSMapFacts.get_delete.
    eqb_cases userId k; [congruence | assumption].
  - apply JSMapMore.size_delete_le.
  - lia.
  - intros e i. rewrite (deleteUser_found_email _ _ _ G), JSMapFacts.get_delete.
    destruct (String.eqb (email user) e); [discriminate | auto].
Qed.

Lemma isStale_inactive h user : isStale h user = true -> isActive user = false.
Proof. unfold isStale. intros H. apply andb_prop in H as [H _]. now apply negb_true_iff. Qed.

Module PersistedFacts.
Section Quota.
Variable quota : nat -> option Z.

Lemma cleanup_fold_Shrinks (delete : string -> Db -> Db) h keys : forall d,
  (forall userId d' user,
     JSMap.get userId (users (store d')) = Some user -> isStale h user = true ->
     Shrinks d' (delete userId d')) ->
  Shrinks d
    (fold_left
       (fun d' userId =>
          match JSMap.get userId (users (store d')) with
          | Some user => if isStale h user then delete userId d' else d'
          | None => d'
          end) keys d).
Proof.
  induction keys as [| k keys IH]; intros d Hdel; simpl.
  - apply Shrinks_refl.
  - eapply Shrinks_trans; [| apply IH; assumption].
    destruct (JSMap.get k (users (store d))) as [user |] eqn:G; [| apply Shrinks_refl].
    destruct (isStale h user) eqn:E; [| apply Shrinks_refl]. now apply (Hdel k d user).
Qed.

Lemma saveToStorageWithin_Shrinks fuel : forall d, Shrinks d (Persisted.saveToStorageWithin quota fuel d).
Proof.
  induction fuel as [| fuel IH]; intros d; cbn [Persisted.saveToStorageWithin];
    destruct (MAX_USERS <? JSMap.size (users (store d)))%nat;
    try apply Shrinks_refl;
    destruct (quota (writes d)) as [h |]; try apply Shrinks_attempted.
  eapply Shrinks_trans; [apply Shrinks_attempted |].
  unfold Persisted.cleanupOldDataWith. apply cleanup_fold_Shrinks.
  intros userId d' user G Hs. unfold Persisted.deleteUserWith. rewrite G. cbn [snd].
  eapply Shrinks_trans; [| apply IH].
  apply (Shrinks_delete d' userId user G). now apply (isStale_inactive h).
Qed.

Lemma saveToStorage_Shrinks d : Shrinks d (Persisted.saveToStorage quota d).
Proof. apply saveToStorageWithin_Shrinks. Qed.

(** More fuel than records is as good as any. *)
Lemma cleanup_fold_ext (f g : string -> Db -> Db) h n keys : forall d,
  (JSMap.size (users (store d)) <= n)%nat ->
  (forall userId d', (JSMap.size (users (store d')) <= n)%nat ->
     JSMap.has userId (users (store d')) = true ->
     f userId d' = g userId d'
     /\ (JSMap.size (users (store (f userId d'))) <= n)%nat) ->
  fold_left
    (fun d' userId =>
       match JSMap.get userId (users (store d')) with
       | Some user => if isStale h user then f userId d' else d'
       | None => d'
       end) keys d
  = fold_left
      (fun d' userId =>
         match JSMap.get userId (users (store d')) with
         | Some user => if isStale h user then g userId d' else d'
         | None => d'
         end) keys d.
Proof.
  induction keys as [| k keys IH]; intros d Hd Hfg; simpl; [reflexivity |].
  destruct (JSMap.get k (users (store d))) as [user |] eqn:G; [| now apply IH].
  destruct (isStale h user); [| now apply IH].
  destruct (Hfg k d Hd) as [E Hn]; [unfold JSMap.has; now rewrite G |].
  rewrite <- E. now apply IH.
Qed.

Lemma saveToStorageWithin_fuel f1 : forall f2 d,
  (JSMap.size (users (store d)) < f1)%nat ->
  (JSMap.size (users (store d)) < f2)%nat ->
  Persisted.saveToStorageWithin quota f1 d = Persisted.saveToStorageWithin quota f2 d.
Proof.
  induction f1 as [| f1 IH]; intros f2 d H1 H2; [lia |].
  destruct f2 as [| f2]; [lia |].
  cbn [Persisted.saveToStorageWithin].
  destruct (MAX_USERS <? JSMap.size (users (store d)))%nat; [reflexivity |].
  destruct (quota (writes d)) as [h |]; [| reflexivity].
  unfold Persisted.cleanupOldDataWith.
  apply (cleanup_fold_ext _ _ h (JSMap.size (users (store d)))); [cbn; lia |].
  intros userId d' Hd' Hhas. unfold Persisted.deleteUserWith.
  apply JSMapMore.has_get in Hhas as [user G]. rewrite G. cbn [snd].
  assert (Hlt : (JSMap.size (users (snd (deleteUser userId (store d'))))
                 < JSMap.size (users (store d')))%nat).
  { rewrite (deleteUser_found _ _ _ G). apply JSMapMore.size_delete_lt.
    unfold JSMap.has. now rewrite G. }
  split.
  - apply IH; cbn [store withStore]; lia.
  - destruct (saveToStorageWithin_Shrinks f1
                (withStore (snd (deleteUser userId (store d'))) d'))
      as (_ & _ & Hs & _).
    cbn [store withStore] in Hs. lia.
Qed.

(** [saveToStorage] as the source has it. *)
Lemma saveToStorage_eq d :
  Persisted.saveToStorage quota d
  = if (MAX_USERS <? JSMap.size (users (store d)))%nat then d
    else match quota (writes d) with
         | None => attempted d
         | Some twoYearsAgo =>
             Persisted.cleanupOldData quota twoYearsAgo (attempted d)
         end.
Proof.
  unfold Persisted.saveToStorage at 1. cbn [Persisted.saveToStorageWithin].
  destruct (MAX_USERS <? JSMap.size (users (store d)))%nat; [reflexivity |].
  destruct (quota (writes d)) as [h |]; [| reflexivity].
  unfold Persisted.cleanupOldData, Persisted.cleanupOldDataWith.
  apply (cleanup_fold_ext _ _ h (JSMap.size (users (store d)))); [cbn; lia |].
  intros userId d' Hd' Hhas. unfold Persisted.deleteUser, Persisted.deleteUserWith.
  apply JSMapMore.has_get in Hhas as [user G]. rewrite G. cbn [snd].
  assert (Hlt : (JSMap.size (users (snd (deleteUser userId (store d'))))
                 < JSMap.size (users (store d')))%nat).
  { rewrite (deleteUser_found _ _ _ G). apply JSMapMore.size_delete_lt.
    unfold JSMap.has. now rewrite G. }
  split.
  - unfold Persisted.saveToStorage.
    apply saveToStorageWithin_fuel; cbn [store withStore]; lia.
  - destruct (saveToStorageWithin_Shrinks (JSMap.size (users (store d)))
                (withStore (snd (deleteUser userId (store d'))) d'))
      as (_ & _ & Hs & _).
    cbn [store withStore] in Hs. lia.
Qed.

Lemma saveToStorage_written d :
  quota (writes d) = None -> store (Persisted.saveToStorage quota d) = store d.
Proof.
  intros H. rewrite saveToStorage_eq, H.
  now destruct (MAX_USERS <? JSMap.size (users (store d)))%nat.
Qed.

End Quota.
End PersistedFacts.

(* ================================================================== *)
(** ** Further properties of the store *)

(** *** Up to the write: a created record can be read back *)

(** The methods up to their write: below capacity, [createUser] returns the new record without its
    password; afterwards [findUserById] gives that record and
    [findUserByEmail], with any spelling of the email that normalizes to
    the same string, gives the stored record with its password. *)
Lemma created_user_resolvable_memory (s : Store) (userId : string) (now : Z)
    (userData : UserData) :
  (getUserCount s < MAX_USERS)%nat ->
  userId <> "" ->
  let user := newUser userId now userData in
  let s' := snd (createUser userId now userData s) in
  fst (createUser userId now userData s) = Return (withoutPassword user)
  /\ findUserById userId s' = Some (withoutPassword user)
  /\ forall e, normalizeEmail e = normalizeEmail (d_email userData) ->
               findUserByEmail e s' = Some user.
Proof.
  intros Hcap Hid user s'. subst s'.
  rewrite createUser_below by assumption. cbn [fst snd].
  split; [reflexivity |]. split.
  - unfold findUserById. cbn [users updateIndexes].
    now rewrite JSMapFacts.get_set, String.eqb_refl.
  - intros e He. unfold findUserById, findUserByEmail.
    cbn [users emailIndex updateIndexes]. rewrite He.
    change (email (newUser userId now userData))
      with (normalizeEmail (d_email userData)).
    rewrite JSMapFacts.get_set, String.eqb_refl.
    rewrite (proj2 (String.eqb_neq userId "")) by assumption.
    now rewrite JSMapFacts.get_set, String.eqb_refl.
Qed.


(** *** X2: the capacity ceiling *)

Lemma createUser_count s userId now userData :
  (getUserCount s <= MAX_USERS)%nat ->
  (getUserCount (snd (createUser userId now userData s)) <= MAX_USERS)%nat.
Proof.
  unfold getUserCount, createUser. intros H.
  destruct (Nat.leb_spec MAX_USERS (JSMap.size (users s))); simpl; [assumption |].
  rewrite JSMapMore.size_set. destruct (JSMap.has userId (users s)); lia.
Qed.

Lemma set_existing_count (s : Store) i (u u' : User) :
  JSMap.get i (users s) = Some u ->
  JSMap.size (JSMap.set i u' (users s)) = JSMap.size (users s).
Proof.
  intros H. rewrite JSMapMore.size_set.
  unfold JSMap.has. now rewrite H.
Qed.

Lemma step_count s op :
  (getUserCount s <= MAX_USERS)%nat -> (getUserCount (step s op) <= MAX_USERS)%nat.
Proof.
  intros H. destruct op as [i now d | i upd | i r | i | i | i now | i |]; simpl.
  - now apply createUser_count.
  - unfold updateUser, getUserCount in *.
    destruct (JSMap.get i (users s)) as [u |] eqn:G; simpl; [| assumption].
    destruct (_ && _); simpl; [assumption |].
    now rewrite (set_existing_count s i u).
  - unfold updateUserRole, getUserCount in *.
    destruct (JSMap.get i (users s)) as [u |] eqn:G; simpl; [| assumption].
    now rewrite (set_existing_count s i u).
  - unfold deactivateUser, getUserCount in *.
    destruct (JSMap.get i (users s)) as [u |] eqn:G; simpl; [| assumption].
    now rewrite (set_existing_count s i u).
  - unfold activateUser, getUserCount in *.
    destruct (JSMap.get i (users s)) as [u |] eqn:G; simpl; [| assumption].
    now rewrite (set_existing_count s i u).
  - unfold updateLastLogin, getUserCount in *.
    destruct (JSMap.get i (users s)) as [u |] eqn:G; simpl; [| assumption].
    now rewrite (set_existing_count s i u).
  - unfold deleteUser, getUserCount in *.
    destruct (JSMap.get i (users s)) as [u |] eqn:G; simpl; [| assumption].
    unfold JSMap.size, JSMap.delete in *.
    etransitivity; [apply filter_length_le | assumption].
  - unfold getUserCount. now rewrite buildIndexes_users.
Qed.

Lemma importLine_count genId clock i line s r :
  (getUserCount s <= MAX_USERS)%nat ->
  (getUserCount (fst (importLine genId clock i line (s, r))) <= MAX_USERS)%nat.
Proof.
  intros H. unfold importLine.
  destruct (_ <? 3)%nat; [assumption |].
  destruct (_ || _); [assumption |].
  destruct (JSMap.has _ _); [assumption |].
  match goal with
  | |- context [createUser ?a ?b ?c s] =>
      pose proof (createUser_count s a b c H) as Hc;
      destruct (createUser a b c s) as [[u | msg] s']
  end; exact Hc.
Qed.

Lemma importLines_count genId clock lines : forall i s r,
  (getUserCount s <= MAX_USERS)%nat ->
  (getUserCount (fst (importLines genId clock i lines (s, r))) <= MAX_USERS)%nat.
Proof.
  induction lines as [| line lines IH]; intros i s r H; cbn [importLines].
  - assumption.
  - pose proof (importLine_count genId clock i line s r H) as H1.
    destruct (importLine genId clock i line (s, r)) as [s1 r1].
    now apply IH.
Qed.

Lemma run_count ops : forall s,
  (getUserCount s <= MAX_USERS)%nat -> (getUserCount (run ops s) <= MAX_USERS)%nat.
Proof.
  induction ops as [| op ops IH]; intros s H; simpl; [assumption |].
  apply IH. now apply step_count.
Qed.

(** X2: the number of records never exceeds [MAX_USERS]: every operation
    and every import keeps a store that is within the ceiling within it. *)
Theorem capacity_never_exceeded (s : Store) :
  (getUserCount s <= MAX_USERS)%nat ->
  (forall ops, (getUserCount (run ops s) <= MAX_USERS)%nat)
  /\ (forall genId clock csvData,
        (getUserCount (snd (importUsers genId clock csvData s)) <= MAX_USERS)%nat).
Proof.
  intros H. split.
  - intros ops. now apply run_count.
  - intros genId clock csvData. unfold importUsers.
    pose proof (importLines_count genId clock
                  (tl (JSString.split newline csvData)) 1 s
                  {| imported := 0; errors := [] |} H) as Hc.
    destruct (importLines genId clock 1 (tl (JSString.split newline csvData))
                (s, {| imported := 0; errors := [] |})) as [s' r'].
    exact Hc.
Qed.

Lemma capacity_never_exceeded_witness :
  (getUserCount (run sampleOps fullStore) <= MAX_USERS)%nat
  /\ (getUserCount (snd (importUsers sampleGenId sampleClock csvEmptyEmail fullStore))
      <= MAX_USERS)%nat.
Proof.
  assert (H : (getUserCount fullStore <= MAX_USERS)%nat) by (vm_compute; lia).
  split.
  - apply (proj1 (capacity_never_exceeded fullStore H)).
  - apply (proj2 (capacity_never_exceeded fullStore H)).
Defined.

(** *** X3: the rebuild of the indexes *)

(** X3: [buildIndexes] reads the primary table only: it leaves the table and
    the email index as they are, whatever the role and name indexes held
    before, and a second rebuild changes nothing. *)
Theorem buildIndexes_idempotent (s : Store) :
  users (buildIndexes s) = users s
  /\ emailIndex (buildIndexes s) = emailIndex s
  /\ (forall s', users s' = users s -> emailIndex s' = emailIndex s ->
                 buildIndexes s' = buildIndexes s)
  /\ buildIndexes (buildIndexes s) = buildIndexes s.
Proof.
  assert (H : forall s', users s' = users s -> emailIndex s' = emailIndex s ->
                         buildIndexes s' = buildIndexes s).
  { intros s' Hu He. rewrite !buildIndexes_incremental.
    unfold clearedIndexes. now rewrite Hu, He. }
  repeat split.
  - apply buildIndexes_users.
  - apply buildIndexes_emailIndex.
  - exact H.
  - apply H; [apply buildIndexes_users | apply buildIndexes_emailIndex].
Qed.

Lemma buildIndexes_idempotent_witness :
  let s := run renameOps emptyStore in
  buildIndexes {| users := users s; emailIndex := emailIndex s;
                  roleIndex := []; nameIndex := [("stale", ["u1"])] |}
  = buildIndexes s.
Proof.
  cbv zeta.
  apply (proj1 (proj2 (proj2 (buildIndexes_idempotent (run renameOps emptyStore)))));
    reflexivity.
Defined.


(** *** X4: lookup by role *)

Lemma findUserById_spec i s u :
  findUserById i s = Some u <->
  exists u', JSMap.get i (users s) = Some u' /\ u = withoutPassword u'.
Proof.
  unfold findUserById. destruct (JSMap.get i (users s)) as [u' |]; split.
  - intros [= <-]. now exists u'.
  - intros [u'' [[= <-] ->]]. reflexivity.
  - discriminate.
  - intros [u'' [[=] _]].
Qed.

(** X4: in a store reached under unused identifiers and typed roles,
    [getUsersByRole] returns exactly the records, without their passwords,
    whose role is the one asked for. *)
Theorem getUsersByRole_exact (ops : list Op) (r : string) :
  follows roleDiscipline emptyStore ops = true ->
  let s := run ops emptyStore in
  forall u, In u (getUsersByRole r s) <->
            exists userId user, JSMap.get userId (users s) = Some user
                                /\ role user = r /\ u = withoutPassword user.
Proof.
  intros H s u. destruct (RoleInv_run ops H) as [_ Hr]. fold s in Hr.
  unfold getUsersByRole. rewrite In_filterMap. split.
  - intros [i [Hin Hf]]. apply findUserById_spec in Hf as [u' [G ->]].
    exists i, u'. repeat split; auto.
    assert (Hb : inBucket (roleIndex s) r i = true).
    { unfold inBucket. destruct (JSMap.get r (roleIndex s)); [| contradiction].
      now apply JSSetFacts.has_In. }
    apply Hr in Hb as [u'' [G' E]]. rewrite G in G'. injection G' as <-.
    now apply String.eqb_eq.
  - intros (i & u' & G & E & ->). exists i. split.
    + assert (Hb : inBucket (roleIndex s) r i = true).
      { apply Hr. exists u'. split; [assumption |]. now apply String.eqb_eq. }
      unfold inBucket in Hb. destruct (JSMap.get r (roleIndex s)); [| discriminate].
      now apply JSSetFacts.has_In.
    + apply findUserById_spec. now exists u'.
Qed.

Lemma getUsersByRole_exact_witness :
  In (withoutPassword rohan) (getUsersByRole "moderator" (run sampleOps emptyStore)).
Proof.
  apply (proj2 (getUsersByRole_exact sampleOps "moderator" eq_refl
                  (withoutPassword rohan))).
  exists "u2", rohan. split; [vm_compute; reflexivity |].
  split; vm_compute; reflexivity.
Defined.

(** *** X5: the password stays in the store *)

Lemma filterMap_find_password s ids :
  Forall (fun u => password u = None) (filterMap (fun i => findUserById i s) ids).
Proof.
  rewrite Forall_forall. intros u Hu. apply In_filterMap in Hu as [i [_ Hf]].
  apply findUserById_spec in Hf as [u' [_ ->]]. reflexivity.
Qed.

(** X5: no read method other than [findUserByEmail] returns a password:
    the records given by [findUserById], [getAllUsers], [searchUsers],
    [getUsersByRole] and [getUsersCreatedInRange] have none, in every
    store. *)
Theorem reads_strip_password (s : Store) :
  (forall userId u, findUserById userId s = Some u -> password u = None)
  /\ Forall (fun u => password u = None) (getAllUsers s)
  /\ (forall query, Forall (fun u => password u = None) (searchUsers query s))
  /\ (forall r, Forall (fun u => password u = None) (getUsersByRole r s))
  /\ (forall a b, Forall (fun u => password u = None) (getUsersCreatedInRange a b s)).
Proof.
  repeat split.
  - intros i u Hf. apply findUserById_spec in Hf as [u' [_ ->]]. reflexivity.
  - unfold getAllUsers. rewrite Forall_forall. intros u Hu.
    apply in_map_iff in Hu as [u' [<- _]]. reflexivity.
  - intros query. apply filterMap_find_password.
  - intros r. apply filterMap_find_password.
  - intros a b. unfold getUsersCreatedInRange. rewrite Forall_forall. intros u Hu.
    apply in_map_iff in Hu as [u' [<- _]]. reflexivity.
Qed.

Lemma reads_strip_password_witness :
  findUserById "u2" (run sampleOps emptyStore) = Some (withoutPassword rohan)
  /\ password (withoutPassword rohan) = None.
Proof.
  assert (H : findUserById "u2" (run sampleOps emptyStore) = Some (withoutPassword rohan))
    by (vm_compute; reflexivity).
  split; [exact H |].
  exact (proj1 (reads_strip_password (run sampleOps emptyStore)) "u2" _ H).
Defined.


(** *** Up to the write: removal *)

(** The methods up to their write: [deleteUser] on an identifier that is not in the table returns
    [false] and changes nothing; on one that is, it returns [true], the
    record can no longer be read, every other record reads as before, the
    count drops by one, and a second removal returns [false]. *)
Lemma deleteUser_removes_memory (s : Store) (userId : string) :
  UniqueKeys s ->
  match JSMap.get userId (users s) with
  | None => deleteUser userId s = (false, s)
  | Some _ =>
      let s' := snd (deleteUser userId s) in
      fst (deleteUser userId s) = true
      /\ findUserById userId s' = None
      /\ (forall other, other <> userId ->
            findUserById other s' = findUserById other s)
      /\ S (getUserCount s') = getUserCount s
      /\ deleteUser userId s' = (false, s')
  end.
Proof.
  intros Hu. unfold deleteUser.
  destruct (JSMap.get userId (users s)) as [u |] eqn:G; [| reflexivity].
  cbn [fst snd]. split; [reflexivity |].
  assert (Hnone : JSMap.get userId (JSMap.delete userId (users s)) = None).
  { now rewrite JSMapFacts.get_delete, String.eqb_refl. }
  split; [| split; [| split]].
  - unfold findUserById. cbn [users]. now rewrite Hnone.
  - intros other Hne. unfold findUserById. cbn [users].
    rewrite JSMapFacts.get_delete.
    now rewrite (proj2 (String.eqb_neq userId other)) by congruence.
  - unfold getUserCount. cbn [users]. rewrite JSMapMore.size_delete by assumption.
    unfold JSMap.has. rewrite G.
    apply JSMapFacts.get_In in G. unfold JSMap.size.
    destruct (users s); [contradiction | reflexivity].
  - cbn [users]. now rewrite Hnone.
Qed.


(** *** Up to the write: a creation undone by a removal *)

(** The methods up to their write: in a store reached under the disciplines of the indexes, creating a
    record under an unused identifier and an email that is not indexed,
    then removing it, gives back the primary table and the email index,
    and role and name indexes with the members they had. *)
Lemma create_then_delete_memory (ops : list Op) (userId : string) (now : Z)
    (userData : UserData) :
  follows indexDiscipline emptyStore ops = true ->
  let s := run ops emptyStore in
  (getUserCount s < MAX_USERS)%nat ->
  JSMap.has userId (users s) = false ->
  JSMap.has (normalizeEmail (d_email userData)) (emailIndex s) = false ->
  let s2 := snd (deleteUser userId (snd (createUser userId now userData s))) in
  users s2 = users s
  /\ emailIndex s2 = emailIndex s
  /\ sameMembers (roleIndex s2) (roleIndex s)
  /\ sameMembers (nameIndex s2) (nameIndex s).
Proof.
  intros H s Hcap Hfresh Hemail s2. subst s2.
  destruct (Derived_run ops H) as (Hu & Hr & Hn). fold s in Hu, Hr, Hn.
  rewrite createUser_below by assumption. cbn [snd].
  unfold deleteUser. cbn [users updateIndexes].
  rewrite JSMapFacts.get_set, String.eqb_refl. cbn [snd users emailIndex roleIndex
    nameIndex updateIndexes].
  assert (Hstale : forall attr idx, IndexInvOn attr (users s) idx ->
                     forall key, inBucket idx key userId = false).
  { intros attr idx Hinv key. destruct (inBucket idx key userId) eqn:E; [| reflexivity].
    apply Hinv in E as [u [G _]]. unfold JSMap.has in Hfresh. now rewrite G in Hfresh. }
  split; [| split; [| split]].
  - now apply JSMapMore.delete_set_new.
  - now apply JSMapMore.delete_set_new.
  - intros key i. rewrite IndexFacts.inBucket_remove, IndexFacts.inBucket_add.
    eqb_cases userId i.
    + rewrite (Hstale _ _ Hr key). now destruct (String.eqb _ key).
    + now rewrite !andb_false_r, orb_false_r, andb_true_r.
  - intros key i.
    rewrite IndexFacts.inBucket_remove_tokens, IndexFacts.inBucket_add_tokens.
    eqb_cases userId i.
    + rewrite (Hstale _ _ Hn key). now destruct (JSSet.has key _).
    + now rewrite !andb_false_r, orb_false_r, andb_true_r.
Qed.


(** *** Up to the write: deactivation and activation *)

Lemma setActive_back u : isActive u = true -> setActive true (setActive false u) = u.
Proof. destruct u; simpl. now intros ->. Qed.

(** The methods up to their write: on an identifier that is not in the table both methods return
    [false] and change nothing; deactivating an active record and
    activating it again gives back the store; and between the two the
    record is inactive while every other field of it is as before. *)
Lemma deactivate_then_activate_memory (s : Store) (userId : string) :
  match JSMap.get userId (users s) with
  | None => deactivateUser userId s = (false, s)
            /\ activateUser userId s = (false, s)
  | Some user =>
      let s1 := snd (deactivateUser userId s) in
      JSMap.get userId (users s1) = Some (setActive false user)
      /\ fst (activateUser userId s1) = true
      /\ (isActive user = true -> snd (activateUser userId s1) = s)
  end.
Proof.
  unfold deactivateUser, activateUser.
  destruct (JSMap.get userId (users s)) as [u |] eqn:G; [| split; reflexivity].
  cbn [snd withUsers users]. rewrite JSMapFacts.get_set, String.eqb_refl.
  split; [reflexivity |]. split; [reflexivity |].
  intros Hact. cbn [snd withUsers users emailIndex roleIndex nameIndex].
  rewrite JSMapMore.set_set, setActive_back by assumption.
  rewrite JSMapMore.set_same by assumption. now destruct s.
Qed.



(** *** Up to the write: what [updateUser] leaves alone *)

(** The methods up to their write: [updateUser] on an identifier that is not in the table returns no
    record and changes nothing; otherwise, whatever it is given and whether
    it throws or not, the number of records, the password of the record
    and every other record stay as they are. *)
Lemma updateUser_preserves_memory (s : Store) (userId : string) (updates : PartialUser) :
  let s' := snd (updateUser userId updates s) in
  (JSMap.get userId (users s) = None ->
     updateUser userId updates s = (Return None, s))
  /\ getUserCount s' = getUserCount s
  /\ (forall user, JSMap.get userId (users s) = Some user ->
        exists user', JSMap.get userId (users s') = Some user'
                      /\ password user' = password user)
  /\ (forall other, other <> userId ->
        JSMap.get other (users s') = JSMap.get other (users s)).
Proof.
  cbv zeta. unfold updateUser.
  destruct (JSMap.get userId (users s)) as [u |] eqn:G.
  - destruct (_ && _); cbn [snd].
    + repeat split; try discriminate.
      intros user [= <-]. now exists u.
    + repeat split; try discriminate.
      * unfold getUserCount. cbn [users]. now rewrite (set_existing_count s userId u).
      * intros user [= <-]. cbn [users]. rewrite JSMapFacts.get_set, String.eqb_refl.
        now eexists.
      * intros other Hne. cbn [users]. rewrite JSMapFacts.get_set.
        now rewrite (proj2 (String.eqb_neq userId other)) by congruence.
  - cbn [snd]. repeat split; try discriminate.
Qed.



(** *** Up to the write: change of role *)

(** The methods up to their write: in a store reached under unused identifiers and typed roles,
    [updateUserRole] on a stored identifier returns [true]; afterwards the
    record has the new role, [getUsersByRole] lists it under the new role
    and under no other.  On an unknown identifier it returns [false] and
    changes nothing. *)
Lemma updateUserRole_moves_memory (ops : list Op) (userId newRole : string) :
  follows roleDiscipline emptyStore ops = true ->
  let s := run ops emptyStore in
  match JSMap.get userId (users s) with
  | None => updateUserRole userId newRole s = (false, s)
  | Some user =>
      let s' := snd (updateUserRole userId newRole s) in
      fst (updateUserRole userId newRole s) = true
      /\ findUserById userId s' = Some (withoutPassword (setRole newRole user))
      /\ In (withoutPassword (setRole newRole user)) (getUsersByRole newRole s')
      /\ (forall r, r <> newRole -> inBucket (roleIndex s') r userId = false)
  end.
Proof.
  intros H s. destruct (RoleInv_run ops H) as [Hu Hr]. fold s in Hu, Hr.
  destruct (JSMap.get userId (users s)) as [u |] eqn:G.
  2:{ unfold updateUserRole. now rewrite G. }
  assert (Hr' : RoleInv (step s (OpUpdateRole userId newRole))).
  { apply RoleInv_step; auto. }
  cbn [step] in Hr'. unfold updateUserRole in *. rewrite G in *. cbn [fst snd] in *.
  set (s' := {| users := JSMap.set userId (setRole newRole u) (users s);
                emailIndex := emailIndex s;
                roleIndex := addToIndex newRole userId
                               (removeFromIndex (role u) userId (roleIndex s));
                nameIndex := nameIndex s |}) in *.
  assert (G' : JSMap.get userId (users s') = Some (setRole newRole u)).
  { unfold s'. cbn [users]. now rewrite JSMapFacts.get_set, String.eqb_refl. }
  split; [reflexivity |]. split; [| split].
  - unfold findUserById. now rewrite G'.
  - unfold getUsersByRole. apply In_filterMap. exists userId. split.
    + assert (Hb : inBucket (roleIndex s') newRole userId = true).
      { apply Hr'. exists (setRole newRole u). split; [assumption |].
        apply String.eqb_refl. }
      unfold inBucket in Hb. destruct (JSMap.get newRole (roleIndex s'));
        [| discriminate]. now apply JSSetFacts.has_In.
    + unfold findUserById. now rewrite G'.
  - intros r Hne. destruct (inBucket (roleIndex s') r userId) eqn:E; [| reflexivity].
    apply Hr' in E as [u' [Gu E]]. rewrite G' in Gu. injection Gu as <-.
    apply String.eqb_eq in E. simpl in E. congruence.
Qed.


(** *** X11: identities of the statistics *)

Lemma filter_length_mono {A : Type} (p q : A -> bool) l :
  (forall x, p x = true -> q x = true) ->
  (length (filter p l) <= length (filter q l))%nat.
Proof.
  intros H. induction l as [| a l IH]; simpl; [lia |].
  destruct (p a) eqn:E.
  - rewrite (H a E). simpl. lia.
  - destruct (q a); simpl; lia.
Qed.

Lemma roles_exclusive (l : list User) :
  (length (filter (fun u => String.eqb (role u) "admin") l)
   + length (filter (fun u => String.eqb (role u) "moderator") l)
   + length (filter (fun u => String.eqb (role u) "user") l)
   <= length l)%nat.
Proof.
  induction l as [| u l IH]; simpl; [lia |].
  destruct (String.eqb_spec (role u) "admin") as [E | E].
  - rewrite E. simpl. lia.
  - destruct (String.eqb_spec (role u) "moderator") as [E' | E'].
    + rewrite E'. simpl. lia.
    + destruct (String.eqb (role u) "user"); simpl; lia.
Qed.

(** X11: in the statistics of every store, at every clock reading, the
    active and inactive users add up to the total, the three role counts
    add up to at most the total, the users of the last week are among those
    of the last month, and no count exceeds the total; in a store reached
    from the empty store the total is at most [maxCapacity]. *)
Theorem getStats_counts (now : Z) (s : Store) :
  let st := getStats now s in
  totalUsers st = getUserCount s
  /\ (activeUsers st + inactiveUsers st = totalUsers st)%nat
  /\ (adminUsers st + moderatorUsers st + regularUsers st <= totalUsers st)%nat
  /\ (newUsersThisWeek st <= newUsersThisMonth st)%nat
  /\ (newUsersThisMonth st <= totalUsers st)%nat
  /\ (usersWithOrders st <= totalUsers st)%nat
  /\ (forall ops, s = run ops emptyStore -> (totalUsers st <= maxCapacity st)%nat).
Proof.
  cbv zeta. unfold getStats.
  cbn [totalUsers activeUsers inactiveUsers adminUsers moderatorUsers regularUsers
       newUsersThisWeek newUsersThisMonth usersWithOrders maxCapacity].
  assert (Hlen : length (getAllUsers s) = getUserCount s).
  { unfold getAllUsers, JSMap.values, getUserCount, JSMap.size.
    now rewrite !length_map. }
  split; [assumption |]. split; [| split; [| split; [| split; [| split]]]].
  - pose proof (filter_length_le isActive (getAllUsers s)). lia.
  - apply roles_exclusive.
  - apply filter_length_mono. intros u Hu.
    apply Z.ltb_lt in Hu. apply Z.ltb_lt. unfold WEEK_MS, MONTH_MS in *. lia.
  - apply filter_length_le.
  - apply filter_length_le.
  - intros ops ->. rewrite Hlen. apply run_count. vm_compute. lia.
Qed.

Lemma getStats_counts_witness :
  let st := getStats 500%Z (run sampleOps emptyStore) in
  (totalUsers st <= maxCapacity st)%nat.
Proof.
  cbv zeta.
  destruct (getStats_counts 500 (run sampleOps emptyStore))
    as (_ & _ & _ & _ & _ & _ & H).
  apply (H sampleOps). reflexivity.
Defined.


(** *** X12: lookup by creation time *)

(** X12: [getUsersCreatedInRange] with its end before its start returns
    nothing; with bounds that enclose every creation time it returns all
    users; and a record created at [now] is returned by every range that
    contains [now], both bounds included. *)
Theorem range_query (s : Store) (a b : Z) :
  ((b < a)%Z -> getUsersCreatedInRange a b s = [])
  /\ ((forall u, In u (getAllUsers s) -> (a <= createdAt u <= b)%Z) ->
      getUsersCreatedInRange a b s = getAllUsers s)
  /\ (forall userId now userData,
        (getUserCount s < MAX_USERS)%nat -> (a <= now <= b)%Z ->
        In (withoutPassword (newUser userId now userData))
           (getUsersCreatedInRange a b (snd (createUser userId now userData s)))).
Proof.
  unfold getUsersCreatedInRange. split; [| split].
  - intros Hab. rewrite filter_none; [reflexivity |].
    intros u _. apply andb_false_iff.
    destruct (Z.leb_spec a (createdAt u)); [right | left; reflexivity].
    apply Z.leb_gt. lia.
  - intros H. unfold getAllUsers. rewrite filter_all; [reflexivity |].
    intros u Hu. specialize (H (withoutPassword u)).
    assert (Hin : In (withoutPassword u) (getAllUsers s)).
    { unfold getAllUsers. now apply in_map. }
    apply H in Hin. simpl in Hin.
    apply andb_true_iff. split; apply Z.leb_le; lia.
  - intros userId now userData Hcap Hnow.
    rewrite createUser_below by assumption. cbn [snd users updateIndexes].
    apply in_map. apply filter_In. split.
    + unfold JSMap.values.
      change (newUser userId now userData)
        with (snd (userId, newUser userId now userData)).
      apply in_map. apply JSMapFacts.get_In.
      now rewrite JSMapFacts.get_set, String.eqb_refl.
    + simpl. apply andb_true_iff. split; apply Z.leb_le; lia.
Qed.

Lemma range_query_witness :
  getUsersCreatedInRange 300 200 (run sampleOps emptyStore) = []
  /\ getUsersCreatedInRange 100 300 (run sampleOps emptyStore)
     = getAllUsers (run sampleOps emptyStore)
  /\ In (withoutPassword (newUser "u9" 250 (sampleData "m@example.com" "Meera" None)))
        (getUsersCreatedInRange 100 300
           (snd (createUser "u9" 250 (sampleData "m@example.com" "Meera" None)
                   (run sampleOps emptyStore)))).
Proof.
  split; [| split].
  - apply (proj1 (range_query (run sampleOps emptyStore) 300 200)). lia.
  - apply (proj1 (proj2 (range_query (run sampleOps emptyStore) 100 300))).
    intros u Hu. vm_compute in Hu.
    destruct Hu as [<- | [<- | []]]; simpl; lia.
  - apply (proj2 (proj2 (range_query (run sampleOps emptyStore) 100 300))).
    + vm_compute. lia.
    + lia.
Defined.

(** *** Up to the write: import and the number of records *)

Section ImportCount.
Variable genId : nat -> string.
Variable clock : nat -> Z.

Lemma importLine_full i line s r :
  getUserCount s = MAX_USERS ->
  fst (importLine genId clock i line (s, r)) = s
  /\ imported (snd (importLine genId clock i line (s, r))) = imported r.
Proof.
  intros H. unfold importLine.
  destruct (_ <? 3)%nat; [now split |].
  destruct (_ || _); [now split |].
  destruct (JSMap.has _ _); [now split |].
  unfold createUser. unfold getUserCount in H. rewrite H, Nat.leb_refl. now split.
Qed.

Lemma importLines_full lines : forall i s r,
  getUserCount s = MAX_USERS ->
  fst (importLines genId clock i lines (s, r)) = s
  /\ imported (snd (importLines genId clock i lines (s, r))) = imported r.
Proof.
  induction lines as [| line lines IH]; intros i s r H; cbn [importLines].
  - now split.
  - destruct (importLine_full i line s r H) as [H1 H2].
    destruct (importLine genId clock i line (s, r)) as [s1 r1].
    cbn [fst snd] in *. subst s1. rewrite <- H2. now apply IH.
Qed.

Lemma importLine_grows i line s r :
  JSMap.has (genId i) (users s) = false ->
  let '(s', r') := importLine genId clock i line (s, r) in
  (getUserCount s' + imported r = getUserCount s + imported r')%nat
  /\ (forall k, JSMap.has k (users s') = true ->
                JSMap.has k (users s) = true \/ k = genId i).
Proof.
  intros Hfresh. unfold importLine.
  destruct (_ <? 3)%nat; [split; auto |].
  destruct (_ || _); [split; auto |].
  destruct (JSMap.has _ (emailIndex s)); [split; auto |].
  unfold createUser.
  destruct (MAX_USERS <=? JSMap.size (users s))%nat; cbn [users updateIndexes imported];
    [split; auto |].
  unfold getUserCount. cbn [users updateIndexes].
  rewrite JSMapMore.size_set, Hfresh. split; [lia |].
  intros k. rewrite JSMapFacts.has_set. eqb_cases (genId i) k; auto.
Qed.

Lemma importLines_grows (inj : forall i j, genId i = genId j -> i = j) lines :
  forall i s r,
    (forall j, (i <= j)%nat -> JSMap.has (genId j) (users s) = false) ->
    let '(s', r') := importLines genId clock i lines (s, r) in
    (getUserCount s' + imported r = getUserCount s + imported r')%nat.
Proof.
  induction lines as [| line lines IH]; intros i s r Hfresh; cbn [importLines].
  - lia.
  - pose proof (importLine_grows i line s r (Hfresh i (le_n i))) as H1.
    destruct (importLine genId clock i line (s, r)) as [s1 r1].
    destruct H1 as [Hc Hk].
    assert (Hfresh1 : forall j, (S i <= j)%nat -> JSMap.has (genId j) (users s1) = false).
    { intros j Hj. destruct (JSMap.has (genId j) (users s1)) eqn:E; [| reflexivity].
      apply Hk in E as [E | E].
      - rewrite Hfresh in E by lia. discriminate.
      - apply inj in E. lia. }
    pose proof (IH (S i) s1 r1 Hfresh1) as H2.
    destruct (importLines genId clock (S i) lines (s1, r1)) as [s2 r2]. lia.
Qed.

End ImportCount.

(** The methods up to their write: an import into a store at capacity imports nothing and leaves the
    store as it is; and when [generateUserId] gives distinct identifiers
    that are not in use, the number of records grows by exactly the number
    that the import reports. *)
Lemma import_count_memory (genId : nat -> string) (clock : nat -> Z)
    (csvData : string) (s : Store) :
  (getUserCount s = MAX_USERS ->
     snd (importUsers genId clock csvData s) = s
     /\ imported (fst (importUsers genId clock csvData s)) = 0%nat)
  /\ ((forall i j, genId i = genId j -> i = j) ->
      (forall i, JSMap.has (genId i) (users s) = false) ->
      getUserCount (snd (importUsers genId clock csvData s))
      = (getUserCount s + imported (fst (importUsers genId clock csvData s)))%nat).
Proof.
  unfold importUsers. split.
  - intros H.
    destruct (importLines_full genId clock (tl (JSString.split newline csvData))
                1 s {| imported := 0; errors := [] |} H) as [H1 H2].
    destruct (importLines genId clock 1 (tl (JSString.split newline csvData))
                (s, {| imported := 0; errors := [] |})) as [s' r'].
    cbn [fst snd] in *. now split.
  - intros Hinj Hfresh.
    pose proof (importLines_grows genId clock Hinj
                  (tl (JSString.split newline csvData)) 1 s
                  {| imported := 0; errors := [] |} (fun j _ => Hfresh j)) as H.
    destruct (importLines genId clock 1 (tl (JSString.split newline csvData))
                (s, {| imported := 0; errors := [] |})) as [s' r'].
    cbn [fst snd imported] in *. lia.
Qed.



(** *** Up to the write: the export read by the import *)

(** The methods up to their write: a line written by [exportUsers] for a record whose identifier,
    name, email and role contain no comma, whose name and email contain no
    quote and are not empty, is read by the import as one new record with
    that email, name and role (the role "user" if it was empty) and the
    password of imported users, provided the email is not indexed and the
    store has room.  The identifier, the time stamps, the active flag and
    the order statistics of the line are not read. *)
Lemma import_reads_export_memory (toISOString : Z -> string) (numberToString : Q -> string)
    (genId : nat -> string) (clock : nat -> Z) (i : nat) (user : User)
    (s : Store) (r : ImportResult) :
  lacks "," (id user) = true -> lacks "," (name user) = true ->
  lacks "," (email user) = true -> lacks "," (role user) = true ->
  lacks quote (name user) = true -> lacks quote (email user) = true ->
  name user <> "" -> email user <> "" ->
  JSMap.has (email user) (emailIndex s) = false ->
  (getUserCount s < MAX_USERS)%nat ->
  let userData := {| d_email := email user; d_name := name user;
                     d_password := "imported123";
                     d_role := Some (if String.eqb (role user) "" then "user"
                                     else role user) |} in
  importLine genId clock i (exportLine toISOString numberToString user) (s, r)
  = (snd (createUser (genId i) (clock i) userData s),
     {| imported := imported r + 1; errors := errors r |})
  /\ JSMap.get (genId i) (users (snd (createUser (genId i) (clock i) userData s)))
     = Some (newUser (genId i) (clock i) userData).
Proof.
  intros Hid Hname Hemail Hrole Hqn Hqe Hn He Hidx Hcap userData.
  split.
  2:{ rewrite createUser_below by assumption. cbn [snd users updateIndexes].
      now rewrite JSMapFacts.get_set, String.eqb_refl. }
  unfold importLine, exportLine.
  cbn [String.concat String.append].
  rewrite (CsvFacts.split_lacks "," (id user)) by assumption.
  rewrite (CsvFacts.split_lacks "," (quoted (name user)))
    by now apply CsvFacts.lacks_comma_quoted.
  rewrite (CsvFacts.split_lacks "," (email user)) by assumption.
  rewrite (CsvFacts.split_lacks "," (role user)) by assumption.
  cbn [length Nat.ltb Nat.leb nth nth_error].
  rewrite CsvFacts.removeAll_quoted by assumption.
  rewrite CsvFacts.removeAll_lacks by assumption.
  rewrite (proj2 (String.eqb_neq (email user) "")) by assumption.
  rewrite (proj2 (String.eqb_neq (name user) "")) by assumption.
  cbn [orb]. rewrite Hidx.
  fold userData. rewrite createUser_below by assumption. reflexivity.
Qed.


(** *** X15: the clean-up of stale records *)






(** *** X16: what the backup rotation leaves alone *)

Lemma get_after_removals (ds : list string) : forall (ls : Storage) k,
  ~ In k ds ->
  JSMap.get k (fold_left (fun l key => JSMap.delete key l) ds ls) = JSMap.get k ls.
Proof.
  induction ds as [| d ds IH]; intros ls k Hn; simpl; [reflexivity |].
  rewrite IH by (intros H; apply Hn; now right).
  rewrite JSMapFacts.get_delete. eqb_cases d k; [| reflexivity].
  exfalso. apply Hn. now left.
Qed.

(** X16: a snapshot never touches an entry of [localStorage] whose key does
    not start with the backup prefix: the blob of the users, the blob of
    the indexes and the session blob read as before. *)
Theorem backup_keeps_other_keys (stringify : JSMap.t User -> Z -> nat -> string)
    (now : Z) (s : Store) (ls : Storage) (key : string) :
  JSString.startsWith key BACKUP_PREFIX = false ->
  JSMap.get key (createBackup stringify now s ls) = JSMap.get key ls.
Proof.
  intros Hk. unfold createBackup, cleanupOldBackups.
  rewrite get_after_removals.
  - rewrite JSMapFacts.get_set. eqb_cases (backupKey now) key; [| reflexivity].
    rewrite OrderFacts.backupKey_prefix in Hk. discriminate.
  - intros Hin.
    match type of Hin with
    | In key (skipn 3 ?R) =>
        assert (H : In key R)
          by (rewrite <- (firstn_skipn 3 R); apply in_or_app; now right)
    end.
    apply in_rev in H.
    apply (Permutation_in _ (RotationFacts.sort_perm _)) in H.
    unfold backupKeysOf in H. apply filter_In in H as [_ H]. congruence.
Qed.

Lemma backup_keeps_other_keys_witness :
  JSMap.get CURRENT_USER_KEY
    (createBackup sampleStringify 1730000000000 (run sampleOps emptyStore)
       (("gearupsports_current_user_v2", "session") :: sampleStorage))
  = Some "session".
Proof.
  rewrite (backup_keeps_other_keys sampleStringify 1730000000000
             (run sampleOps emptyStore)
             (("gearupsports_current_user_v2", "session") :: sampleStorage)
             CURRENT_USER_KEY eq_refl).
  reflexivity.
Defined.

(* ================================================================== *)
(** ** Properties of the session and of the provider *)

Lemma findUserByEmail_spec e s u :
  findUserByEmail e s = Some u <->
  exists k, JSMap.get (normalizeEmail e) (emailIndex s) = Some k
            /\ k <> "" /\ JSMap.get k (users s) = Some u.
Proof.
  unfold findUserByEmail.
  destruct (JSMap.get (normalizeEmail e) (emailIndex s)) as [k |].
  - eqb_cases k "".
    + split; [discriminate | intros [k [[= <-] [H _]]]; contradiction].
    + split.
      * intros H. now exists k.
      * intros [k' [[= <-] [_ H]]]. assumption.
  - split; [discriminate | intros [k [[=] _]]].
Qed.

Lemma findUserByEmail_created s userId now userData e :
  (getUserCount s < MAX_USERS)%nat ->
  userId <> "" ->
  normalizeEmail e = normalizeEmail (d_email userData) ->
  findUserByEmail e (snd (createUser userId now userData s))
  = Some (newUser userId now userData).
Proof.
  intros Hcap Hid He. rewrite createUser_below by assumption. cbn [snd].
  apply findUserByEmail_spec. exists userId. cbn [users emailIndex updateIndexes].
  rewrite He.
  change (email (newUser userId now userData))
    with (normalizeEmail (d_email userData)).
  now rewrite !JSMapFacts.get_set, !String.eqb_refl.
Qed.

(** An email that satisfies the pattern has a character that is not white
    space, so that its trimmed form is not empty. *)
Lemma trimStart_keeps c r :
  JSString.is_ws c = false -> JSString.trimStart (String c r) = String c r.
Proof. intros H. simpl. now rewrite H. Qed.

Lemma validEmail_not_blank e :
  validEmail e = true -> JSString.trim e = "" -> False.
Proof.
  unfold validEmail. destruct e as [| c r]; [discriminate |].
  cbn [JSString.split].
  destruct (Ascii.eqb c "@").
  { destruct (JSString.split "@" r) as [| d [| x y]]; discriminate. }
  destruct (JSString.split "@" r) as [| x [| d [| y z]]]; try discriminate.
  intros V. apply andb_prop in V as [V _]. apply andb_prop in V as [V _].
  apply andb_prop in V as [_ V]. unfold noSpace in V. cbn in V.
  apply andb_prop in V as [W _]. apply negb_true_iff in W.
  unfold JSString.trim. rewrite trimStart_keeps by assumption.
  cbn [JSString.trimEnd]. destruct (JSString.trimEnd r); [rewrite W |]; discriminate.
Qed.

Section ProviderFacts.
Variable stringify : User -> string.
Variable parse : string -> Outcome (option User).

(** *** X17: the session blob *)

(** X17: a saved user is read back when [JSON.parse] inverts
    [JSON.stringify] on it; after [clearCurrentUser] nothing is read; and a
    blob that does not parse is removed by the read, so that the next read
    finds nothing. *)
Theorem session_blob (ls : Storage) :
  (forall user,
     parse (stringify user) = Return (Some user) -> stringify user <> "" ->
     getCurrentUser parse (saveCurrentUser stringify user ls)
     = (Some user, saveCurrentUser stringify user ls))
  /\ getCurrentUser parse (clearCurrentUser ls) = (None, clearCurrentUser ls)
  /\ (forall blob message,
        JSMap.get CURRENT_USER_KEY ls = Some blob -> blob <> "" ->
        parse blob = Throw message ->
        getCurrentUser parse ls = (None, clearCurrentUser ls)
        /\ getCurrentUser parse (snd (getCurrentUser parse ls))
           = (None, clearCurrentUser ls)).
Proof.
  assert (Hclear : getCurrentUser parse (clearCurrentUser ls)
                   = (None, clearCurrentUser ls)).
  { unfold getCurrentUser, clearCurrentUser.
    now rewrite JSMapFacts.get_delete, String.eqb_refl. }
  split; [| split].
  - intros user Hp Hne. unfold getCurrentUser, saveCurrentUser.
    rewrite JSMapFacts.get_set, String.eqb_refl.
    rewrite (proj2 (String.eqb_neq _ "")) by assumption. now rewrite Hp.
  - exact Hclear.
  - intros blob message G Hne Hp.
    assert (E : getCurrentUser parse ls = (None, clearCurrentUser ls)).
    { unfold getCurrentUser. rewrite G.
      rewrite (proj2 (String.eqb_neq blob "")) by assumption. now rewrite Hp. }
    split; [exact E |]. rewrite E. exact Hclear.
Qed.

Lemma login_succeeds now e pw a user :
  findUserByEmail e (db a) = Some user ->
  password user = Some pw -> isActive user = true ->
  fst (login stringify now e pw a) = succeeded.
Proof.
  intros F P A. unfold login. now rewrite F, P, String.eqb_refl, A.
Qed.

(** *** X18: login *)


(** *** Up to the write: registration *)

(** The methods up to their write: [register] succeeds only for an email that leads to no record and
    satisfies the pattern, a name that is not blank and a password of six
    characters or more; a registration that fails changes nothing.  When
    those hold, the store has room and the generated identifier is not
    empty, it succeeds, the new record becomes the current user, a login
    with any spelling of the email and the same password succeeds, and a
    second registration with such a spelling is refused. *)
Lemma register_outcome_memory (userId : string) (now : Z) (n e pw : string) (a : Auth) :
  (fst (register stringify userId now n e pw a) = succeeded ->
   findUserByEmail e (db a) = None /\ validEmail e = true
   /\ JSString.trim n <> "" /\ (6 <= String.length pw)%nat)
  /\ (fst (register stringify userId now n e pw a) <> succeeded ->
      snd (register stringify userId now n e pw a) = a)
  /\ (findUserByEmail e (db a) = None -> validEmail e = true ->
      JSString.trim n <> "" -> (6 <= String.length pw)%nat ->
      (getUserCount (db a) < MAX_USERS)%nat -> userId <> "" ->
      let a' := snd (register stringify userId now n e pw a) in
      let user := newUser userId now {| d_email := e; d_name := n; d_password := pw;
                                        d_role := Some "user" |} in
      fst (register stringify userId now n e pw a) = succeeded
      /\ currentUser a' = Some (withoutPassword user)
      /\ forall e', normalizeEmail e' = normalizeEmail e ->
           (forall now', fst (login stringify now' e' pw a') = succeeded)
           /\ (forall userId' now' n' pw',
                 fst (register stringify userId' now' n' e' pw' a')
                 = failed "An account with this email already exists")).
Proof.
  unfold register.
  destruct (findUserByEmail e (db a)) as [u |] eqn:F.
  { cbn [fst snd]. split; [discriminate | split; [reflexivity | discriminate]]. }
  eqb_cases (JSString.trim n) "".
  { cbn [fst snd]. split; [discriminate | split; [reflexivity |]].
    intros _ _ Hn. now contradiction Hn. }
  destruct (validEmail e) eqn:V.
  2:{ rewrite orb_true_r. cbn [fst snd].
      split; [discriminate | split; [reflexivity |]]. intros _ Hv. discriminate. }
  eqb_cases (JSString.trim e) "".
  { cbn [orb fst snd]. split; [discriminate |]. split; [reflexivity |].
    intros _ _ _ _ _ _. exfalso. clear F.
    (* an email that satisfies the pattern is not blank *)
    now apply (validEmail_not_blank e). }
  cbn [orb negb].
  destruct (Nat.ltb_spec (String.length pw) 6) as [L | L].
  { cbn [fst snd]. split; [discriminate | split; [reflexivity |]]. intros; lia. }
  split; [| split].
  - intros _. repeat split; auto.
  - intros H. destruct (createUser _ _ _ _) as [[u | m] db1] eqn:C; cbn [fst snd] in *.
    + now contradiction H.
    + unfold createUser in C.
      destruct (MAX_USERS <=? JSMap.size (users (db a)))%nat; [| discriminate].
      injection C as _ <-. now destruct a.
  - intros _ _ _ _ Hcap Hid. cbv zeta.
    rewrite createUser_below by assumption. cbn [fst snd db currentUser].
    split; [reflexivity |]. split; [reflexivity |].
    intros e' He'.
    pose proof (findUserByEmail_created (db a) userId now
                  {| d_email := e; d_name := n; d_password := pw;
                     d_role := Some "user" |} e' Hcap Hid He') as F'.
    rewrite createUser_below in F' by assumption. cbn [snd] in F'.
    split.
    + intros now'. unfold login. cbn [db]. rewrite F'.
      cbn [password newUser d_password isActive negb]. rewrite String.eqb_refl.
      reflexivity.
    + intros userId' now' n' pw'. cbn [db]. now rewrite F'.
Qed.

(** *** X20, X21: the session across a reload *)

Lemma getCurrentUser_some ls saved :
  fst (getCurrentUser parse ls) = Some saved ->
  getCurrentUser parse ls = (Some saved, ls).
Proof.
  unfold getCurrentUser.
  destruct (JSMap.get CURRENT_USER_KEY ls) as [blob |]; [| discriminate].
  destruct (String.eqb blob ""); [discriminate |].
  destruct (parse blob) as [u | m]; cbn [fst]; [| discriminate].
  now intros ->.
Qed.

Lemma getCurrentUser_cleared ls :
  fst (getCurrentUser parse (clearCurrentUser ls)) = None.
Proof.
  unfold getCurrentUser, clearCurrentUser.
  now rewrite JSMapFacts.get_delete, String.eqb_refl.
Qed.


(** X21: when the storage holds the session of a user, and the record
    under that user's identifier has been deleted or deactivated,
    [checkSession] sets no current user and removes the session, so that
    nothing is read from the storage afterwards. *)
Theorem session_revoked (a : Auth) (saved : User) (db' : Store) :
  fst (getCurrentUser parse (storage a)) = Some saved ->
  db' = snd (deleteUser (id saved) (db a))
  \/ db' = snd (deactivateUser (id saved) (db a)) ->
  let a' := checkSession parse
              {| db := db'; currentUser := None; storage := storage a |} in
  currentUser a' = None
  /\ fst (getCurrentUser parse (storage a')) = None
  /\ db a' = db'.
Proof.
  intros G Hdb. cbv zeta. apply getCurrentUser_some in G.
  unfold checkSession. cbn [storage db currentUser]. rewrite G.
  assert (H : findUserById (id saved) db' = None
              \/ exists u, findUserById (id saved) db' = Some u /\ isActive u = false).
  { unfold findUserById. destruct Hdb as [-> | ->].
    - left. unfold deleteUser.
      destruct (JSMap.get (id saved) (users (db a))) eqn:E; cbn [snd users].
      + now rewrite JSMapFacts.get_delete, String.eqb_refl.
      + now rewrite E.
    - unfold deactivateUser.
      destruct (JSMap.get (id saved) (users (db a))) as [u |] eqn:E;
        cbn [snd users withUsers].
      + right. rewrite JSMapFacts.get_set, String.eqb_refl. eexists.
        split; reflexivity.
      + left. now rewrite E. }
  destruct H as [-> | [u [-> Hu]]]; [| rewrite Hu]; cbn [currentUser storage db];
    (split; [reflexivity | split; [apply getCurrentUser_cleared | reflexivity]]).
Qed.

(** *** Up to the write: a deactivated account *)

(** The methods up to their write: once the record that an email leads to is deactivated, a login
    with that email and the right password is refused with the message for
    deactivated accounts and changes nothing; after [activateUser] on a
    record that was active before, the login succeeds again. *)
Lemma deactivated_cannot_login_memory (now : Z) (e pw : string) (a : Auth) (user : User) :
  findUserByEmail e (db a) = Some user ->
  JSMap.get (normalizeEmail e) (emailIndex (db a)) = Some (id user) ->
  password user = Some pw ->
  let a1 := {| db := snd (deactivateUser (id user) (db a));
               currentUser := currentUser a; storage := storage a |} in
  let a2 := {| db := snd (activateUser (id user) (db a1));
               currentUser := currentUser a; storage := storage a |} in
  login stringify now e pw a1
  = (failed "Account is deactivated. Please contact support.", a1)
  /\ (isActive user = true -> fst (login stringify now e pw a2) = succeeded).
Proof.
  intros F Hk P. cbv zeta.
  apply findUserByEmail_spec in F as (k & Gk & Hk0 & Gu).
  rewrite Hk in Gk. injection Gk as <-.
  unfold deactivateUser. rewrite Gu. cbn [snd]. split.
  - unfold login. cbn [db].
    assert (F1 : findUserByEmail e
                   (withUsers (JSMap.set (id user) (setActive false user)
                                 (users (db a))) (db a))
                 = Some (setActive false user)).
    { apply findUserByEmail_spec. exists (id user). split; [| split]; auto.
      cbn [users withUsers]. now rewrite JSMapFacts.get_set, String.eqb_refl. }
    rewrite F1. cbn [password setActive isActive]. rewrite P, String.eqb_refl.
    reflexivity.
  - intros A. apply (login_succeeds _ _ _ _ user); auto. cbn [db].
    unfold activateUser. cbn [users withUsers].
    rewrite JSMapFacts.get_set, String.eqb_refl. cbn [snd].
    apply findUserByEmail_spec. exists (id user). split; [| split]; auto.
    cbn [users withUsers]. rewrite JSMapFacts.get_set, String.eqb_refl.
    now rewrite setActive_back.
Qed.

(** *** Up to the write: profile updates *)

(** The methods up to their write: [updateProfile] without a current user is refused and changes
    nothing, as does every update that fails; whatever the updates are, no
    record other than the current user's is touched; and an update that
    succeeds makes the merged record, without its password, the current
    user and the saved session. *)
Lemma updateProfile_outcome_memory (updates : PartialUser) (a : Auth) :
  let r := updateProfile stringify updates a in
  (currentUser a = None -> r = (failed "Not authenticated", a))
  /\ (fst r <> succeeded -> snd r = a)
  /\ (forall other,
        (forall user, currentUser a = Some user -> other <> id user) ->
        JSMap.get other (users (db (snd r))) = JSMap.get other (users (db a)))
  /\ (fst r = succeeded ->
      exists user record,
        currentUser a = Some user
        /\ JSMap.get (id user) (users (db a)) = Some record
        /\ JSMap.get (id user) (users (db (snd r))) = Some (merge record updates)
        /\ currentUser (snd r) = Some (withoutPassword (merge record updates))
        /\ storage (snd r)
           = saveCurrentUser stringify (withoutPassword (merge record updates))
               (storage a)).
Proof.
  cbv zeta. unfold updateProfile.
  destruct (currentUser a) as [cu |] eqn:C.
  2:{ cbn [fst snd]. split; [reflexivity |]. split; [reflexivity |].
      split; [reflexivity | discriminate]. }
  split; [discriminate |].
  unfold updateUser.
  destruct (JSMap.get (id cu) (users (db a))) as [u |] eqn:G.
  2:{ cbn [fst snd db]. split; [| split]; try discriminate.
      - intros _. destruct a; cbn in *. now subst.
      - reflexivity. }
  destruct (_ && _); cbn [fst snd db].
  { split; [| split]; try discriminate.
    - intros _. destruct a; cbn in *. now subst.
    - reflexivity. }
  split; [intros H; now contradiction H |]. split.
  - intros other Hne. cbn [users]. rewrite JSMapFacts.get_set.
    rewrite (proj2 (String.eqb_neq (id cu) other)); [reflexivity |].
    intros E. apply (Hne cu eq_refl). now symmetry.
  - intros _. exists cu, u. cbn [users currentUser storage].
    rewrite JSMapFacts.get_set, String.eqb_refl. auto.
Qed.

End ProviderFacts.

(** *** Instances on the sample store *)

Lemma session_blob_witness :
  getCurrentUser (sampleParse [kavya]) (saveCurrentUser sampleBlob kavya sampleStorage)
  = (Some kavya, saveCurrentUser sampleBlob kavya sampleStorage)
  /\ fst (getCurrentUser (sampleParse [kavya])
            (JSMap.set CURRENT_USER_KEY "user:u7" sampleStorage)) = None
  /\ JSMap.get CURRENT_USER_KEY
       (snd (getCurrentUser (sampleParse [kavya])
               (JSMap.set CURRENT_USER_KEY "user:u7" sampleStorage))) = None.
Proof.
  split; [| split].
  - apply (proj1 (session_blob sampleBlob (sampleParse [kavya]) sampleStorage)).
    + reflexivity.
    + discriminate.
  - rewrite (proj1 (proj2 (proj2 (session_blob sampleBlob (sampleParse [kavya])
                (JSMap.set CURRENT_USER_KEY "user:u7" sampleStorage)))
                "user:u7" "Unexpected token" eq_refl ltac:(discriminate) eq_refl)).
    reflexivity.
  - rewrite (proj1 (proj2 (proj2 (session_blob sampleBlob (sampleParse [kavya])
                (JSMap.set CURRENT_USER_KEY "user:u7" sampleStorage)))
                "user:u7" "Unexpected token" eq_refl ltac:(discriminate) eq_refl)).
    reflexivity.
Defined.




Lemma session_revoked_witness :
  let signedIn := {| db := db sampleAuth; currentUser := Some (withoutPassword kavya);
                     storage := saveCurrentUser sampleBlob (withoutPassword kavya)
                                  sampleStorage |} in
  let a' := checkSession (sampleParse [withoutPassword kavya])
              {| db := snd (deleteUser "u3" (db signedIn)); currentUser := None;
                 storage := storage signedIn |} in
  currentUser a' = None
  /\ fst (getCurrentUser (sampleParse [withoutPassword kavya]) (storage a')) = None.
Proof.
  cbv zeta.
  destruct (session_revoked (sampleParse [withoutPassword kavya])
              {| db := db sampleAuth; currentUser := Some (withoutPassword kavya);
                 storage := saveCurrentUser sampleBlob (withoutPassword kavya)
                              sampleStorage |}
              (withoutPassword kavya)
              (snd (deleteUser "u3" (db sampleAuth)))) as (H1 & H2 & _).
  - reflexivity.
  - left. vm_compute. reflexivity.
  - split; [exact H1 | exact H2].
Defined.



(* ================================================================== *)
(** ** Properties of the initialisation *)

Module PlainFacts.

Lemma plain_app a b : plain (a ++ b) = plain a && plain b.
Proof.
  unfold plain. induction a as [| c a IH]; simpl; [reflexivity |].
  now rewrite IH, andb_assoc.
Qed.

Lemma toLowerCase_plain s : plain s = true -> JSString.toLowerCase s = s.
Proof.
  unfold plain. induction s as [| c s IH]; simpl; [reflexivity |].
  intros H. apply andb_prop in H as [Hc Hs]. apply andb_prop in Hc as [_ Hc].
  apply Ascii.eqb_eq in Hc. now rewrite Hc, IH.
Qed.

Lemma trimEnd_plain s : plain s = true -> JSString.trimEnd s = s.
Proof.
  unfold plain. induction s as [| c s IH]; simpl; [reflexivity |].
  intros H. apply andb_prop in H as [Hc Hs]. apply andb_prop in Hc as [Hc _].
  apply negb_true_iff in Hc. rewrite IH by assumption.
  destruct s; [now rewrite Hc | reflexivity].
Qed.

Lemma trimStart_plain s : plain s = true -> JSString.trimStart s = s.
Proof.
  unfold plain. destruct s as [| c s]; simpl; [reflexivity |].
  intros H. apply andb_prop in H as [Hc _]. apply andb_prop in Hc as [Hc _].
  apply negb_true_iff in Hc. now rewrite Hc.
Qed.

Lemma normalizeEmail_plain s : plain s = true -> normalizeEmail s = s.
Proof.
  intros H. unfold normalizeEmail, JSString.trim.
  now rewrite toLowerCase_plain, trimStart_plain, trimEnd_plain.
Qed.

Lemma plainChar_digit d : (d < 10)%N -> plainChar (JSString.digit d) = true.
Proof.
  intros H.
  assert (E : In d (map N.of_nat (seq 0 10))).
  { apply in_map_iff. exists (N.to_nat d). split; [lia |]. apply in_seq. lia. }
  revert E. generalize d. apply Forall_forall.
  repeat constructor.
Qed.

Lemma plain_digits fuel n :
  forallb plainChar (JSString.digits_rev fuel n) = true.
Proof.
  revert n. induction fuel as [| f IH]; intros n; simpl; [reflexivity |].
  destruct (N.ltb_spec n 10).
  - simpl. now rewrite plainChar_digit.
  - simpl. rewrite IH, plainChar_digit; [reflexivity |].
    apply N.mod_lt. lia.
Qed.

Lemma plain_string_of_nat i : plain (JSString.string_of_nat i) = true.
Proof.
  unfold plain, JSString.string_of_nat, JSString.string_of_N.
  rewrite list_ascii_of_string_of_list_ascii.
  apply forallb_forall. intros c Hc. apply in_rev in Hc.
  revert c Hc. apply forallb_forall. apply plain_digits.
Qed.

Lemma pick_In l r : l <> [] -> In (pick l r) l.
Proof.
  intros H. unfold pick. apply nth_In. apply Nat.mod_upper_bound.
  destruct l; [congruence | discriminate].
Qed.

Lemma plain_sample random i : plain (d_email (sampleUser random i)) = true.
Proof.
  unfold sampleUser. cbn [d_email].
  rewrite !plain_app, plain_string_of_nat.
  assert (F : forall x, In x firstNames -> plain (JSString.toLowerCase x) = true).
  { apply Forall_forall. repeat constructor. }
  assert (L : forall x, In x lastNames -> plain (JSString.toLowerCase x) = true).
  { apply Forall_forall. repeat constructor. }
  assert (D : forall x, In x domains -> plain x = true).
  { apply Forall_forall. repeat constructor. }
  rewrite (F (pick firstNames _)), (L (pick lastNames _)), (D (pick domains _));
    try (apply pick_In; discriminate).
  reflexivity.
Qed.

Lemma initialData_plain random d :
  In d (initialData random) -> normalizeEmail (d_email d) = d_email d.
Proof.
  unfold initialData. intros H. apply in_app_or in H as [H | H].
  - revert d H. apply Forall_forall. repeat constructor.
  - apply in_map_iff in H as (i & <- & _). apply normalizeEmail_plain, plain_sample.
Qed.

End PlainFacts.

Section CreateMissing.
Variables (genId : nat -> string) (clock : nat -> Z).

Lemma createMissing_indexed n datas s :
  allIndexed datas s = true -> createMissing genId clock n datas s = (Return tt, s).
Proof.
  unfold allIndexed. revert n. induction datas as [| d datas IH]; intros n; simpl.
  - reflexivity.
  - intros H. apply andb_prop in H as [Hd H]. rewrite Hd. now apply IH.
Qed.

Lemma createMissing_at_capacity n datas s :
  (MAX_USERS <= getUserCount s)%nat ->
  snd (createMissing genId clock n datas s) = s
  /\ (fst (createMissing genId clock n datas s) = Return tt <->
      allIndexed datas s = true).
Proof.
  unfold getUserCount, allIndexed. intros Hcap. revert n.
  induction datas as [| d datas IH]; intros n; simpl.
  - split; [reflexivity | split; reflexivity].
  - destruct (JSMap.has (d_email d) (emailIndex s)); [apply IH |].
    unfold createUser. rewrite (proj2 (Nat.leb_le _ _) Hcap). cbn [fst snd].
    split; [reflexivity | split; discriminate].
Qed.

Lemma createUser_emailIndex_has k i t d s :
  JSMap.has k (emailIndex s) = true ->
  JSMap.has k (emailIndex (snd (createUser i t d s))) = true.
Proof.
  intros H. unfold createUser.
  destruct (MAX_USERS <=? JSMap.size (users s))%nat; cbn [snd]; [assumption |].
  cbn [emailIndex updateIndexes]. rewrite JSMapFacts.has_set, H. apply orb_true_r.
Qed.

Lemma createMissing_keeps_has k n datas s :
  JSMap.has k (emailIndex s) = true ->
  JSMap.has k (emailIndex (snd (createMissing genId clock n datas s))) = true.
Proof.
  revert n s. induction datas as [| d datas IH]; intros n s H; simpl.
  - assumption.
  - destruct (JSMap.has (d_email d) (emailIndex s)); [now apply IH |].
    pose proof (createUser_emailIndex_has k (genId n) (clock n) d s H) as H'.
    destruct (createUser (genId n) (clock n) d s) as [[u | m] s']; cbn [snd] in *.
    + now apply IH.
    + assumption.
Qed.

Lemma createMissing_returns n datas s :
  fst (createMissing genId clock n datas s) = Return tt ->
  (forall d, In d datas -> normalizeEmail (d_email d) = d_email d) ->
  allIndexed datas (snd (createMissing genId clock n datas s)) = true.
Proof.
  unfold allIndexed. revert n s.
  induction datas as [| d datas IH]; intros n s; simpl.
  - reflexivity.
  - intros R Hn.
    destruct (JSMap.has (d_email d) (emailIndex s)) eqn:Hd.
    + rewrite IH by auto. now rewrite createMissing_keeps_has.
    + unfold createUser in *.
      destruct (MAX_USERS <=? JSMap.size (users s))%nat; [discriminate |].
      cbn [fst snd] in *. rewrite IH by auto.
      rewrite createMissing_keeps_has; [reflexivity |].
      cbn [emailIndex updateIndexes newUser email].
      rewrite (Hn d) by now left.
      now rewrite JSMapFacts.has_set, String.eqb_refl.
Qed.

Lemma createMissing_count n datas s :
  (getUserCount s <= getUserCount (snd (createMissing genId clock n datas s))
   <= getUserCount s + length datas)%nat.
Proof.
  revert n s. induction datas as [| d datas IH]; intros n s; simpl.
  - lia.
  - destruct (JSMap.has (d_email d) (emailIndex s)).
    + specialize (IH (S n) s). lia.
    + unfold createUser.
      destruct (MAX_USERS <=? JSMap.size (users s))%nat; cbn [snd]; [lia |].
      match goal with |- context [createMissing _ _ _ _ ?s1] =>
        specialize (IH (S n) s1);
        assert (E : (getUserCount s <= getUserCount s1 <= S (getUserCount s))%nat)
      end.
      { unfold getUserCount. cbn [users updateIndexes].
        rewrite JSMapMore.size_set. destruct (JSMap.has _ _); lia. }
      lia.
Qed.

End CreateMissing.

Lemma createMissing_app genId clock n l1 l2 s :
  createMissing genId clock n (l1 ++ l2) s
  = match createMissing genId clock n l1 s with
    | (Return _, s') => createMissing genId clock (n + length l1) l2 s'
    | (Throw message, s') => (Throw message, s')
    end.
Proof.
  revert n s. induction l1 as [| d l1 IH]; intros n s; simpl.
  - now rewrite Nat.add_0_r.
  - destruct (JSMap.has (d_email d) (emailIndex s)).
    + rewrite IH. now rewrite Nat.add_succ_r.
    + destruct (createUser (genId n) (clock n) d s) as [[u | m] s'].
      * rewrite IH. now rewrite Nat.add_succ_r.
      * reflexivity.
Qed.

Lemma createMissing_throws_at_capacity genId clock n datas s :
  (MAX_USERS <= getUserCount s)%nat ->
  allIndexed datas s = false ->
  fst (createMissing genId clock n datas s)
  = Throw ("Maximum user limit reached (" ++ JSString.string_of_nat MAX_USERS ++ ")")%string.
Proof.
  unfold allIndexed, getUserCount. intros Hcap. revert n.
  induction datas as [| d datas IH]; intros n; simpl.
  - discriminate.
  - destruct (JSMap.has (d_email d) (emailIndex s)); cbn [andb].
    + apply IH.
    + intros _. unfold createUser. now rewrite (proj2 (Nat.leb_le _ _) Hcap).
Qed.

Lemma initialize_as_createMissing random genId clock s :
  initializeDefaultUsers random genId clock s
  = createMissing genId clock 0 (initialData random) s.
Proof.
  unfold initializeDefaultUsers, initialData, generateSampleUsers.
  rewrite createMissing_app.
  destruct (createMissing genId clock 0 defaultUsers s) as [[[] | m] s']; reflexivity.
Qed.

(** The methods up to their write: [initializeDefaultUsers] adds at most fifty records and removes
    none from the count.  When it returns without an error, each of the
    three default emails and of the 47 sampled emails is a key of the email
    index, and running it again with the same draws returns without an
    error and changes nothing. *)
Lemma initialize_outcome_memory (random : nat -> nat) (genId : nat -> string)
    (clock : nat -> Z) (s : Store) :
  let r := initializeDefaultUsers random genId clock s in
  (getUserCount s <= getUserCount (snd r) <= getUserCount s + 50)%nat
  /\ (fst r = Return tt ->
      (forall d, In d (initialData random) ->
         JSMap.has (d_email d) (emailIndex (snd r)) = true)
      /\ forall genId' clock',
           initializeDefaultUsers random genId' clock' (snd r) = (Return tt, snd r)).
Proof.
  cbv zeta. rewrite initialize_as_createMissing. split.
  - pose proof (createMissing_count genId clock 0 (initialData random) s) as H.
    replace (length (initialData random)) with 50%nat in H; [exact H |].
    unfold initialData. now rewrite length_app, length_map, length_seq.
  - intros R.
    pose proof (createMissing_returns genId clock 0 (initialData random) s R
                  (PlainFacts.initialData_plain random)) as H.
    split.
    + intros d Hd. unfold allIndexed in H. rewrite forallb_forall in H. now apply H.
    + intros genId' clock'. rewrite initialize_as_createMissing.
      now apply createMissing_indexed.
Qed.


(** X25: on a store that is full, [initializeDefaultUsers] changes nothing,
    and it returns without an error exactly when every default email and
    every sampled email is already a key of the email index; otherwise the
    error of [createUser] leaves it. *)
Theorem initialize_at_capacity (random : nat -> nat) (genId : nat -> string)
    (clock : nat -> Z) (s : Store) :
  (MAX_USERS <= getUserCount s)%nat ->
  let r := initializeDefaultUsers random genId clock s in
  snd r = s
  /\ (fst r = Return tt <-> allIndexed (initialData random) s = true)
  /\ (allIndexed (initialData random) s = false ->
      fst r = Throw ("Maximum user limit reached ("
                     ++ JSString.string_of_nat MAX_USERS ++ ")")%string).
Proof.
  intros Hcap. cbv zeta. rewrite initialize_as_createMissing.
  destruct (createMissing_at_capacity genId clock 0 (initialData random) s Hcap)
    as [H1 H2].
  split; [exact H1 |]. split; [exact H2 |].
  now apply createMissing_throws_at_capacity.
Qed.

Lemma initialize_at_capacity_witness :
  snd (initializeDefaultUsers sampleRandom sampleGenId sampleClock fullStore) = fullStore
  /\ fst (initializeDefaultUsers sampleRandom sampleGenId sampleClock fullStore)
     = Throw "Maximum user limit reached (1000)".
Proof.
  assert (H : (MAX_USERS <= getUserCount fullStore)%nat) by (vm_compute; lia).
  destruct (initialize_at_capacity sampleRandom sampleGenId sampleClock fullStore H)
    as (H1 & _ & H3).
  split; [exact H1 |]. apply H3. vm_compute. reflexivity.
Defined.

(* ================================================================== *)
(** ** The methods with their write, against their part up to it *)

Lemma withStore_store d : withStore (store d) d = d.
Proof. now destruct d. Qed.

Lemma createUser_throws userId now userData s message s' :
  createUser userId now userData s = (Throw message, s') -> s' = s.
Proof.
  unfold createUser. destruct (MAX_USERS <=? JSMap.size (users s))%nat; congruence.
Qed.

Lemma updateUser_idle userId updates s s' :
  (updateUser userId updates s = (Return None, s')
   \/ exists message, updateUser userId updates s = (Throw message, s')) -> s' = s.
Proof.
  unfold updateUser. destruct (JSMap.get userId (users s)).
  - destruct (_ && _); intros [H | [m H]]; congruence.
  - intros [H | [m H]]; congruence.
Qed.

Module MethodFacts.
Section Quota.
Variable quota : nat -> option Z.

(** What the three lemmas of a method say: the result is that of the part
    up to the write, the table afterwards has shrunk from the one of that
    part, and it is the one of that part when the write succeeds. *)
Ltac after_write :=
  cbn [fst snd];
  split; [reflexivity | split];
  [ apply PersistedFacts.saveToStorage_Shrinks
  | intros Hq; now apply PersistedFacts.saveToStorage_written ].

Ltac idle d :=
  cbn [fst snd];
  split; [reflexivity | split];
  [rewrite withStore_store; apply Shrinks_refl | reflexivity].

Lemma createUser_spec userId now userData d :
  let r := createUser userId now userData (store d) in
  let r' := Persisted.createUser quota userId now userData d in
  fst r' = fst r
  /\ Shrinks (withStore (snd r) d) (snd r')
  /\ (quota (writes d) = None -> store (snd r') = snd r).
Proof.
  cbv zeta. unfold Persisted.createUser.
  destruct (createUser userId now userData (store d)) as [[u | m] s'] eqn:E.
  - after_write.
  - apply createUser_throws in E. subst s'. idle d.
Qed.

Lemma updateUser_spec userId updates d :
  let r := updateUser userId updates (store d) in
  let r' := Persisted.updateUser quota userId updates d in
  fst r' = fst r
  /\ Shrinks (withStore (snd r) d) (snd r')
  /\ (quota (writes d) = None -> store (snd r') = snd r).
Proof.
  cbv zeta. unfold Persisted.updateUser.
  destruct (updateUser userId updates (store d)) as [[[u |] | m] s'] eqn:E.
  - after_write.
  - assert (s' = store d) by (apply (updateUser_idle userId updates); now left).
    subst s'. idle d.
  - assert (s' = store d) by (apply (updateUser_idle userId updates); right; now exists m).
    subst s'. idle d.
Qed.

Lemma updateUserRole_spec userId newRole d :
  let r := updateUserRole userId newRole (store d) in
  let r' := Persisted.updateUserRole quota userId newRole d in
  fst r' = fst r
  /\ Shrinks (withStore (snd r) d) (snd r')
  /\ (quota (writes d) = None -> store (snd r') = snd r).
Proof.
  cbv zeta. unfold Persisted.updateUserRole, updateUserRole.
  destruct (JSMap.get userId (users (store d))); [after_write | idle d].
Qed.

Lemma deactivateUser_spec userId d :
  let r := deactivateUser userId (store d) in
  let r' := Persisted.deactivateUser quota userId d in
  fst r' = fst r
  /\ Shrinks (withStore (snd r) d) (snd r')
  /\ (quota (writes d) = None -> store (snd r') = snd r).
Proof.
  cbv zeta. unfold Persisted.deactivateUser, deactivateUser.
  destruct (JSMap.get userId (users (store d))); [after_write | idle d].
Qed.

Lemma activateUser_spec userId d :
  let r := activateUser userId (store d) in
  let r' := Persisted.activateUser quota userId d in
  fst r' = fst r
  /\ Shrinks (withStore (snd r) d) (snd r')
  /\ (quota (writes d) = None -> store (snd r') = snd r).
Proof.
  cbv zeta. unfold Persisted.activateUser, activateUser.
  destruct (JSMap.get userId (users (store d))); [after_write | idle d].
Qed.

Lemma deleteUser_spec userId d :
  let r := deleteUser userId (store d) in
  let r' := Persisted.deleteUser quota userId d in
  fst r' = fst r
  /\ Shrinks (withStore (snd r) d) (snd r')
  /\ (quota (writes d) = None -> store (snd r') = snd r).
Proof.
  cbv zeta. unfold Persisted.deleteUser, Persisted.deleteUserWith.
  destruct (JSMap.get userId (users (store d))) as [user |] eqn:G.
  - assert (F : fst (deleteUser userId (store d)) = true)
      by (unfold deleteUser; now rewrite G).
    rewrite F. after_write.
  - unfold deleteUser. rewrite G. idle d.
Qed.

Lemma updateLastLogin_spec userId now d :
  let s' := updateLastLogin userId now (store d) in
  let d' := Persisted.updateLastLogin quota userId now d in
  Shrinks (withStore s' d) d'
  /\ (quota (writes d) = None -> store d' = s').
Proof.
  cbv zeta. unfold Persisted.updateLastLogin, updateLastLogin.
  destruct (JSMap.get userId (users (store d))).
  - split; [apply PersistedFacts.saveToStorage_Shrinks |].
    intros Hq. now apply PersistedFacts.saveToStorage_written.
  - split; [rewrite withStore_store; apply Shrinks_refl | reflexivity].
Qed.

End Quota.
End MethodFacts.

(* ================================================================== *)
(** ** Properties of the methods with their write *)

(** *** X26: the write and its clean-up *)

(** X26: [saveToStorage] is total and satisfies the equation that the
    source gives for it: a table over the ceiling is not written, a write
    that succeeds changes nothing, and a write that fails runs
    [cleanupOldData].  Whatever the writes do, it adds and changes no
    record, keeps every active record and does not enlarge the table.
    When the write fails and the writes that follow succeed, the table
    afterwards holds exactly the records that were not stale at the date of
    the clean-up. *)
Theorem saveToStorage_outcome (quota : nat -> option Z) (d : Db) :
  Persisted.saveToStorage quota d
  = (if (MAX_USERS <? JSMap.size (users (store d)))%nat then d
     else match quota (writes d) with
          | None => attempted d
          | Some twoYearsAgo =>
              Persisted.cleanupOldData quota twoYearsAgo (attempted d)
          end)
  /\ Shrinks d (Persisted.saveToStorage quota d)
  /\ (forall fuel, (JSMap.size (users (store d)) < fuel)%nat ->
        Persisted.saveToStorageWithin quota fuel d = Persisted.saveToStorage quota d)
  /\ (forall twoYearsAgo,
        (JSMap.size (users (store d)) <= MAX_USERS)%nat ->
        quota (writes d) = Some twoYearsAgo ->
        (forall n, (writes d < n)%nat -> quota n = None) ->
        forall userId user,
          JSMap.get userId (users (store (Persisted.saveToStorage quota d)))
          = Some user <->
          JSMap.get userId (users (store d)) = Some user
          /\ isStale twoYearsAgo user = false).
Proof.
  split; [apply PersistedFacts.saveToStorage_eq |].
  split; [apply PersistedFacts.saveToStorage_Shrinks |].
  split.
  { intros fuel Hf. unfold Persisted.saveToStorage.
    apply PersistedFacts.saveToStorageWithin_fuel; lia. }
  intros h Hsize Hq Hlater userId user.
  rewrite PersistedFacts.saveToStorage_eq, Hq.
  rewrite (proj2 (Nat.ltb_ge _ _) Hsize).
  unfold Persisted.cleanupOldData, Persisted.cleanupOldDataWith.
  (* the removals of the clean-up all write with success *)
  set (step := fun (d' : Db) (userId : string) =>
         match JSMap.get userId (users (store d')) with
         | Some user => if isStale h user
                        then snd (Persisted.deleteUser quota userId d') else d'
         | None => d'
         end).
  assert (Hinv : forall keys d0, (writes d < writes d0)%nat ->
            (writes d < writes (fold_left step keys d0))%nat
            /\ forall k,
                 JSMap.get k (users (store (fold_left step keys d0)))
                 = match JSMap.get k (users (store d0)) with
                   | Some u => if JSSet.has k keys && isStale h u then None else Some u
                   | None => None
                   end).
  { induction keys as [| x keys IH]; intros d0 Hw; simpl.
    - split; [assumption |]. intros k. now destruct (JSMap.get k (users (store d0))).
    - assert (Hstep : (writes d < writes (step d0 x))%nat
                      /\ forall k, JSMap.get k (users (store (step d0 x)))
                           = match JSMap.get k (users (store d0)) with
                             | Some u => if String.eqb x k && isStale h u
                                         then None else Some u
                             | None => None
                             end).
      { unfold step. destruct (JSMap.get x (users (store d0))) as [ux |] eqn:Gx.
        - destruct (isStale h ux) eqn:Sx.
          + destruct (MethodFacts.deleteUser_spec quota x d0) as (_ & Hs & Hw').
            split.
            * destruct Hs as (_ & _ & _ & Hle & _). cbn [writes withStore] in Hle. lia.
            * intros k. rewrite Hw' by (apply Hlater; lia).
              rewrite (deleteUser_found _ _ _ Gx), JSMapFacts.get_delete.
              eqb_cases x k; [now rewrite Gx, Sx |].
              now destruct (JSMap.get k (users (store d0))).
          + split; [assumption |]. intros k. eqb_cases x k.
            * now rewrite Gx, Sx.
            * now destruct (JSMap.get k (users (store d0))).
        - split; [assumption |]. intros k. eqb_cases x k.
          + now rewrite Gx.
          + now destruct (JSMap.get k (users (store d0))). }
      destruct Hstep as [Hw1 Hg1]. destruct (IH (step d0 x) Hw1) as [Hw2 Hg2].
      split; [assumption |]. intros k. rewrite Hg2, Hg1.
      unfold JSSet.has. simpl. rewrite (String.eqb_sym k x).
      destruct (JSMap.get k (users (store d0))) as [u |]; [| reflexivity].
      destruct (String.eqb x k), (existsb (String.eqb k) keys);
        destruct (isStale h u) eqn:E; cbn; rewrite ?E; reflexivity. }
  destruct (Hinv (JSMap.keys (users (store (attempted d)))) (attempted d))
    as [_ Hg]; [cbn; lia |].
  fold step. rewrite Hg. cbn [store attempted].
  destruct (JSMap.get userId (users (store d))) as [u |] eqn:G.
  - assert (Hk : JSSet.has userId (JSMap.keys (users (store d))) = true).
    { apply JSSetFacts.has_In. apply JSMapFacts.get_In in G.
      change userId with (fst (userId, u)). now apply in_map. }
    rewrite Hk. cbn [andb]. destruct (isStale h u) eqn:E.
    + split; [discriminate | intros [[= <-] H]; congruence].
    + split; [intros [= <-]; auto | intros [H _]; assumption].
  - split; [discriminate | intros [[=] _]].
Qed.

Lemma saveToStorage_outcome_witness :
  let d := {| store := run [OpCreate "u1" 100 (sampleData "a@example.com" "Anita" None);
                            OpCreate "u2" 200 (sampleData "r@example.com" "Rohan" None);
                            OpDeactivate "u1"] emptyStore;
              writes := 0 |} in
  JSMap.get "u2" (users (store (Persisted.saveToStorage fullOnce d)))
  = Some (newUser "u2" 200 (sampleData "r@example.com" "Rohan" None))
  /\ Persisted.saveToStorageWithin fullOnce 7 d = Persisted.saveToStorage fullOnce d.
Proof.
  cbv zeta. split.
  - apply (proj2 (proj2 (proj2 (saveToStorage_outcome fullOnce _))) 1000%Z).
    + vm_compute. lia.
    + reflexivity.
    + intros n Hn. unfold fullOnce. cbn [writes] in Hn.
      destruct n; [lia | reflexivity].
    + split; vm_compute; reflexivity.
  - apply (proj1 (proj2 (proj2 (saveToStorage_outcome fullOnce _)))).
    vm_compute. lia.
Defined.

(** *** X1: a created record can be read back *)

Lemma createUser_read_back (quota : nat -> option Z) (d : Db)
    (userId : string) (now : Z) (userData : UserData) :
  (getUserCount (store d) < MAX_USERS)%nat ->
  userId <> "" ->
  let user := newUser userId now userData in
  let r := Persisted.createUser quota userId now userData d in
  fst r = Return (withoutPassword user)
  /\ findUserById userId (store (snd r)) = Some (withoutPassword user)
  /\ (quota (writes d) = None ->
      forall e, normalizeEmail e = normalizeEmail (d_email userData) ->
                findUserByEmail e (store (snd r)) = Some user).
Proof.
  intros Hcap Hid user r.
  destruct (created_user_resolvable_memory (store d) userId now userData Hcap Hid)
    as (M1 & _ & M3).
  destruct (MethodFacts.createUser_spec quota userId now userData d) as (S1 & S2 & S3).
  fold r in S1, S2, S3. split; [now rewrite S1 |]. split.
  - destruct S2 as (_ & Keep & _). unfold findUserById.
    rewrite (Keep userId user); [reflexivity | | reflexivity].
    cbn [store withStore]. rewrite createUser_below by assumption.
    cbn [snd users updateIndexes]. now rewrite JSMapFacts.get_set, String.eqb_refl.
  - intros Hq e He. rewrite (S3 Hq). now apply M3.
Qed.


(** X1: below capacity, [createUser] returns the new record without its
    password, and [findUserById] gives that record afterwards, whether the
    write succeeds or not; when it succeeds, [findUserByEmail], with any
    spelling of the email that normalizes to the same string, gives the
    stored record with its password. *)
Theorem created_user_resolvable (quota : nat -> option Z) (d : Db)
    (userId : string) (now : Z) (userData : UserData) :
  (getUserCount (store d) < MAX_USERS)%nat ->
  userId <> "" ->
  let user := newUser userId now userData in
  let r := Persisted.createUser quota userId now userData d in
  fst r = Return (withoutPassword user)
  /\ findUserById userId (store (snd r)) = Some (withoutPassword user)
  /\ (quota (writes d) = None ->
      forall e, normalizeEmail e = normalizeEmail (d_email userData) ->
                findUserByEmail e (store (snd r)) = Some user).
Proof.
  intros Hcap Hid user r.
  destruct (MethodFacts.createUser_spec quota userId now userData d) as (S1 & S2 & S3).
  fold r in S1, S2, S3.
  pose proof (createUser_below (store d) userId now userData Hcap) as Hmem.
  split; [| split].
  - rewrite S1, Hmem. reflexivity.
  - destruct S2 as (_ & Keep & _). unfold findUserById.
    rewrite (Keep userId user); [reflexivity | | reflexivity].
    cbn [store withStore]. rewrite Hmem.
    cbn [snd users updateIndexes]. now rewrite JSMapFacts.get_set, String.eqb_refl.
  - intros Hq e He. rewrite (S3 Hq).
    now apply (findUserByEmail_created (store d) userId now userData).
Qed.

Lemma created_user_resolvable_witness :
  let d := {| store := run sampleOps emptyStore; writes := 0 |} in
  let data := sampleData "Meera@Example.com" "Meera Joshi" None in
  findUserById "u9" (store (snd (Persisted.createUser fullOnce "u9" 900 data d)))
  = Some (withoutPassword (newUser "u9" 900 data))
  /\ findUserByEmail " meera@example.COM"
       (store (snd (Persisted.createUser roomy "u9" 900 data d)))
     = Some (newUser "u9" 900 data).
Proof.
  cbv zeta.
  assert (Hcap : (getUserCount (store {| store := run sampleOps emptyStore; writes := 0 |})
                  < MAX_USERS)%nat) by (vm_compute; lia).
  assert (Hid : "u9" <> "") by discriminate.
  split.
  - exact (proj1 (proj2 (created_user_resolvable fullOnce _ "u9" 900
                           (sampleData "Meera@Example.com" "Meera Joshi" None)
                           Hcap Hid))).
  - exact (proj2 (proj2 (created_user_resolvable roomy _ "u9" 900
                           (sampleData "Meera@Example.com" "Meera Joshi" None)
                           Hcap Hid)) eq_refl " meera@example.COM" eq_refl).
Defined.

(** *** X6: removal *)

(** X6: [deleteUser] on an identifier that is not in the table returns
    [false] and changes nothing.  On one that is, it returns [true];
    afterwards, whether the write succeeds or not, the record cannot be
    read, a second removal returns [false] and changes nothing, the table
    is smaller, it holds no record that it did not hold and it holds every
    other active record; when the write succeeds, every other record reads
    as before and the count has dropped by exactly one. *)
Theorem deleteUser_removes (quota : nat -> option Z) (d : Db) (userId : string) :
  UniqueKeys (store d) ->
  match JSMap.get userId (users (store d)) with
  | None => Persisted.deleteUser quota userId d = (false, d)
  | Some _ =>
      let d' := snd (Persisted.deleteUser quota userId d) in
      fst (Persisted.deleteUser quota userId d) = true
      /\ findUserById userId (store d') = None
      /\ Persisted.deleteUser quota userId d' = (false, d')
      /\ (getUserCount (store d') < getUserCount (store d))%nat
      /\ (forall other user,
            JSMap.get other (users (store d')) = Some user ->
            other <> userId /\ JSMap.get other (users (store d)) = Some user)
      /\ (forall other user,
            other <> userId ->
            JSMap.get other (users (store d)) = Some user -> isActive user = true ->
            JSMap.get other (users (store d')) = Some user)
      /\ (quota (writes d) = None ->
          (forall other, other <> userId ->
             findUserById other (store d') = findUserById other (store d))
          /\ S (getUserCount (store d')) = getUserCount (store d))
  end.
Proof.
  intros Hu. pose proof (deleteUser_removes_memory (store d) userId Hu) as M.
  destruct (MethodFacts.deleteUser_spec quota userId d) as (S1 & S2 & S3).
  destruct (JSMap.get userId (users (store d))) as [u |] eqn:G.
  2:{ unfold Persisted.deleteUser, Persisted.deleteUserWith. now rewrite G. }
  cbv zeta in *. destruct M as (M1 & _ & M3 & M4 & _).
  destruct S2 as (In' & Keep & Size & _). cbn [store withStore] in In', Keep, Size.
  pose proof (deleteUser_found _ _ _ G) as Hdel.
  assert (Hnone : JSMap.get userId (users (store (snd (Persisted.deleteUser quota userId d))))
                  = None).
  { destruct (JSMap.get userId (users (store (snd (Persisted.deleteUser quota userId d)))))
      as [u' |] eqn:G'; [| reflexivity].
    apply In' in G'. rewrite Hdel, JSMapFacts.get_delete, String.eqb_refl in G'.
    discriminate. }
  split; [now rewrite S1 |]. split; [unfold findUserById; now rewrite Hnone |].
  split.
  { unfold Persisted.deleteUser at 1, Persisted.deleteUserWith. now rewrite Hnone. }
  split.
  { unfold getUserCount in *. lia. }
  split.
  { intros other user G'. apply In' in G'.
    rewrite Hdel, JSMapFacts.get_delete in G'.
    eqb_cases userId other; [discriminate | auto]. }
  split.
  { intros other user Hne Go Ha. apply Keep; [| assumption].
    rewrite Hdel, JSMapFacts.get_delete.
    now rewrite (proj2 (String.eqb_neq userId other)) by congruence. }
  intros Hq. rewrite (S3 Hq). split; assumption.
Qed.

Lemma deleteUser_removes_witness :
  let d := {| store := run sampleOps emptyStore; writes := 0 |} in
  findUserById "u2" (store (snd (Persisted.deleteUser fullOnce "u2" d))) = None
  /\ S (getUserCount (store (snd (Persisted.deleteUser roomy "u2" d))))
     = getUserCount (store d).
Proof.
  cbv zeta.
  assert (Hu : UniqueKeys (store {| store := run sampleOps emptyStore; writes := 0 |}))
    by (apply UniqueKeys_run, UniqueKeys_empty).
  assert (G : JSMap.get "u2" (users (store {| store := run sampleOps emptyStore;
                                              writes := 0 |})) = Some rohan)
    by (vm_compute; reflexivity).
  split.
  - pose proof (deleteUser_removes fullOnce _ "u2" Hu) as H.
    rewrite G in H. cbv beta iota zeta in H.
    destruct H as (_ & H & _). exact H.
  - pose proof (deleteUser_removes roomy _ "u2" Hu) as H.
    rewrite G in H. cbv beta iota zeta in H.
    destruct H as (_ & _ & _ & _ & _ & _ & H). exact (proj2 (H eq_refl)).
Defined.

(** *** X9: what [updateUser] leaves alone *)

(** X9: [updateUser] on an identifier that is not in the table returns no
    record and changes nothing.  Otherwise, whatever the updates are and
    whether it throws or not, and whether the write succeeds or not, the
    table does not grow, it holds no other record that it did not hold, it
    holds every other active record, and the record itself, if it is still
    there, has the password it had; when the write succeeds, the number of
    records and every other record are as they were, and the record is
    still there. *)
Theorem updateUser_preserves (quota : nat -> option Z) (d : Db) (userId : string)
    (updates : PartialUser) :
  let d' := snd (Persisted.updateUser quota userId updates d) in
  (JSMap.get userId (users (store d)) = None ->
     Persisted.updateUser quota userId updates d = (Return None, d))
  /\ (getUserCount (store d') <= getUserCount (store d))%nat
  /\ (forall other user, other <> userId ->
        JSMap.get other (users (store d')) = Some user ->
        JSMap.get other (users (store d)) = Some user)
  /\ (forall other user, other <> userId ->
        JSMap.get other (users (store d)) = Some user -> isActive user = true ->
        JSMap.get other (users (store d')) = Some user)
  /\ (forall user user',
        JSMap.get userId (users (store d)) = Some user ->
        JSMap.get userId (users (store d')) = Some user' ->
        password user' = password user)
  /\ (quota (writes d) = None ->
      getUserCount (store d') = getUserCount (store d)
      /\ (forall user, JSMap.get userId (users (store d)) = Some user ->
            exists user', JSMap.get userId (users (store d')) = Some user'
                          /\ password user' = password user)
      /\ (forall other, other <> userId ->
            JSMap.get other (users (store d')) = JSMap.get other (users (store d)))).
Proof.
  cbv zeta.
  destruct (updateUser_preserves_memory (store d) userId updates)
    as (M0 & M1 & M2 & M3).
  destruct (MethodFacts.updateUser_spec quota userId updates d) as (S1 & S2 & S3).
  destruct S2 as (In' & Keep & Size & _). cbn [store withStore] in In', Keep, Size.
  split.
  { intros G. unfold Persisted.updateUser. now rewrite (M0 G). }
  split; [unfold getUserCount in *; lia |].
  split; [intros other user Hne G'; rewrite <- (M3 other Hne); now apply In' |].
  split.
  { intros other user Hne G Ha. apply Keep; [| assumption]. now rewrite (M3 other Hne). }
  split.
  { intros user user' G G'. apply In' in G'.
    destruct (M2 user G) as (u1 & G1 & P1). congruence. }
  intros Hq. rewrite (S3 Hq). split; [assumption |]. split; assumption.
Qed.

Lemma updateUser_preserves_witness :
  let d := {| store := run sampleOps emptyStore; writes := 0 |} in
  let d' := snd (Persisted.updateUser roomy "u2" (nameUpdate "Rohan S") d) in
  getUserCount (store d') = getUserCount (store d)
  /\ JSMap.get "u3" (users (store d')) = JSMap.get "u3" (users (store d)).
Proof.
  cbv zeta.
  destruct (updateUser_preserves roomy
              {| store := run sampleOps emptyStore; writes := 0 |}
              "u2" (nameUpdate "Rohan S")) as (_ & _ & _ & _ & _ & H).
  destruct (H eq_refl) as (H1 & _ & H3).
  split; [exact H1 | apply H3; discriminate].
Defined.

(** *** X7: a creation undone by a removal *)

(** X7: in a store reached from the empty store by operations that create
    under unused identifiers, pass only non-empty roles to [updateUser] and
    do not change a name through it, creating a record under an unused
    identifier and an email that is not indexed, then removing it, both
    writes succeeding, gives back the primary table and the email index,
    and role and name indexes with the members they had. *)
Theorem create_then_delete (quota : nat -> option Z) (ops : list Op) (n : nat)
    (userId : string) (now : Z) (userData : UserData) :
  follows indexDiscipline emptyStore ops = true ->
  let d := {| store := run ops emptyStore; writes := n |} in
  (getUserCount (store d) < MAX_USERS)%nat ->
  JSMap.has userId (users (store d)) = false ->
  JSMap.has (normalizeEmail (d_email userData)) (emailIndex (store d)) = false ->
  let d1 := snd (Persisted.createUser quota userId now userData d) in
  quota (writes d) = None -> quota (writes d1) = None ->
  let d2 := snd (Persisted.deleteUser quota userId d1) in
  users (store d2) = users (store d)
  /\ emailIndex (store d2) = emailIndex (store d)
  /\ sameMembers (roleIndex (store d2)) (roleIndex (store d))
  /\ sameMembers (nameIndex (store d2)) (nameIndex (store d)).
Proof.
  intros H d Hcap Hfresh Hemail d1 Hq Hq1 d2.
  destruct (MethodFacts.createUser_spec quota userId now userData d) as (_ & _ & S1).
  destruct (MethodFacts.deleteUser_spec quota userId d1) as (_ & _ & S2).
  subst d2. rewrite (S2 Hq1). subst d1. rewrite (S1 Hq).
  now apply (create_then_delete_memory ops userId now userData H).
Qed.

Lemma create_then_delete_witness :
  let d := {| store := run sampleOps emptyStore; writes := 0 |} in
  let d1 := snd (Persisted.createUser roomy "u9" 900
                   (sampleData "Meera@Example.com" "Meera Joshi" None) d) in
  let d2 := snd (Persisted.deleteUser roomy "u9" d1) in
  users (store d2) = users (store d)
  /\ emailIndex (store d2) = emailIndex (store d)
  /\ sameMembers (roleIndex (store d2)) (roleIndex (store d))
  /\ sameMembers (nameIndex (store d2)) (nameIndex (store d)).
Proof.
  cbv zeta.
  assert (Hcap : (getUserCount (run sampleOps emptyStore) < MAX_USERS)%nat)
    by (vm_compute; lia).
  exact (create_then_delete roomy sampleOps 0 "u9" 900
           (sampleData "Meera@Example.com" "Meera Joshi" None)
           eq_refl Hcap eq_refl eq_refl eq_refl eq_refl).
Defined.

(** *** X8: deactivation and activation *)

(** X8: on an identifier that is not in the table both methods return
    [false] and change nothing.  After [deactivateUser] on a stored record
    the record, if it is still in the table, is inactive with every other
    field as before, and it is still there when the write succeeds;
    [activateUser] then returns [true], and for a record that was active
    the two in sequence, with both writes succeeding, give back the
    store. *)
Theorem deactivate_then_activate (quota : nat -> option Z) (d : Db) (userId : string) :
  match JSMap.get userId (users (store d)) with
  | None => Persisted.deactivateUser quota userId d = (false, d)
            /\ Persisted.activateUser quota userId d = (false, d)
  | Some user =>
      let d1 := snd (Persisted.deactivateUser quota userId d) in
      fst (Persisted.deactivateUser quota userId d) = true
      /\ (forall user', JSMap.get userId (users (store d1)) = Some user' ->
            user' = setActive false user)
      /\ (quota (writes d) = None ->
          JSMap.get userId (users (store d1)) = Some (setActive false user)
          /\ fst (Persisted.activateUser quota userId d1) = true
          /\ (isActive user = true -> quota (writes d1) = None ->
              store (snd (Persisted.activateUser quota userId d1)) = store d))
  end.
Proof.
  pose proof (deactivate_then_activate_memory (store d) userId) as M.
  destruct (MethodFacts.deactivateUser_spec quota userId d) as (S1 & S2 & S3).
  destruct (JSMap.get userId (users (store d))) as [u |] eqn:G.
  2:{ unfold Persisted.deactivateUser, Persisted.activateUser,
        deactivateUser, activateUser. rewrite G. now split. }
  cbv zeta in *. destruct M as (M1 & M2 & M3).
  split; [rewrite S1; unfold deactivateUser; now rewrite G |]. split.
  { intros user' G'. destruct S2 as (In' & _). apply In' in G'.
    cbn [store withStore] in G'. congruence. }
  intros Hq.
  destruct (MethodFacts.activateUser_spec quota userId
              (snd (Persisted.deactivateUser quota userId d))) as (A1 & _ & A3).
  rewrite (S3 Hq) in *. split; [assumption |]. split; [now rewrite A1 |].
  intros Ha Hq1. rewrite (A3 Hq1). now apply M3.
Qed.

Lemma deactivate_then_activate_witness :
  let d := {| store := run roleChangeOps emptyStore; writes := 0 |} in
  let d1 := snd (Persisted.deactivateUser roomy "u1" d) in
  store (snd (Persisted.activateUser roomy "u1" d1)) = store d.
Proof.
  cbv zeta.
  pose proof (deactivate_then_activate roomy
                {| store := run roleChangeOps emptyStore; writes := 0 |} "u1") as H.
  assert (G : JSMap.get "u1" (users (store {| store := run roleChangeOps emptyStore;
                                              writes := 0 |}))
              = Some (setRole "admin"
                        (newUser "u1" 100
                           (sampleData "anita@example.com" "Anita Sharma" None))))
    by (vm_compute; reflexivity).
  rewrite G in H. cbv beta iota zeta in H. destruct H as (_ & _ & H).
  destruct (H eq_refl) as (_ & _ & H3). exact (H3 eq_refl eq_refl).
Defined.

(** *** X10: change of role *)

(** X10: in a store reached from the empty store by operations that create
    under unused identifiers and pass only non-empty roles to [updateUser],
    [updateUserRole] on an unknown identifier returns [false] and changes
    nothing, and on a stored one it returns [true]; afterwards an active
    record reads with the new role, whether the write succeeds or not, and
    when the write succeeds every record does, [getUsersByRole] lists it
    under the new role and the role index holds it under no other. *)
Theorem updateUserRole_moves (quota : nat -> option Z) (ops : list Op) (n : nat)
    (userId newRole : string) :
  follows roleDiscipline emptyStore ops = true ->
  let d := {| store := run ops emptyStore; writes := n |} in
  match JSMap.get userId (users (store d)) with
  | None => Persisted.updateUserRole quota userId newRole d = (false, d)
  | Some user =>
      let d' := snd (Persisted.updateUserRole quota userId newRole d) in
      let moved := withoutPassword (setRole newRole user) in
      fst (Persisted.updateUserRole quota userId newRole d) = true
      /\ (isActive user = true -> findUserById userId (store d') = Some moved)
      /\ (quota (writes d) = None ->
          findUserById userId (store d') = Some moved
          /\ In moved (getUsersByRole newRole (store d'))
          /\ (forall r, r <> newRole ->
                inBucket (roleIndex (store d')) r userId = false))
  end.
Proof.
  intros H d. pose proof (updateUserRole_moves_memory ops userId newRole H) as M.
  cbv zeta in M.
  destruct (MethodFacts.updateUserRole_spec quota userId newRole d) as (S1 & S2 & S3).
  subst d. cbn [store] in *.
  destruct (JSMap.get userId (users (run ops emptyStore))) as [u |] eqn:G.
  2:{ unfold Persisted.updateUserRole. cbn [store]. now rewrite M. }
  cbv zeta. destruct M as (M1 & M2 & M3 & M4).
  split; [now rewrite S1 |]. split.
  - intros Ha. destruct S2 as (_ & Keep & _). cbn [store withStore] in Keep.
    unfold findUserById. rewrite (Keep userId (setRole newRole u)); [reflexivity | | assumption].
    unfold updateUserRole. rewrite G. cbn [snd users].
    now rewrite JSMapFacts.get_set, String.eqb_refl.
  - intros Hq. rewrite (S3 Hq). auto.
Qed.

Lemma updateUserRole_moves_witness :
  let d := {| store := run sampleOps emptyStore; writes := 0 |} in
  let d' := snd (Persisted.updateUserRole roomy "u3" "admin" d) in
  In (withoutPassword (setRole "admin" (setRole "user" kavya)))
     (getUsersByRole "admin" (store d'))
  /\ inBucket (roleIndex (store d')) "user" "u3" = false.
Proof.
  cbv zeta.
  pose proof (updateUserRole_moves roomy sampleOps 0 "u3" "admin" eq_refl) as H.
  cbv zeta in H.
  assert (G : JSMap.get "u3" (users (store {| store := run sampleOps emptyStore;
                                              writes := 0 |}))
              = Some (setRole "user" kavya)) by (vm_compute; reflexivity).
  rewrite G in H. cbv beta iota in H.
  destruct H as (_ & _ & H). destruct (H eq_refl) as (_ & H2 & H3).
  split; [exact H2 |]. apply H3. discriminate.
Defined.

(** *** X13: import and the number of records *)

Lemma tallyId_length i : String.length (tallyId i) = S i.
Proof.
  unfold tallyId. induction i as [| i IH]; [reflexivity |].
  change (repeat "i"%char (S (S i))) with ("i"%char :: repeat "i"%char (S i)).
  cbn [string_of_list_ascii String.length]. now rewrite IH.
Qed.

Lemma tallyId_inj i j : tallyId i = tallyId j -> i = j.
Proof.
  intros H. apply (f_equal String.length) in H. rewrite !tallyId_length in H. lia.
Qed.

Section ImportWrites.
Variable quota : nat -> option Z.
Variable genId : nat -> string.
Variable clock : nat -> Z.

Lemma createUser_bound userId now userData d :
  (getUserCount (store (snd (Persisted.createUser quota userId now userData d)))
   <= getUserCount (snd (createUser userId now userData (store d))))%nat.
Proof.
  destruct (MethodFacts.createUser_spec quota userId now userData d)
    as (_ & (_ & _ & H & _) & _).
  exact H.
Qed.

Lemma createUser_full userId now userData d :
  getUserCount (store d) = MAX_USERS ->
  exists message,
    Persisted.createUser quota userId now userData d = (Throw message, d).
Proof.
  intros H. unfold Persisted.createUser, createUser. unfold getUserCount in H.
  rewrite H, Nat.leb_refl. eauto.
Qed.

Lemma importLine_full_db i line d r :
  getUserCount (store d) = MAX_USERS ->
  fst (Persisted.importLine quota genId clock i line (d, r)) = d
  /\ imported (snd (Persisted.importLine quota genId clock i line (d, r))) = imported r.
Proof.
  intros H. unfold Persisted.importLine.
  destruct (_ <? 3)%nat; [now split |].
  destruct (_ || _); [now split |].
  destruct (JSMap.has _ _); [now split |].
  match goal with |- context [Persisted.createUser quota ?i ?t ?u d] =>
    destruct (createUser_full i t u d H) as [m ->] end.
  now split.
Qed.

Lemma importLines_full_db lines : forall i d r,
  getUserCount (store d) = MAX_USERS ->
  fst (Persisted.importLines quota genId clock i lines (d, r)) = d
  /\ imported (snd (Persisted.importLines quota genId clock i lines (d, r)))
     = imported r.
Proof.
  induction lines as [| line lines IH]; intros i d r H; cbn [Persisted.importLines].
  - now split.
  - destruct (importLine_full_db i line d r H) as [H1 H2].
    destruct (Persisted.importLine quota genId clock i line (d, r)) as [d1 r1].
    cbn [fst snd] in *. subst d1. rewrite <- H2. now apply IH.
Qed.

Lemma importLine_bound i line d r :
  let '(d', r') := Persisted.importLine quota genId clock i line (d, r) in
  (getUserCount (store d') + imported r <= getUserCount (store d) + imported r')%nat.
Proof.
  unfold Persisted.importLine.
  destruct (_ <? 3)%nat; [lia |].
  destruct (_ || _); [cbn [imported]; lia |].
  destruct (JSMap.has _ _); [cbn [imported]; lia |].
  match goal with |- context [Persisted.createUser quota ?i ?t ?u d] =>
    pose proof (createUser_bound i t u d) as Hb;
    pose proof (proj1 (MethodFacts.createUser_spec quota i t u d)) as Hf;
    destruct (Persisted.createUser quota i t u d) as [[x | m] d'] eqn:E;
    cbn [fst snd imported] in *;
    unfold createUser in Hb, Hf;
    destruct (MAX_USERS <=? JSMap.size (users (store d)))%nat;
    cbn [fst snd] in Hb, Hf; try discriminate
  end.
  - unfold getUserCount in *. cbn [users updateIndexes] in Hb.
    rewrite JSMapMore.size_set in Hb. destruct (JSMap.has _ _); lia.
  - lia.
Qed.

Lemma importLines_bound lines : forall i d r,
  let '(d', r') := Persisted.importLines quota genId clock i lines (d, r) in
  (getUserCount (store d') + imported r <= getUserCount (store d) + imported r')%nat.
Proof.
  induction lines as [| line lines IH]; intros i d r; cbn [Persisted.importLines].
  - lia.
  - pose proof (importLine_bound i line d r) as H1.
    destruct (Persisted.importLine quota genId clock i line (d, r)) as [d1 r1].
    specialize (IH (S i) d1 r1).
    destruct (Persisted.importLines quota genId clock (S i) lines (d1, r1)) as [d2 r2].
    lia.
Qed.

Hypothesis writes_succeed : forall n, quota n = None.

Lemma importLine_written i line d r :
  let '(d', r') := Persisted.importLine quota genId clock i line (d, r) in
  (store d', r') = importLine genId clock i line (store d, r).
Proof.
  unfold Persisted.importLine, importLine.
  destruct (_ <? 3)%nat; [reflexivity |].
  destruct (_ || _); [reflexivity |].
  destruct (JSMap.has _ _); [reflexivity |].
  match goal with |- context [Persisted.createUser quota ?i ?t ?u d] =>
    destruct (MethodFacts.createUser_spec quota i t u d) as (Hf & _ & Hs);
    specialize (Hs (writes_succeed _));
    destruct (Persisted.createUser quota i t u d) as [[x | m] d'];
    destruct (createUser i t u (store d)) as [[x' | m'] s']
  end; cbn [fst snd] in *; try discriminate; subst; try reflexivity.
  now injection Hf as <-.
Qed.

Lemma importLines_written lines : forall i d r,
  let '(d', r') := Persisted.importLines quota genId clock i lines (d, r) in
  (store d', r') = importLines genId clock i lines (store d, r).
Proof.
  induction lines as [| line lines IH]; intros i d r;
    cbn [Persisted.importLines importLines]; [reflexivity |].
  pose proof (importLine_written i line d r) as H1.
  destruct (Persisted.importLine quota genId clock i line (d, r)) as [d1 r1].
  rewrite <- H1. apply IH.
Qed.

Lemma importUsers_written csvData d :
  fst (Persisted.importUsers quota genId clock csvData d)
  = fst (importUsers genId clock csvData (store d))
  /\ store (snd (Persisted.importUsers quota genId clock csvData d))
     = snd (importUsers genId clock csvData (store d)).
Proof.
  unfold Persisted.importUsers, importUsers.
  pose proof (importLines_written (tl (JSString.split newline csvData)) 1 d
                {| imported := 0; errors := [] |}) as H.
  destruct (Persisted.importLines quota genId clock 1 _ _) as [d' r'].
  rewrite <- H. now split.
Qed.

End ImportWrites.

(** X13: an import into a store at capacity imports nothing and leaves the
    store as it is.  Whatever the writes do, the number of records grows by
    at most the number that the import reports.  When no write fails and
    [generateUserId] gives distinct identifiers that are not in use, it
    grows by exactly that number. *)
Theorem import_count (quota : nat -> option Z) (genId : nat -> string)
    (clock : nat -> Z) (csvData : string) (d : Db) :
  let r := Persisted.importUsers quota genId clock csvData d in
  (getUserCount (store d) = MAX_USERS -> snd r = d /\ imported (fst r) = 0%nat)
  /\ (getUserCount (store (snd r)) <= getUserCount (store d) + imported (fst r))%nat
  /\ ((forall n, quota n = None) ->
      (forall i j, genId i = genId j -> i = j) ->
      (forall i, JSMap.has (genId i) (users (store d)) = false) ->
      getUserCount (store (snd r))
      = (getUserCount (store d) + imported (fst r))%nat).
Proof.
  cbv zeta. split; [| split].
  - intros H. unfold Persisted.importUsers.
    destruct (importLines_full_db quota genId clock
                (tl (JSString.split newline csvData)) 1 d
                {| imported := 0; errors := [] |} H) as [H1 H2].
    destruct (Persisted.importLines quota genId clock 1 _ _) as [d' r'].
    cbn [fst snd] in *. now split.
  - unfold Persisted.importUsers.
    pose proof (importLines_bound quota genId clock
                  (tl (JSString.split newline csvData)) 1 d
                  {| imported := 0; errors := [] |}) as H.
    destruct (Persisted.importLines quota genId clock 1 _ _) as [d' r'].
    cbn [fst snd imported] in *. lia.
  - intros Hq Hinj Hfresh.
    destruct (importUsers_written quota genId clock Hq csvData d) as [H1 H2].
    rewrite H1, H2.
    now apply (proj2 (import_count_memory genId clock csvData (store d))).
Qed.

Lemma import_count_witness :
  let full := {| store := fullStore; writes := 0 |} in
  let empty := {| store := emptyStore; writes := 0 |} in
  snd (Persisted.importUsers fullOnce sampleGenId sampleClock csvEmptyEmail full) = full
  /\ getUserCount
       (store (snd (Persisted.importUsers roomy tallyId sampleClock csvEmptyEmail empty)))
     = (0 + imported
              (fst (Persisted.importUsers roomy tallyId sampleClock csvEmptyEmail
                      empty)))%nat.
Proof.
  cbv zeta. split.
  - apply (proj1 (import_count fullOnce sampleGenId sampleClock csvEmptyEmail
                    {| store := fullStore; writes := 0 |})).
    vm_compute. reflexivity.
  - apply (proj2 (proj2 (import_count roomy tallyId sampleClock csvEmptyEmail
                           {| store := emptyStore; writes := 0 |}))).
    + reflexivity.
    + exact tallyId_inj.
    + reflexivity.
Defined.

(** *** X24: the initialisation *)

Lemma createUser_count_step s userId now userData :
  (getUserCount (snd (createUser userId now userData s)) <= S (getUserCount s))%nat.
Proof.
  unfold getUserCount, createUser.
  destruct (MAX_USERS <=? JSMap.size (users s))%nat; cbn [snd users updateIndexes];
    [lia |].
  rewrite JSMapMore.size_set. destruct (JSMap.has userId (users s)); lia.
Qed.

Section InitialWrites.
Variable quota : nat -> option Z.
Variable genId : nat -> string.
Variable clock : nat -> Z.

Lemma createMissing_indexed_db n datas d :
  allIndexed datas (store d) = true ->
  Persisted.createMissing quota genId clock n datas d = (Return tt, d).
Proof.
  unfold allIndexed. revert n. induction datas as [| x datas IH]; intros n; simpl.
  - reflexivity.
  - intros H. apply andb_prop in H as [Hx H]. rewrite Hx. now apply IH.
Qed.

Lemma createMissing_bound datas : forall n d,
  (getUserCount (store (snd (Persisted.createMissing quota genId clock n datas d)))
   <= getUserCount (store d) + length datas)%nat.
Proof.
  induction datas as [| x datas IH]; intros n d; simpl; [lia |].
  destruct (JSMap.has (d_email x) (emailIndex (store d))).
  - specialize (IH (S n) d). lia.
  - pose proof (createUser_bound quota (genId n) (clock n) x d) as Hb.
    pose proof (createUser_count_step (store d) (genId n) (clock n) x) as Hc.
    destruct (Persisted.createUser quota (genId n) (clock n) x d) as [[u | m] d'];
      cbn [snd] in *.
    + specialize (IH (S n) d'). lia.
    + lia.
Qed.

Lemma createMissing_app_db n l1 l2 d :
  Persisted.createMissing quota genId clock n (l1 ++ l2) d
  = match Persisted.createMissing quota genId clock n l1 d with
    | (Return _, d') => Persisted.createMissing quota genId clock (n + length l1) l2 d'
    | (Throw message, d') => (Throw message, d')
    end.
Proof.
  revert n d. induction l1 as [| x l1 IH]; intros n d; simpl.
  - now rewrite Nat.add_0_r.
  - destruct (JSMap.has (d_email x) (emailIndex (store d))).
    + rewrite IH. now rewrite Nat.add_succ_r.
    + destruct (Persisted.createUser quota (genId n) (clock n) x d) as [[u | m] d'].
      * rewrite IH. now rewrite Nat.add_succ_r.
      * reflexivity.
Qed.

Lemma initialize_as_createMissing_db random d :
  Persisted.initializeDefaultUsers quota random genId clock d
  = Persisted.createMissing quota genId clock 0 (initialData random) d.
Proof.
  unfold Persisted.initializeDefaultUsers, initialData, Persisted.generateSampleUsers.
  rewrite createMissing_app_db.
  destruct (Persisted.createMissing quota genId clock 0 defaultUsers d)
    as [[[] | m] d']; reflexivity.
Qed.

Hypothesis writes_succeed : forall n, quota n = None.

Lemma createMissing_written datas : forall n d,
  fst (Persisted.createMissing quota genId clock n datas d)
  = fst (createMissing genId clock n datas (store d))
  /\ store (snd (Persisted.createMissing quota genId clock n datas d))
     = snd (createMissing genId clock n datas (store d)).
Proof.
  induction datas as [| x datas IH]; intros n d; simpl; [now split |].
  destruct (JSMap.has (d_email x) (emailIndex (store d))); [apply IH |].
  destruct (MethodFacts.createUser_spec quota (genId n) (clock n) x d) as (Hf & _ & Hs).
  specialize (Hs (writes_succeed _)).
  destruct (Persisted.createUser quota (genId n) (clock n) x d) as [[u | m] d'];
    destruct (createUser (genId n) (clock n) x (store d)) as [[u' | m'] s'];
    cbn [fst snd] in *; try discriminate; subst.
  - apply IH.
  - injection Hf as <-. now split.
Qed.

End InitialWrites.

(** X24: [initializeDefaultUsers] adds at most fifty records, whatever the
    writes do.  When no write fails it removes none; and when it then
    returns without an error, each of the three default emails and of the
    47 sampled emails is a key of the email index, and running it again
    with the same draws, whatever the writes would do, returns without an
    error and changes nothing. *)
Theorem initialize_outcome (quota : nat -> option Z) (random : nat -> nat)
    (genId : nat -> string) (clock : nat -> Z) (d : Db) :
  let r := Persisted.initializeDefaultUsers quota random genId clock d in
  (getUserCount (store (snd r)) <= getUserCount (store d) + 50)%nat
  /\ ((forall n, quota n = None) ->
      (getUserCount (store d) <= getUserCount (store (snd r)))%nat
      /\ (fst r = Return tt ->
          (forall data, In data (initialData random) ->
             JSMap.has (d_email data) (emailIndex (store (snd r))) = true)
          /\ forall quota' genId' clock',
               Persisted.initializeDefaultUsers quota' random genId' clock' (snd r)
               = (Return tt, snd r))).
Proof.
  cbv zeta. rewrite initialize_as_createMissing_db. split.
  - pose proof (createMissing_bound quota genId clock (initialData random) 0 d) as H.
    replace (length (initialData random)) with 50%nat in H; [exact H |].
    unfold initialData. now rewrite length_app, length_map, length_seq.
  - intros Hq.
    destruct (createMissing_written quota genId clock Hq (initialData random) 0 d)
      as [Hf Hs].
    destruct (initialize_outcome_memory random genId clock (store d)) as [[Hlo _] Hret].
    rewrite initialize_as_createMissing in Hlo, Hret. rewrite Hf, Hs.
    split; [assumption |]. intros R. destruct (Hret R) as [Hall _].
    split; [assumption |]. intros quota' genId' clock'.
    rewrite initialize_as_createMissing_db.
    apply createMissing_indexed_db. rewrite Hs. unfold allIndexed.
    apply forallb_forall. assumption.
Qed.

Lemma initialize_outcome_witness :
  let d := {| store := emptyStore; writes := 0 |} in
  let r := Persisted.initializeDefaultUsers roomy sampleRandom sampleGenId sampleClock d in
  JSMap.has "admin@gearupsports.com" (emailIndex (store (snd r))) = true
  /\ Persisted.initializeDefaultUsers fullOnce sampleRandom (fun _ => "u") (fun _ => 0%Z)
       (snd r)
     = (Return tt, snd r).
Proof.
  cbv zeta.
  destruct (initialize_outcome roomy sampleRandom sampleGenId sampleClock
              {| store := emptyStore; writes := 0 |}) as (_ & H).
  destruct (H (fun _ => eq_refl)) as (_ & H').
  destruct H' as (H1 & H2).
  - vm_compute. reflexivity.
  - split; [| apply H2].
    apply (H1 {| d_email := "admin@gearupsports.com"; d_name := "Admin User";
                 d_password := "admin123"; d_role := Some "admin" |}).
    vm_compute. tauto.
Defined.

(** *** X19, X22, X23: the provider *)

Section ProviderWrites.
Variable stringify : User -> string.

Lemma login_succeeds_db quota stored now e pw (a : Persisted.Auth) user :
  findUserByEmail e (store (Persisted.db a)) = Some user ->
  password user = Some pw -> isActive user = true ->
  fst (Persisted.login quota stringify stored now e pw a) = succeeded.
Proof.
  intros F P A. unfold Persisted.login. now rewrite F, P, String.eqb_refl, A.
Qed.

Lemma login_refused_db quota stored now e pw (a : Persisted.Auth) :
  (forall user, findUserByEmail e (store (Persisted.db a)) = Some user ->
                isActive user = false) ->
  fst (Persisted.login quota stringify stored now e pw a) <> succeeded.
Proof.
  intros H. unfold Persisted.login.
  destruct (findUserByEmail e (store (Persisted.db a))) as [u |]; [| discriminate].
  destruct (negb _); [discriminate |].
  rewrite (H u eq_refl). discriminate.
Qed.

(** X19: [register] succeeds only for an email that leads to no record and
    satisfies the pattern, a name that is not blank and a password of six
    characters or more; a registration that fails changes nothing.  When
    those hold, the store has room and the generated identifier is not
    empty, it succeeds, the new record without its password becomes the
    current user, and the record can be read under its identifier, whether
    the writes of the table and of the session succeed or not; when the
    write of the table succeeds, a login with any spelling of the email
    and the same password succeeds, and a second registration with such a
    spelling is refused. *)
Theorem register_outcome (quota : nat -> option Z) (stored : bool) (userId : string)
    (now : Z) (n e pw : string) (a : Persisted.Auth) :
  let r := Persisted.register quota stringify stored userId now n e pw a in
  (fst r = succeeded ->
   findUserByEmail e (store (Persisted.db a)) = None /\ validEmail e = true
   /\ JSString.trim n <> "" /\ (6 <= String.length pw)%nat)
  /\ (fst r <> succeeded -> snd r = a)
  /\ (findUserByEmail e (store (Persisted.db a)) = None -> validEmail e = true ->
      JSString.trim n <> "" -> (6 <= String.length pw)%nat ->
      (getUserCount (store (Persisted.db a)) < MAX_USERS)%nat -> userId <> "" ->
      let user := newUser userId now {| d_email := e; d_name := n; d_password := pw;
                                        d_role := Some "user" |} in
      fst r = succeeded
      /\ Persisted.currentUser (snd r) = Some (withoutPassword user)
      /\ findUserById userId (store (Persisted.db (snd r)))
         = Some (withoutPassword user)
      /\ (quota (writes (Persisted.db a)) = None ->
          forall e', normalizeEmail e' = normalizeEmail e ->
            (forall quota' stored' now',
               fst (Persisted.login quota' stringify stored' now' e' pw (snd r))
               = succeeded)
            /\ (forall quota' stored' userId' now' n' pw',
                  fst (Persisted.register quota' stringify stored' userId' now' n' e' pw'
                         (snd r))
                  = failed "An account with this email already exists"))).
Proof.
  cbv zeta.
  destruct (Persisted.register quota stringify stored userId now n e pw a) as [res a'] eqn:R.
  cbn [fst snd]. unfold Persisted.register in R.
  destruct (findUserByEmail e (store (Persisted.db a))) as [u |] eqn:F.
  { injection R as <- <-. split; [discriminate | split; [reflexivity | discriminate]]. }
  eqb_cases (JSString.trim n) "".
  { injection R as <- <-. split; [discriminate | split; [reflexivity |]].
    intros _ _ Hn. now contradiction Hn. }
  destruct (validEmail e) eqn:V.
  2:{ rewrite orb_true_r in R. injection R as <- <-.
      split; [discriminate | split; [reflexivity |]]. intros _ Hv. discriminate. }
  eqb_cases (JSString.trim e) "".
  { cbn [orb] in R. injection R as <- <-. split; [discriminate |].
    split; [reflexivity |].
    intros _ _ _ _ _ _. exfalso. now apply (validEmail_not_blank e). }
  cbn [orb negb] in R.
  destruct (Nat.ltb_spec (String.length pw) 6) as [L | L].
  { injection R as <- <-. split; [discriminate | split; [reflexivity |]].
    intros; lia. }
  set (data := {| d_email := e; d_name := n; d_password := pw; d_role := Some "user" |})
    in *.
  split; [| split].
  - intros _. repeat split; auto.
  - intros H.
    destruct (Persisted.createUser quota userId now data (Persisted.db a))
      as [[u | m] db1] eqn:C; injection R as <- <-.
    + now contradiction H.
    + unfold Persisted.createUser in C.
      destruct (createUser userId now data (store (Persisted.db a))) as [[u | m'] s'];
        [discriminate |].
      injection C as _ <-. now destruct a.
  - intros _ _ _ _ Hcap Hid.
    destruct (createUser_read_back quota (Persisted.db a) userId now data Hcap Hid)
      as (R1 & R2 & R3).
    destruct (Persisted.createUser quota userId now data (Persisted.db a))
      as [[u | m] db1] eqn:C; cbn [fst snd] in R1, R2, R3; [| discriminate].
    injection R1 as ->. injection R as <- <-.
    cbn [Persisted.currentUser Persisted.db].
    split; [reflexivity |]. split; [reflexivity |]. split; [assumption |].
    intros Hq e' He'. specialize (R3 Hq e' He'). split.
    + intros quota' stored' now'.
      apply (login_succeeds_db quota' stored' now' e' pw _ (newUser userId now data));
        auto.
    + intros quota' stored' userId' now' n' pw'. unfold Persisted.register.
      cbn [Persisted.db]. now rewrite R3.
Qed.

(** X22: once the record that an email leads to is deactivated, a login
    with that email is never successful, whatever the write of the
    deactivation and that of the session do; when the former succeeds, a
    login with the right password is refused with the message for
    deactivated accounts and changes nothing; and after [activateUser] on
    a record that was active before, its write succeeding too, the login
    succeeds again. *)
Theorem deactivated_cannot_login (quota : nat -> option Z) (now : Z) (e pw : string)
    (a : Persisted.Auth) (user : User) :
  findUserByEmail e (store (Persisted.db a)) = Some user ->
  JSMap.get (normalizeEmail e) (emailIndex (store (Persisted.db a))) = Some (id user) ->
  password user = Some pw ->
  let a1 := {| Persisted.db :=
                 snd (Persisted.deactivateUser quota (id user) (Persisted.db a));
               Persisted.currentUser := Persisted.currentUser a;
               Persisted.storage := Persisted.storage a |} in
  let a2 := {| Persisted.db :=
                 snd (Persisted.activateUser quota (id user) (Persisted.db a1));
               Persisted.currentUser := Persisted.currentUser a;
               Persisted.storage := Persisted.storage a |} in
  (forall quota' stored pw',
     fst (Persisted.login quota' stringify stored now e pw' a1) <> succeeded)
  /\ (quota (writes (Persisted.db a)) = None ->
      (forall quota' stored,
         Persisted.login quota' stringify stored now e pw a1
         = (failed "Account is deactivated. Please contact support.", a1))
      /\ (isActive user = true -> quota (writes (Persisted.db a1)) = None ->
          forall quota' stored,
            fst (Persisted.login quota' stringify stored now e pw a2) = succeeded)).
Proof.
  intros F Hk P. cbv zeta.
  apply findUserByEmail_spec in F as (k & Gk & Hk0 & Gu).
  rewrite Hk in Gk. injection Gk as <-.
  destruct (MethodFacts.deactivateUser_spec quota (id user) (Persisted.db a))
    as (_ & S2 & S3).
  assert (M : snd (deactivateUser (id user) (store (Persisted.db a)))
              = withUsers (JSMap.set (id user) (setActive false user)
                             (users (store (Persisted.db a)))) (store (Persisted.db a))).
  { unfold deactivateUser. now rewrite Gu. }
  rewrite M in S2, S3. split.
  - intros quota' stored pw'. apply login_refused_db. cbn [Persisted.db].
    intros u F'. apply findUserByEmail_spec in F' as (k' & Gk' & _ & Gu').
    destruct S2 as (In' & _ & _ & _ & Idx). cbn [store withStore] in In', Idx.
    apply Idx in Gk'. cbn [emailIndex withUsers] in Gk'.
    rewrite Hk in Gk'. injection Gk' as <-.
    apply In' in Gu'. cbn [users withUsers] in Gu'.
    rewrite JSMapFacts.get_set, String.eqb_refl in Gu'. now injection Gu' as <-.
  - intros Hq. specialize (S3 Hq).
    assert (F1 : findUserByEmail e
                   (store (snd (Persisted.deactivateUser quota (id user) (Persisted.db a))))
                 = Some (setActive false user)).
    { rewrite S3. apply findUserByEmail_spec. exists (id user).
      split; [exact Hk |]. split; [assumption |].
      cbn [users withUsers]. now rewrite JSMapFacts.get_set, String.eqb_refl. }
    split.
    + intros quota' stored. unfold Persisted.login. cbn [Persisted.db]. rewrite F1.
      cbn [password setActive isActive]. rewrite P, String.eqb_refl. reflexivity.
    + intros A Hq1 quota' stored.
      destruct (MethodFacts.activateUser_spec quota (id user)
                  (snd (Persisted.deactivateUser quota (id user) (Persisted.db a))))
        as (_ & _ & A3).
      cbn [Persisted.db] in Hq1. specialize (A3 Hq1).
      apply (login_succeeds_db quota' stored now e pw _ user); auto.
      cbn [Persisted.db]. rewrite A3, S3.
      unfold activateUser. cbn [users withUsers].
      rewrite JSMapFacts.get_set, String.eqb_refl. cbn [snd].
      apply findUserByEmail_spec. exists (id user).
      split; [exact Hk |]. split; [assumption |].
      cbn [users withUsers]. rewrite JSMapFacts.get_set, String.eqb_refl.
      now rewrite setActive_back.
Qed.

(** X23: [updateProfile] without a current user is refused and changes
    nothing, as does every update that fails.  Whatever the updates are and
    whatever the write does, the table afterwards holds, under an
    identifier other than the current user's, no record that it did not
    hold, and every active record that it held; an update that succeeds
    makes the merged record, without its password, the current user and,
    when the write of the session returns, the saved session, which is
    left as it was otherwise; and when the write of the table succeeds,
    the merged record is stored and every other record is as before. *)
Theorem updateProfile_outcome (quota : nat -> option Z) (stored : bool)
    (updates : PartialUser) (a : Persisted.Auth) :
  let r := Persisted.updateProfile quota stringify stored updates a in
  let before := users (store (Persisted.db a)) in
  let after := users (store (Persisted.db (snd r))) in
  (Persisted.currentUser a = None -> r = (failed "Not authenticated", a))
  /\ (fst r <> succeeded -> snd r = a)
  /\ (forall other record,
        (forall user, Persisted.currentUser a = Some user -> other <> id user) ->
        (JSMap.get other after = Some record -> JSMap.get other before = Some record)
        /\ (JSMap.get other before = Some record -> isActive record = true ->
            JSMap.get other after = Some record))
  /\ (fst r = succeeded ->
      exists user record,
        Persisted.currentUser a = Some user
        /\ JSMap.get (id user) before = Some record
        /\ Persisted.currentUser (snd r) = Some (withoutPassword (merge record updates))
        /\ Persisted.storage (snd r)
           = (if stored
              then saveCurrentUser stringify (withoutPassword (merge record updates))
                     (Persisted.storage a)
              else Persisted.storage a)
        /\ (quota (writes (Persisted.db a)) = None ->
            JSMap.get (id user) after = Some (merge record updates)
            /\ forall other, other <> id user ->
                 JSMap.get other after = JSMap.get other before)).
Proof.
  cbv zeta. unfold Persisted.updateProfile.
  destruct (Persisted.currentUser a) as [cu |] eqn:C.
  2:{ cbn [fst snd]. split; [reflexivity |]. split; [reflexivity |].
      split; [intros; split; auto | discriminate]. }
  split; [discriminate |].
  destruct (MethodFacts.updateUser_spec quota (id cu) updates (Persisted.db a))
    as (S1 & S2 & S3).
  destruct (updateUser_preserves_memory (store (Persisted.db a)) (id cu) updates)
    as (_ & _ & _ & M3).
  assert (Hidle : forall db1 o,
            Persisted.updateUser quota (id cu) updates (Persisted.db a) = (o, db1) ->
            (o = Return None \/ exists m, o = Throw m) -> db1 = Persisted.db a).
  { intros db1 o E Ho. unfold Persisted.updateUser in E.
    destruct (updateUser (id cu) updates (store (Persisted.db a))) as [[[u |] | m] s'];
      injection E as <- <-; [| reflexivity | reflexivity].
    destruct Ho as [H | [m H]]; discriminate. }
  destruct (Persisted.updateUser quota (id cu) updates (Persisted.db a))
    as [[[u |] | m] db1] eqn:E; cbn [fst snd Persisted.db Persisted.currentUser
                                      Persisted.storage] in *.
  - split; [intros H; now contradiction H |]. split.
    + intros other record Hne. specialize (Hne cu eq_refl).
      specialize (M3 other Hne).
      destruct S2 as (In' & Keep & _). cbn [store withStore] in In', Keep.
      split.
      * intros G. apply In' in G. now rewrite M3 in G.
      * intros G Ha. apply Keep; [| assumption]. now rewrite M3.
    + intros _. unfold updateUser in S1, S3.
      destruct (JSMap.get (id cu) (users (store (Persisted.db a)))) as [rec |] eqn:G;
        [| discriminate].
      destruct (_ && _); [discriminate |]. cbn [fst snd] in *.
      injection S1 as ->. exists cu, rec.
      split; [reflexivity |]. split; [exact G |]. split; [reflexivity |].
      split; [reflexivity |]. intros Hq. rewrite (S3 Hq). cbn [users]. split.
      * now rewrite JSMapFacts.get_set, String.eqb_refl.
      * intros other Hne. rewrite JSMapFacts.get_set.
        now rewrite (proj2 (String.eqb_neq (id cu) other)) by congruence.
  - assert (db1 = Persisted.db a) by (apply (Hidle db1 (Return None)); auto).
    subst db1. split; [intros _; now destruct a; cbn in *; subst |].
    split; [intros; split; auto | discriminate].
  - assert (db1 = Persisted.db a) by (apply (Hidle db1 (Throw m)); eauto).
    subst db1. split; [intros _; now destruct a; cbn in *; subst |].
    split; [intros; split; auto | discriminate].
Qed.

End ProviderWrites.

Lemma register_outcome_witness :
  let a := {| Persisted.db := {| store := run sampleOps emptyStore; writes := 0 |};
              Persisted.currentUser := None;
              Persisted.storage := sampleStorage |} in
  let a' := snd (Persisted.register roomy sampleBlob true "u9" 900 "Meera Joshi"
                   "Meera@Example.com" "secret9" a) in
  fst (Persisted.register roomy sampleBlob true "u9" 900 "Meera Joshi"
         "Meera@Example.com" "secret9" a) = succeeded
  /\ fst (Persisted.login fullOnce sampleBlob false 950 " meera@example.com" "secret9" a')
     = succeeded
  /\ fst (Persisted.register roomy sampleBlob false "u10" 960 "Meera J" "MEERA@example.com"
            "secret10" a')
     = failed "An account with this email already exists".
Proof.
  cbv zeta.
  destruct (register_outcome sampleBlob roomy true "u9" 900 "Meera Joshi" "Meera@Example.com"
              "secret9"
              {| Persisted.db := {| store := run sampleOps emptyStore; writes := 0 |};
                 Persisted.currentUser := None;
                 Persisted.storage := sampleStorage |}) as (_ & _ & H).
  cbv zeta in H. destruct H as (H1 & _ & _ & H3).
  - vm_compute. reflexivity.
  - vm_compute. reflexivity.
  - vm_compute. discriminate.
  - vm_compute. lia.
  - vm_compute. lia.
  - discriminate.
  - split; [exact H1 |]. specialize (H3 eq_refl). split.
    + exact (proj1 (H3 " meera@example.com" eq_refl) fullOnce false 950%Z).
    + exact (proj2 (H3 "MEERA@example.com" eq_refl) roomy false "u10" 960%Z "Meera J"
             "secret10").
Defined.

Lemma deactivated_cannot_login_witness :
  let a := {| Persisted.db := {| store := run sampleOps emptyStore; writes := 0 |};
              Persisted.currentUser := None;
              Persisted.storage := sampleStorage |} in
  let a1 := {| Persisted.db := snd (Persisted.deactivateUser roomy "u2" (Persisted.db a));
               Persisted.currentUser := None;
               Persisted.storage := sampleStorage |} in
  Persisted.login roomy sampleBlob true 500 "rohan.sharma@example.com" "secret1" a1
  = (failed "Account is deactivated. Please contact support.", a1).
Proof.
  cbv zeta.
  assert (F : findUserByEmail "rohan.sharma@example.com" (run sampleOps emptyStore)
              = Some rohan) by (vm_compute; reflexivity).
  assert (K : JSMap.get (normalizeEmail "rohan.sharma@example.com")
                (emailIndex (run sampleOps emptyStore)) = Some (id rohan))
    by (vm_compute; reflexivity).
  exact (proj1 (proj2 (deactivated_cannot_login sampleBlob roomy 500
                         "rohan.sharma@example.com" "secret1"
                         {| Persisted.db := {| store := run sampleOps emptyStore;
                                               writes := 0 |};
                            Persisted.currentUser := None;
                            Persisted.storage := sampleStorage |} rohan F K eq_refl)
                  eq_refl) roomy true).
Defined.

Lemma updateProfile_outcome_witness :
  let a := {| Persisted.db := {| store := run sampleOps emptyStore; writes := 0 |};
              Persisted.currentUser := Some (withoutPassword rohan);
              Persisted.storage := sampleStorage |} in
  snd (Persisted.updateProfile fullOnce sampleBlob false (emailUpdate "Kavya@Example.com") a) = a.
Proof.
  cbv zeta.
  apply (proj1 (proj2 (updateProfile_outcome sampleBlob fullOnce false
                         (emailUpdate "Kavya@Example.com") _))).
  vm_compute. discriminate.
Defined.

(** *** X14: the export read by the import *)

Module ExportFacts.
Import JSString.

Lemma plain_lacks_newline s : plain s = true -> lacks newline s = true.
Proof.
  unfold plain, lacks. induction (list_ascii_of_string s) as [| c l IH]; simpl.
  - reflexivity.
  - intros H. apply andb_prop in H as [Hc Hl]. rewrite (IH Hl), andb_true_r.
    destruct (Ascii.eqb_spec c newline) as [-> | Hne]; [discriminate | reflexivity].
Qed.

Lemma plain_string_of_N n : plain (string_of_N n) = true.
Proof.
  unfold plain, string_of_N. rewrite list_ascii_of_string_of_list_ascii.
  apply forallb_forall. intros c Hc. apply in_rev in Hc.
  revert c Hc. apply forallb_forall. apply PlainFacts.plain_digits.
Qed.

Lemma lacks_newline_string_of_Z z : lacks newline (string_of_Z z) = true.
Proof.
  apply plain_lacks_newline. unfold string_of_Z.
  destruct (z <? 0)%Z; [| apply plain_string_of_N].
  rewrite PlainFacts.plain_app, plain_string_of_N. reflexivity.
Qed.

Lemma lacks_concat c sep l :
  lacks c sep = true -> Forall (fun s => lacks c s = true) l ->
  lacks c (String.concat sep l) = true.
Proof.
  intros Hsep. induction 1 as [| x l Hx Hl IH]; [reflexivity |].
  destruct l as [| y l]; [assumption |].
  change (String.concat sep (x :: y :: l))
    with (x ++ sep ++ String.concat sep (y :: l))%string.
  now rewrite !CsvFacts.lacks_app, Hx, Hsep, IH.
Qed.

Section ExportLines.
Variable toISOString : Z -> string.
Variable numberToString : Q -> string.

Lemma exportable_spec u :
  exportable toISOString numberToString u = true ->
  lacks newline (exportLine toISOString numberToString u) = true
  /\ lacks "," (id u) = true /\ lacks "," (name u) = true
  /\ lacks "," (email u) = true /\ lacks "," (role u) = true
  /\ lacks quote (name u) = true /\ lacks quote (email u) = true
  /\ name u <> "" /\ email u <> "".
Proof.
  unfold exportable. intros H.
  repeat (apply andb_prop in H as [H ?]).
  repeat match goal with
         | E : negb (String.eqb _ "") = true |- _ =>
             apply negb_true_iff, String.eqb_neq in E
         end.
  repeat split; try assumption.
  unfold exportLine. apply lacks_concat; [reflexivity |].
  repeat constructor; try assumption.
  - unfold quoted.
    change (String quote (name u ++ String quote ""))
      with (String quote "" ++ (name u ++ String quote ""))%string.
    rewrite !CsvFacts.lacks_app.
    match goal with Hn : lacks newline (name u) = true |- _ => now rewrite Hn end.
  - now destruct (isActive u).
  - apply lacks_newline_string_of_Z.
Qed.

Lemma split_export source :
  forallb (exportable toISOString numberToString) (getAllUsers source) = true ->
  split newline (exportUsers toISOString numberToString source)
  = exportHeader :: map (exportLine toISOString numberToString) (getAllUsers source).
Proof.
  intros H. unfold exportUsers. apply SplitFacts.split_concat; [discriminate |].
  constructor; [reflexivity |].
  rewrite forallb_forall in H. apply Forall_forall. intros line Hin.
  apply in_map_iff in Hin as (u & <- & Hu). now apply exportable_spec, H.
Qed.

Lemma importLines_export genId clock us : forall i s r,
  forallb (exportable toISOString numberToString) us = true ->
  NoDup (map email us) ->
  Forall (fun u => normalizeEmail (email u) = email u) us ->
  Forall (fun u => JSMap.has (email u) (emailIndex s) = false) us ->
  (getUserCount s + length us <= MAX_USERS)%nat ->
  importLines genId clock i (map (exportLine toISOString numberToString) us) (s, r)
  = (run (reimportOps genId clock i us) s,
     {| imported := imported r + length us; errors := errors r |}).
Proof.
  induction us as [| u us IH]; intros i s r Hx Hnd Hnorm Hidx Hcap;
    cbn [map importLines reimportOps run fold_left length].
  - rewrite Nat.add_0_r. now destruct r.
  - cbn [forallb] in Hx. apply andb_prop in Hx as [Hu Hx].
    destruct (exportable_spec u Hu) as (_ & C1 & C2 & C3 & C4 & Q1 & Q2 & N1 & N2).
    inversion Hnd as [| ? ? Hnot Hnd']; subst.
    inversion Hnorm as [| ? ? Hn1 Hnorm']; subst.
    inversion Hidx as [| ? ? Hi1 Hidx']; subst.
    cbn [length] in Hcap.
    assert (Hroom : (getUserCount s < MAX_USERS)%nat) by lia.
    destruct (import_reads_export_memory toISOString numberToString genId clock i u s r
                C1 C2 C3 C4 Q1 Q2 N1 N2 Hi1 Hroom) as [E _].
    rewrite E. fold (reimportData u). clear E.
    change (fold_left step (reimportOps genId clock (S i) us)
              (step s (OpCreate (genId i) (clock i) (reimportData u))))
      with (run (reimportOps genId clock (S i) us)
              (snd (createUser (genId i) (clock i) (reimportData u) s))).
    rewrite IH; auto.
    + cbn [imported errors]. do 2 f_equal. lia.
    + rewrite createUser_below by exact Hroom. cbn [snd emailIndex updateIndexes].
      rewrite Forall_forall in *. intros v Hv. rewrite JSMapFacts.has_set.
      rewrite Hidx' by assumption. rewrite orb_false_r.
      apply String.eqb_neq. cbn [email newUser reimportData d_email]. rewrite Hn1.
      intros Heq. apply Hnot. rewrite Heq. now apply in_map.
    + pose proof (createUser_count_step s (genId i) (clock i) (reimportData u)). lia.
Qed.

End ExportLines.
End ExportFacts.

(** X14: the text that [exportUsers] writes for a store is read by
    [importUsers], when no write fails, as one creation per record, in the
    order of the export: each with the email, the name and the role of the
    record (the role "user" if it was empty) and the password of imported
    users; every line is imported and no error is reported.  This holds
    when no field of a line holds a line feed, the identifier, name, email
    and role of a record hold no comma, its name and email hold no double
    quote and are not empty, the emails are normalized, differ from one
    another and are not keys of the email index of the importing store, and
    that store has room for the records.  The identifier, the time stamps,
    the active flag and the order statistics of a line are not read. *)
Theorem import_reads_export (quota : nat -> option Z)
    (toISOString : Z -> string) (numberToString : Q -> string)
    (genId : nat -> string) (clock : nat -> Z) (source : Store) (d : Db) :
  (forall n, quota n = None) ->
  let us := getAllUsers source in
  forallb (exportable toISOString numberToString) us = true ->
  NoDup (map email us) ->
  Forall (fun u => normalizeEmail (email u) = email u) us ->
  Forall (fun u => JSMap.has (email u) (emailIndex (store d)) = false) us ->
  (getUserCount (store d) + length us <= MAX_USERS)%nat ->
  let r := Persisted.importUsers quota genId clock
             (exportUsers toISOString numberToString source) d in
  fst r = {| imported := length us; errors := [] |}
  /\ store (snd r) = run (reimportOps genId clock 1 us) (store d).
Proof.
  intros Hq us Hx Hnd Hnorm Hidx Hcap r.
  destruct (importUsers_written quota genId clock Hq
              (exportUsers toISOString numberToString source) d) as [H1 H2].
  subst r. rewrite H1, H2. unfold importUsers.
  rewrite (ExportFacts.split_export toISOString numberToString source Hx).
  cbn [tl]. fold us.
  rewrite (ExportFacts.importLines_export toISOString numberToString genId clock us 1
             (store d) {| imported := 0; errors := [] |} Hx Hnd Hnorm Hidx Hcap).
  cbn [fst snd imported errors]. now split.
Qed.

Lemma import_reads_export_witness :
  let source := run sampleOps emptyStore in
  let r := Persisted.importUsers roomy sampleGenId sampleClock
             (exportUsers JSString.string_of_Z (fun _ => "0") source)
             {| store := emptyStore; writes := 0 |} in
  fst r = {| imported := 2; errors := [] |}
  /\ store (snd r)
     = run (reimportOps sampleGenId sampleClock 1 (getAllUsers source)) emptyStore.
Proof.
  cbv zeta.
  apply (import_reads_export roomy JSString.string_of_Z (fun _ => "0")
           sampleGenId sampleClock (run sampleOps emptyStore)
           {| store := emptyStore; writes := 0 |}).
  - reflexivity.
  - vm_compute. reflexivity.
  - vm_compute. repeat constructor; simpl; intuition discriminate.
  - vm_compute. repeat constructor.
  - vm_compute. repeat constructor.
  - vm_compute. lia.
Defined.

(** *** X27: failing writes and the invariants *)

Lemma run_app ops1 ops2 s : run (ops1 ++ ops2) s = run ops2 (run ops1 s).
Proof. unfold run. apply fold_left_app. Qed.

Lemma follows_app ok ops1 : forall ops2 s,
  follows ok s (ops1 ++ ops2) = follows ok s ops1 && follows ok (run ops1 s) ops2.
Proof.
  induction ops1 as [| op ops1 IH]; intros ops2 s; simpl; [reflexivity |].
  rewrite IH. change (fold_left step ops1 (step s op)) with (run ops1 (step s op)).
  now rewrite andb_assoc.
Qed.

Lemma follows_removals ok ids : forall s,
  (forall s' userId, ok s' (OpDelete userId) = true) ->
  follows ok s (map OpDelete ids) = true.
Proof.
  induction ids as [| i ids IH]; intros s H; simpl; [reflexivity |].
  now rewrite H, IH.
Qed.

Section Removals.
Variable quota : nat -> option Z.

Lemma cleanup_fold_removals (delete : string -> Db -> Db) h keys : forall d,
  (forall userId d', JSMap.has userId (users (store d')) = true ->
     exists ids, store (delete userId d') = run (map OpDelete ids) (store d')) ->
  exists ids,
    store (fold_left
             (fun d' userId =>
                match JSMap.get userId (users (store d')) with
                | Some user => if isStale h user then delete userId d' else d'
                | None => d'
                end) keys d)
    = run (map OpDelete ids) (store d).
Proof.
  induction keys as [| k keys IH]; intros d Hdel; simpl.
  - now exists [].
  - destruct (JSMap.get k (users (store d))) as [user |] eqn:G; [| now apply IH].
    destruct (isStale h user); [| now apply IH].
    destruct (Hdel k d) as [ids1 E1]; [unfold JSMap.has; now rewrite G |].
    destruct (IH (delete k d) Hdel) as [ids2 E2].
    exists (ids1 ++ ids2). now rewrite map_app, run_app, <- E1.
Qed.

Lemma saveToStorageWithin_removals fuel : forall d,
  exists ids,
    store (Persisted.saveToStorageWithin quota fuel d) = run (map OpDelete ids) (store d).
Proof.
  induction fuel as [| fuel IH]; intros d; cbn [Persisted.saveToStorageWithin];
    destruct (MAX_USERS <? JSMap.size (users (store d)))%nat;
    try (now exists []);
    destruct (quota (writes d)) as [h |]; try (now exists []).
  unfold Persisted.cleanupOldDataWith.
  apply (cleanup_fold_removals _ h _ (attempted d)).
  intros userId d' Hhas. unfold Persisted.deleteUserWith.
  apply JSMapMore.has_get in Hhas as [user G]. rewrite G. cbn [snd].
  destruct (IH (withStore (snd (deleteUser userId (store d'))) d')) as [ids E].
  exists (userId :: ids). rewrite E. reflexivity.
Qed.

Lemma saveToStorage_removals d :
  exists ids, store (Persisted.saveToStorage quota d) = run (map OpDelete ids) (store d).
Proof. apply saveToStorageWithin_removals. Qed.

Lemma step_removals d op :
  exists ids,
    store (Persisted.step quota d op) = run (op :: map OpDelete ids) (store d).
Proof.
  assert (Hsave : forall s', exists ids,
            store (Persisted.saveToStorage quota (withStore s' d))
            = run (map OpDelete ids) s').
  { intros s'. apply (saveToStorage_removals (withStore s' d)). }
  destruct op as [i now u | i upd | i r | i | i | i now | i |];
    cbn [Persisted.step run fold_left step].
  - unfold Persisted.createUser.
    destruct (createUser i now u (store d)) as [[x | m] s'] eqn:E; cbn [snd].
    + apply Hsave.
    + exists []. apply createUser_throws in E. now subst.
  - unfold Persisted.updateUser.
    destruct (updateUser i upd (store d)) as [[[x |] | m] s'] eqn:E; cbn [snd].
    + apply Hsave.
    + exists []. symmetry. apply (updateUser_idle i upd). now left.
    + exists []. symmetry. apply (updateUser_idle i upd). right. now exists m.
  - unfold Persisted.updateUserRole, updateUserRole.
    destruct (JSMap.get i (users (store d))); cbn [snd]; [apply Hsave | now exists []].
  - unfold Persisted.deactivateUser, deactivateUser.
    destruct (JSMap.get i (users (store d))); cbn [snd]; [apply Hsave | now exists []].
  - unfold Persisted.activateUser, activateUser.
    destruct (JSMap.get i (users (store d))); cbn [snd]; [apply Hsave | now exists []].
  - unfold Persisted.updateLastLogin.
    destruct (JSMap.get i (users (store d))) eqn:G; [apply Hsave |].
    exists []. unfold updateLastLogin. now rewrite G.
  - unfold Persisted.deleteUser, Persisted.deleteUserWith.
    destruct (JSMap.get i (users (store d))) eqn:G; cbn [snd]; [apply Hsave |].
    exists []. unfold deleteUser. now rewrite G.
  - now exists [].
Qed.

Lemma run_removals ok ops : forall d,
  (forall s userId, ok s (OpDelete userId) = true) ->
  Persisted.follows quota ok d ops = true ->
  exists ops',
    store (Persisted.run quota ops d) = run ops' (store d)
    /\ follows ok (store d) ops' = true.
Proof.
  induction ops as [| op ops IH]; intros d Hdel Hf;
    cbn [Persisted.run Persisted.follows fold_left] in *.
  - now exists [].
  - apply andb_prop in Hf as [Hop Hrest].
    destruct (step_removals d op) as [ids E].
    destruct (IH (Persisted.step quota d op) Hdel Hrest) as (ops' & E' & F').
    exists ((op :: map OpDelete ids) ++ ops'). split.
    + rewrite run_app, <- E. exact E'.
    + rewrite follows_app, <- E, F', andb_true_r.
      cbn [follows app]. rewrite Hop. cbn [andb].
      now apply follows_removals.
Qed.

End Removals.

(** X27: whatever the writes do, a store that a sequence of methods with
    their writes reaches is reached by a sequence of methods whose writes
    succeed: the same operations, with the removals of the clean-ups in
    between, and this sequence follows every discipline that the first one
    follows and that no removal breaks.  So from the empty store the email
    index and the primary table agree when creations use unused
    identifiers and emails that are not indexed and updates pass
    normalized emails, every record is in the bucket of its role and in no
    other when creations use unused identifiers and updates pass non-empty
    roles, and the number of records never exceeds [MAX_USERS]. *)
Theorem failing_writes_keep_invariants (quota : nat -> option Z) (ops : list Op)
    (n : nat) :
  let d0 := {| store := emptyStore; writes := n |} in
  let d := Persisted.run quota ops d0 in
  (forall ok, (forall s userId, ok s (OpDelete userId) = true) ->
     Persisted.follows quota ok d0 ops = true ->
     exists ops', store d = run ops' emptyStore /\ follows ok emptyStore ops' = true)
  /\ (Persisted.follows quota emailDiscipline d0 ops = true -> EmailAgree (store d))
  /\ (Persisted.follows quota roleDiscipline d0 ops = true -> RolePartition (store d))
  /\ (getUserCount (store d) <= MAX_USERS)%nat.
Proof.
  cbv zeta.
  assert (Hruns : forall ok, (forall s userId, ok s (OpDelete userId) = true) ->
            Persisted.follows quota ok {| store := emptyStore; writes := n |} ops = true ->
            exists ops',
              store (Persisted.run quota ops {| store := emptyStore; writes := n |})
              = run ops' emptyStore
              /\ follows ok emptyStore ops' = true).
  { intros ok Hdel Hf. now apply (run_removals quota ok ops _ Hdel Hf). }
  split; [exact Hruns |]. split; [| split].
  - intros Hf. destruct (Hruns emailDiscipline) as (ops' & -> & F); auto.
    apply EmailInv_agree.
    apply (run_follows emailDiscipline EmailInv); auto using EmailInv_empty.
    apply EmailInv_step.
  - intros Hf. destruct (Hruns roleDiscipline) as (ops' & -> & F); auto.
    destruct (RoleInv_run ops' F) as [_ Hr].
    intros i u G r. rewrite (Hr r i). split.
    + intros [u' [G' E]]. rewrite G in G'. injection G' as <-.
      symmetry. now apply String.eqb_eq.
    + intros ->. exists u. split; [assumption | apply String.eqb_refl].
  - destruct (Hruns (fun _ _ => true)) as (ops' & -> & _); auto.
    { clear. generalize {| store := emptyStore; writes := n |}.
      induction ops as [| op ops IH]; intros d; cbn [Persisted.follows andb]; auto. }
    apply run_count. vm_compute. lia.
Qed.

Lemma failing_writes_keep_invariants_witness :
  EmailAgree (store (Persisted.run fullOnce sampleOps {| store := emptyStore; writes := 0 |}))
  /\ RolePartition
       (store (Persisted.run fullOnce sampleOps {| store := emptyStore; writes := 0 |})).
Proof.
  split.
  - apply (proj1 (proj2 (failing_writes_keep_invariants fullOnce sampleOps 0))).
    vm_compute. reflexivity.
  - apply (proj1 (proj2 (proj2 (failing_writes_keep_invariants fullOnce sampleOps 0)))).
    vm_compute. reflexivity.
Defined.
